(** * Incremental learner: a shallow embedding of [model/IncrementalLearner.py]

    The controller of a class-incremental training session is embedded as
    pure functions over an explicit session state.  Tensors are lists of
    real numbers, Python integers are [Z], the tensor objects that the
    source shares between attributes live in an explicit store, and the
    external collaborators (backbone, splitter, dataset, loss and
    optimiser, random generators) are the fields of one interface. *)

From Stdlib Require Import String ZArith List Bool Reals Lra Lia Psatz.
Import ListNotations.

Set Implicit Arguments.

(** ** Python exceptions as an error monad *)

Inductive exn : Set :=
| ZeroDivisionError
| IndexError
| TypeError
| AttributeError
| ValueError
| RuntimeError.

Inductive result (A : Type) : Type :=
| Ok (a : A)
| Raise (e : exn).

Arguments Ok {A} a.
Arguments Raise {A} e.

Definition bind {A B : Type} (r : result A) (k : A -> result B) : result B :=
  match r with
  | Ok a => k a
  | Raise e => Raise e
  end.

Notation "x <- r ;; k" := (bind r (fun x => k))
  (at level 61, r at next level, right associativity).
Notation "' p <- r ;; k" := (bind r (fun p => k))
  (at level 61, p pattern, r at next level, right associativity).

Definition is_ok {A : Type} (r : result A) : bool :=
  match r with Ok _ => true | Raise _ => false end.

(** ** Python integers, ranges and slices *)

Module Py.

(** [a // b] on integers: floor division, raising on a zero divisor.
    [Z.div] rounds towards minus infinity like Python's [//]. *)
Definition floordiv (a b : Z) : result Z :=
  if (b =? 0)%Z then Raise ZeroDivisionError else Ok (a / b)%Z.

(** [len(range(n))]: a negative bound gives the empty range. *)
Definition range_len (n : Z) : nat := Z.to_nat n.

(** A slice bound, clamped the way [list.__getitem__] clamps it. *)
Definition clamp (len : nat) (i : Z) : nat :=
  if (i <? 0)%Z then Z.to_nat (Z.max 0 (i + Z.of_nat len))
  else Nat.min (Z.to_nat i) len.

(** [l[start:]] *)
Definition slice_from {A : Type} (start : Z) (l : list A) : list A :=
  skipn (clamp (length l) start) l.

(** [l[:stop]] *)
Definition slice_to {A : Type} (stop : Z) (l : list A) : list A :=
  firstn (clamp (length l) stop) l.

(** [l[i]] for a non-negative index. *)
Definition getitem {A : Type} (l : list A) (i : nat) : result A :=
  match nth_error l i with
  | Some a => Ok a
  | None => Raise IndexError
  end.

(** [l[i]] for any integer index: a negative one counts from the end. *)
Definition getitem_z {A : Type} (l : list A) (i : Z) : result A :=
  if (i <? 0)%Z then
    if (i + Z.of_nat (length l) <? 0)%Z then Raise IndexError
    else getitem l (Z.to_nat (i + Z.of_nat (length l)))
  else getitem l (Z.to_nat i).

(** [l[i] = v] for a non-negative index. *)
Fixpoint setitem {A : Type} (l : list A) (i : nat) (v : A) : result (list A) :=
  match l, i with
  | [], _ => Raise IndexError
  | _ :: t, O => Ok (v :: t)
  | h :: t, S j => t' <- setitem t j v ;; Ok (h :: t')
  end.

End Py.

(** ** Tensors *)

Definition Vec := list R.
Definition Matrix := list Vec.

(** [x[:, -n:]] and [x[:, :-n]] on a two-dimensional tensor. *)
Definition last_cols (n : Z) (x : Matrix) : Matrix :=
  map (Py.slice_from (- n)) x.

Definition drop_last_cols (n : Z) (x : Matrix) : Matrix :=
  map (Py.slice_to (- n)) x.

(** [torch.cat((a, b))] along the first dimension. *)
Definition cat (a b : Matrix) : Matrix := a ++ b.

(** ** The store of tensor objects

    [kaiming_normal_] fills its argument in place and returns it, the
    optimiser updates parameters in place, and [copy.deepcopy] makes fresh
    objects: which attribute names which object matters, so parameter
    tensors of the head are references into a store. *)

Definition loc := nat.

Record Store : Type := mkStore {
  cells : loc -> Matrix;
  next : loc
}.

Definition empty_store : Store := mkStore (fun _ => []) 0.

Definition read (h : Store) (l : loc) : Matrix := cells h l.

Definition write (l : loc) (v : Matrix) (h : Store) : Store :=
  mkStore (fun l' => if Nat.eqb l' l then v else cells h l') (next h).

Definition alloc (v : Matrix) (h : Store) : loc * Store :=
  (next h,
   mkStore (fun l' => if Nat.eqb l' (next h) then v else cells h l')
           (S (next h))).

(** ** Configuration *)

Inductive Selection : Set := herding | random.

Record ApproachParams : Type := {
  classification_loss : string;
  distillation_loss : option string;
  ap_use_distillation : bool;
  ap_use_variation : bool;
  ap_use_exemplars : bool;
  n_exemplars : Z;
  ap_use_cosine : bool;
  exemplars_selection : Selection
}.

Record TrainParams : Type := {
  LR : R;
  MOMENTUM : R;
  WEIGHT_DECAY : R;
  STEP_MILESTONES : list Z;
  GAMMA : R;
  NUM_EPOCHS : Z;
  BATCH_SIZE : Z
}.

(** [CustomizedLoss(classification, distillation)] *)
Record Loss : Type := CustomizedLoss {
  loss_classification : string;
  loss_distillation : option string
}.

(** The four tensors handed to the composite loss for one batch. *)
Record Signals : Type := {
  class_input : Matrix;
  class_target : Matrix;
  dist_input : option Matrix;
  dist_target : option Matrix
}.

(** ** Networks *)

(** The classification head: [nn.Linear] has a bias, [CosineLayer] a
    learned scale [sigma]; both have a weight parameter object. *)
Record Head : Type := {
  in_features : Z;
  out_features : Z;
  weight : loc;
  bias : option Vec;
  sigma : option Vec
}.

(** The values an optimiser step reads and rewrites. *)
Record Learnable (Backbone : Type) : Type := {
  l_body : Backbone;
  l_weight : Matrix;
  l_bias : option Vec;
  l_sigma : option Vec
}.

(** ** External collaborators *)

Class Collaborators : Type := {
  Image : Type;
  Backbone : Type;
  OptState : Type;
  Rng : Type;
  Seed : Type;
  (** [resnet32()] and the cosine variant: backbone and feature width. *)
  resnet32 : Backbone * Z;
  cosine_resnet32 : Backbone * Z;
  (** Fresh parameter values of a newly allocated head. *)
  fresh_weight : Rng -> Z -> Z -> Matrix * Rng;
  fresh_bias : Rng -> Z -> Vec * Rng;
  fresh_sigma : Rng -> Vec * Rng;
  (** One draw of [kaiming_normal_] for a tensor of the given shape. *)
  kaiming_normal : Rng -> Z -> Z -> Matrix * Rng;
  (** [LabelsSplitter(num_classes, num_groups, seed).labels_split] *)
  LabelsSplitter : Z -> Z -> Seed -> result (list (list Z));
  (** [net(images, output = 'all')]: logits and penultimate features;
      the flag is the module's training mode. *)
  forward : bool -> Learnable Backbone -> list Image -> Matrix * Matrix;
  (** [net(image, output = 'features')] in evaluation mode, per sample. *)
  features_of : Learnable Backbone -> Image -> Vec;
  transform_labels_onehot : list Z -> Z -> Matrix;
  (** [optim.SGD] with its [MultiStepLR] schedule. *)
  SGD : TrainParams -> OptState;
  scheduler_step : OptState -> OptState;
  (** [zero_grad], the loss, [backward] and [optimizer.step] of a batch. *)
  sgd_step : OptState -> Loss -> Learnable Backbone -> list Image ->
             Signals -> R -> OptState * Learnable Backbone;
  (** The rows [(image, label)] of [SubCIFAR(labels = [label])]. *)
  SubCIFAR : list (list Z) -> Z -> list (Image * Z);
  (** [random.sample(range(n), k)] *)
  random_sample : Rng -> nat -> nat -> list nat * Rng
}.

(** Monadic iteration: [for x in xs] and [for _ in range(n)]. *)
Fixpoint for_each {A S : Type} (xs : list A) (body : A -> S -> result S)
    (s : S) : result S :=
  match xs with
  | [] => Ok s
  | x :: rest => s' <- body x s ;; for_each rest body s'
  end.

Fixpoint repeat_m {S : Type} (n : nat) (body : S -> result S) (s : S)
    : result S :=
  match n with
  | O => Ok s
  | S k => s' <- body s ;; repeat_m k body s'
  end.

Fixpoint map_m {A B : Type} (f : A -> result B) (xs : list A)
    : result (list B) :=
  match xs with
  | [] => Ok []
  | x :: rest => y <- f x ;; ys <- map_m f rest ;; Ok (y :: ys)
  end.

(** ** Feature-space arithmetic of the exemplar selection *)

Section Features.

Local Open Scope R_scope.

(** [torch.sum(v)] of a vector and of a matrix (all entries). *)
Definition vsum (v : Vec) : R := fold_right Rplus 0 v.

Definition sum_all (x : Matrix) : R := vsum (map vsum x).

Definition sum_sq (v : Vec) : R := vsum (map (fun a => a * a) v).

(** [torch.norm(v, p = 2)] *)
Definition norm (v : Vec) : R := sqrt (sum_sq v).

(** [torch.zeros((d,))] *)
Definition zeros (d : Z) : Vec := repeat 0 (Z.to_nat d).

(** Element-wise sum and difference of two vectors of one shape. *)
Definition vadd (a b : Vec) : Vec :=
  map (fun p => fst p + snd p) (combine a b).

Definition vsub (a b : Vec) : Vec :=
  map (fun p => fst p - snd p) (combine a b).

(** [F.normalize(x, p = 2)]: every row divided by its norm, the norm
    clamped from below by [eps = 1e-12]. *)
Definition eps : R := / 10 ^ 12.

Definition normalize_row (v : Vec) : Vec :=
  map (fun a => a / Rmax (norm v) eps) v.

Definition F_normalize (x : Matrix) : Matrix := map normalize_row x.

(** The loop of [get_features_representation]: the running [mean], the
    list of per-batch feature tensors and the image count. *)
Definition features_loop {I : Type} (feat : I -> Vec)
    (dataloader : list (list (I * Z))) (mean : Vec)
    : Vec * list Matrix * Z :=
  fold_left
    (fun (st : Vec * list Matrix * Z) (batch : list (I * Z)) =>
       let '(mean, batch_features, tot_images) := st in
       let features := map (fun x => feat (fst x)) batch in
       (map (fun a => a + sum_all features) mean,
        batch_features ++ [features],
        (tot_images + Z.of_nat (length features))%Z))
    dataloader (mean, [], 0%Z).

(** [get_features_representation]: the normalised features of the
    class and the class mean the selection uses.  [torch.cat] refuses
    an empty list of tensors. *)
Definition get_features_representation {I : Type} (d : Z)
    (feat : I -> Vec) (dataloader : list (list (I * Z)))
    : result (Matrix * Vec) :=
  let '(mean, batch_features, tot_images) :=
    features_loop feat dataloader (zeros d) in
  let mean := map (fun a => a / IZR tot_images) mean in
  match batch_features with
  | [] => Raise RuntimeError
  | _ =>
      let batch_features := concat batch_features in
      Ok (F_normalize batch_features,
          map (fun a => a / norm mean) mean)
  end.

(** [distances.argmin()]: the position of the first smallest entry. *)
Fixpoint argmin_from (best_i : nat) (best : R) (i : nat) (l : list R)
    : nat :=
  match l with
  | [] => best_i
  | x :: t =>
      if Rlt_dec x best then argmin_from i x (S i) t
      else argmin_from best_i best (S i) t
  end.

Definition argmin (l : list R) : result nat :=
  match l with
  | [] => Raise RuntimeError
  | x :: t => Ok (argmin_from 0%nat x 1%nat t)
  end.

Definition sentinel : R := 100000.

(** [get_closest_exemplar_idx] *)
Definition get_closest_exemplar_idx (label_mean : Vec)
    (features : Matrix) (idx_taken : list nat) : result nat :=
  let features := F_normalize features in
  let distances :=
    map (fun f => vsum (map (fun a => a ^ 2) (vsub label_mean f)))
        features in
  distances <-
    for_each idx_taken (fun idx ds => Py.setitem ds idx sentinel)
             distances ;;
  argmin distances.

(** One round of the herding loop on [(exemplars_mean, idx_taken)]. *)
Definition herding_round (label_mean : Vec) (features : Matrix)
    (st : Vec * list nat) : result (Vec * list nat) :=
  let '(exemplars_mean, idx_taken) := st in
  idx <- get_closest_exemplar_idx label_mean
           (map (fun f => vadd f exemplars_mean) features) idx_taken ;;
  f <- Py.getitem features idx ;;
  Ok (vadd exemplars_mean f, idx_taken ++ [idx]).

Definition herding_select (d : Z) (num_exemplars : Z) (label_mean : Vec)
    (features : Matrix) : result (list nat) :=
  st <- repeat_m (Py.range_len num_exemplars)
                 (herding_round label_mean features) (zeros d, []) ;;
  Ok (snd st).

(** The herding branch of [update_exemplars] for one class: features
    and mean of the class, then [min(m, len(dataset))] rounds. *)
Definition herding_of_class {I : Type} (d : Z) (feat : I -> Vec)
    (dataloader : list (list (I * Z))) (m : Z) : result (list nat) :=
  '(features, label_mean) <-
    get_features_representation d feat dataloader ;;
  let num_exemplars :=
    Z.min m (Z.of_nat (length (concat dataloader))) in
  herding_select d num_exemplars label_mean features.

(** The class mean in the words of the specification: the
    component-wise average of the per-sample feature vectors, divided
    by its L2 norm. *)
Definition componentwise_mean (d : Z) (rows : Matrix) : Vec :=
  map (fun a => a / INR (length rows))
      (fold_left vadd rows (zeros d)).

Definition normalized_class_mean (d : Z) (rows : Matrix) : Vec :=
  let mu := componentwise_mean d rows in
  map (fun a => a / norm mu) mu.

End Features.

(** [DataLoader(dataset, batch_size)]: consecutive batches in dataset
    order, the last one possibly shorter. *)
Fixpoint chunks {A : Type} (fuel b : nat) (l : list A) : list (list A) :=
  match fuel, l with
  | _, [] => []
  | O, _ => []
  | S f, _ => firstn b l :: chunks f b (skipn b l)
  end.

Definition DataLoader {A : Type} (dataset : list A) (batch_size : Z)
    : result (list (list A)) :=
  if (batch_size <=? 0)%Z then Raise ValueError
  else Ok (chunks (length dataset) (Z.to_nat batch_size) dataset).

Section Learner.

Context {C : Collaborators}.

Record Net : Type := {
  body : Backbone;
  fc : Head
}.

(** [nn.Linear(in_features, out_features)]: a fresh weight object and a
    fresh bias; a negative size is refused by the tensor allocator. *)
Definition nn_Linear (h : Store) (g : Rng) (inf outf : Z)
    : result (Head * Store * Rng) :=
  if (outf <? 0)%Z then Raise RuntimeError
  else
    let '(w, g1) := fresh_weight g outf inf in
    let '(b, g2) := fresh_bias g1 outf in
    let '(l, h1) := alloc w h in
    Ok ({| in_features := inf; out_features := outf; weight := l;
           bias := Some b; sigma := None |}, h1, g2).

(** [CosineLayer(in_features, out_features)] *)
Definition CosineLayer (h : Store) (g : Rng) (inf outf : Z)
    : result (Head * Store * Rng) :=
  if (outf <? 0)%Z then Raise RuntimeError
  else
    let '(w, g1) := fresh_weight g outf inf in
    let '(sg, g2) := fresh_sigma g1 in
    let '(l, h1) := alloc w h in
    Ok ({| in_features := inf; out_features := outf; weight := l;
           bias := None; sigma := Some sg |}, h1, g2).

(** [copy.deepcopy(net)]: every parameter object is duplicated. *)
Definition deepcopy (h : Store) (n : Net) : Net * Store :=
  let '(l, h1) := alloc (read h (weight (fc n))) h in
  ({| body := body n;
      fc := {| in_features := in_features (fc n);
               out_features := out_features (fc n);
               weight := l;
               bias := bias (fc n);
               sigma := sigma (fc n) |} |}, h1).

(** The parameter values of a network, read through the store. *)
Definition learnable (h : Store) (n : Net) : Learnable Backbone :=
  {| l_body := body n;
     l_weight := read h (weight (fc n));
     l_bias := bias (fc n);
     l_sigma := sigma (fc n) |}.

(** An optimiser step updates the parameters in place: the weight
    object keeps its identity and receives the new values. *)
Definition update_in_place (h : Store) (n : Net) (v : Learnable Backbone)
    : Net * Store :=
  ({| body := l_body v;
      fc := {| in_features := in_features (fc n);
               out_features := out_features (fc n);
               weight := weight (fc n);
               bias := l_bias v;
               sigma := l_sigma v |} |},
   write (weight (fc n)) (l_weight v) h).

(** The attributes fixed by [__init__]. *)
Record Config : Type := {
  num_classes : Z;
  num_groups : Z;
  classes_per_group : Z;
  train_params : TrainParams;
  approach_params : ApproachParams;
  use_cosine : bool;
  splitter : list (list Z);
  init_weights : loc;
  loss_criterion : Loss;
  use_distillation : bool;
  use_variation : bool;
  use_exemplars : bool;
  ft_loss_criterion : option Loss;
  K : Z
}.

(** The learner object, together with the tensor store and the states of
    the two random generators ([torch] and [random]). *)
Record Session : Type := {
  self : Config;
  net : Net;
  optimizer : OptState;
  prev_net : option Net;
  ft_net : option Net;
  ft_optimizer : option OptState;
  exemplars : option (list (list (Image * Z)));
  current_step : Z;
  n_known_classes : Z;
  heap : Store;
  torch_rng : Rng;
  py_rng : Rng
}.

Coercion self : Session >-> Config.

Definition set_counters (cs nk : Z) (s : Session) : Session :=
  {| self := self s; net := net s; optimizer := optimizer s;
     prev_net := prev_net s; ft_net := ft_net s;
     ft_optimizer := ft_optimizer s; exemplars := exemplars s;
     current_step := cs; n_known_classes := nk;
     heap := heap s; torch_rng := torch_rng s; py_rng := py_rng s |}.

Definition set_net (n : Net) (o : OptState) (h : Store) (g : Rng)
    (s : Session) : Session :=
  {| self := self s; net := n; optimizer := o;
     prev_net := prev_net s; ft_net := ft_net s;
     ft_optimizer := ft_optimizer s; exemplars := exemplars s;
     current_step := current_step s; n_known_classes := n_known_classes s;
     heap := h; torch_rng := g; py_rng := py_rng s |}.

Definition set_prev_net (p : option Net) (h : Store) (s : Session)
    : Session :=
  {| self := self s; net := net s; optimizer := optimizer s;
     prev_net := p; ft_net := ft_net s;
     ft_optimizer := ft_optimizer s; exemplars := exemplars s;
     current_step := current_step s; n_known_classes := n_known_classes s;
     heap := h; torch_rng := torch_rng s; py_rng := py_rng s |}.

Definition set_ft (f : option Net) (o : option OptState) (h : Store)
    (s : Session) : Session :=
  {| self := self s; net := net s; optimizer := optimizer s;
     prev_net := prev_net s; ft_net := f;
     ft_optimizer := o; exemplars := exemplars s;
     current_step := current_step s; n_known_classes := n_known_classes s;
     heap := h; torch_rng := torch_rng s; py_rng := py_rng s |}.

Definition set_optimizer (o : OptState) (s : Session) : Session :=
  set_net (net s) o (heap s) (torch_rng s) s.

Definition set_exemplars (e : list (list (Image * Z))) (g : Rng)
    (s : Session) : Session :=
  {| self := self s; net := net s; optimizer := optimizer s;
     prev_net := prev_net s; ft_net := ft_net s;
     ft_optimizer := ft_optimizer s; exemplars := Some e;
     current_step := current_step s; n_known_classes := n_known_classes s;
     heap := heap s; torch_rng := torch_rng s; py_rng := g |}.

(** *** [__init__] *)

Definition init (num_classes num_groups : Z) (splitter_seed : Seed)
    (approach_params : ApproachParams) (train_params : TrainParams)
    (g0 r0 : Rng) : result Session :=
  cpg <- Py.floordiv num_classes num_groups ;;
  let use_cosine := ap_use_cosine approach_params in
  labels_split <- LabelsSplitter num_classes num_groups splitter_seed ;;
  let '(bb, width) := if use_cosine then cosine_resnet32 else resnet32 in
  '(head, h1, g1) <-
    (if use_cosine then CosineLayer empty_store g0 width cpg
     else nn_Linear empty_store g0 width cpg) ;;
  (* kaiming_normal_ fills the head's weight in place and returns that
     same object, which [init_weights] then names. *)
  let '(w0, g2) := kaiming_normal g1 cpg width in
  let h2 := write (weight head) w0 h1 in
  let use_distillation := ap_use_distillation approach_params in
  let use_variation :=
    use_distillation && ap_use_variation approach_params in
  let use_exemplars := ap_use_exemplars approach_params in
  Ok {| self :=
          {| num_classes := num_classes;
             num_groups := num_groups;
             classes_per_group := cpg;
             train_params := train_params;
             approach_params := approach_params;
             use_cosine := use_cosine;
             splitter := labels_split;
             init_weights := weight head;
             loss_criterion :=
               CustomizedLoss (classification_loss approach_params)
                              (distillation_loss approach_params);
             use_distillation := use_distillation;
             use_variation := use_variation;
             use_exemplars := use_exemplars;
             ft_loss_criterion :=
               if use_distillation && use_variation
               then Some (CustomizedLoss
                            (classification_loss approach_params) None)
               else None;
             K := if use_exemplars then n_exemplars approach_params
                  else 0%Z |};
        net := {| body := bb; fc := head |};
        optimizer := SGD train_params;
        prev_net := None;
        ft_net := None;
        ft_optimizer := None;
        exemplars := if use_exemplars then Some [] else None;
        current_step := (-1)%Z;
        n_known_classes := 0%Z;
        heap := h2;
        torch_rng := g2;
        py_rng := r0 |}.

(** *** [step] *)

Definition step (s : Session) : Session :=
  set_counters (current_step s + 1)%Z
               (n_known_classes s + classes_per_group s)%Z s.

(** *** [update_nets] *)

(** The rows appended to the old weights by a head growth: the current
    contents of the object named by [init_weights]. *)
Definition appended_rows (s : Session) : Matrix :=
  read (heap s) (init_weights s).

Definition update_nets (s : Session) : result Session :=
  if (current_step s >? 0)%Z then
    let s1 :=
      if use_distillation s then
        let '(p, h) := deepcopy (heap s) (net s) in
        set_prev_net (Some p) h s
      else s in
    let old_weights := read (heap s1) (weight (fc (net s1))) in
    let grown := cat old_weights (read (heap s1) (init_weights s1)) in
    '(head, h2, g2) <-
      (if negb (use_cosine s1) then
         '(hd, h, g) <- nn_Linear (heap s1) (torch_rng s1)
                          (in_features (fc (net s1)))
                          (n_known_classes s1) ;;
         Ok (hd, write (weight hd) grown h, g)
       else
         let prev_sigma := sigma (fc (net s1)) in
         '(hd, h, g) <- CosineLayer (heap s1) (torch_rng s1)
                          (in_features (fc (net s1)))
                          (n_known_classes s1) ;;
         Ok ({| in_features := in_features hd;
                out_features := out_features hd;
                weight := weight hd;
                bias := bias hd;
                sigma := prev_sigma |},
             write (weight hd) grown h, g)) ;;
    let s2 := set_net {| body := body (net s1); fc := head |}
                      (SGD (train_params s1)) h2 g2 s1 in
    if use_variation s2 then
      let '(f, h) := deepcopy (heap s2) (net s2) in
      Ok (set_ft (Some f) (Some (SGD (train_params s2))) h s2)
    else Ok s2
  else Ok s.

(** *** [train] *)

(** [a / b] on numbers: true division. *)
Definition truediv (a b : Z) : result R :=
  if (b =? 0)%Z then Raise ZeroDivisionError
  else Ok (IZR a / IZR b)%R.

(** Calling a network attribute that still holds [None]. *)
Definition call_net (n : option Net) : result Net :=
  match n with
  | Some x => Ok x
  | None => Raise TypeError
  end.

(** [n.cuda()] on a network attribute that still holds [None]. *)
Definition cuda (n : option Net) : result Net :=
  match n with
  | Some x => Ok x
  | None => Raise AttributeError
  end.

(** Inputs and targets of the classification and distillation losses
    for one batch: [labels] are the one-hot labels, [output] and
    [features] the main network's logits and penultimate features. *)
Definition batch_signals (s : Session) (images : list Image)
    (labels output features : Matrix) : result Signals :=
  let n_new_classes := classes_per_group s in
  let class_input := output in
  let class_target := labels in
  if use_distillation s && (current_step s >? 0)%Z then
    '(class_input, class_target) <-
      (if negb (use_cosine s) then
         let class_input := last_cols n_new_classes class_input in
         if use_variation s then
           ft <- call_net (ft_net s) ;;
           let ft_output :=
             fst (forward false (learnable (heap s) ft) images) in
           Ok (class_input, last_cols n_new_classes ft_output)
         else
           Ok (class_input, last_cols n_new_classes class_target)
       else Ok (class_input, class_target)) ;;
    prev <- call_net (prev_net s) ;;
    let '(prev_output, prev_features) :=
      forward false (learnable (heap s) prev) images in
    if use_cosine s then
      Ok {| class_input := class_input; class_target := class_target;
            dist_input := Some features;
            dist_target := Some prev_features |}
    else
      Ok {| class_input := class_input; class_target := class_target;
            dist_input := Some (drop_last_cols n_new_classes output);
            dist_target := Some prev_output |}
  else
    Ok {| class_input := class_input; class_target := class_target;
          dist_input := None; dist_target := None |}.

Definition train_batch (class_ratio : R) (batch : list Image * list Z)
    (s : Session) : result Session :=
  let '(images, labels) := batch in
  let labels := transform_labels_onehot labels (n_known_classes s) in
  let params := learnable (heap s) (net s) in
  let '(output, features) := forward true params images in
  sig <- batch_signals s images labels output features ;;
  let '(o, v) :=
    sgd_step (optimizer s) (loss_criterion s) params images sig
             class_ratio in
  let '(n, h) := update_in_place (heap s) (net s) v in
  Ok (set_net n o h (torch_rng s) s).

Definition train_epoch (class_ratio : R)
    (dataloader : list (list Image * list Z)) (s : Session)
    : result Session :=
  s' <- for_each dataloader (train_batch class_ratio) s ;;
  Ok (set_optimizer (scheduler_step (optimizer s')) s').

Definition train (dataloader : list (list Image * list Z)) (s : Session)
    : result Session :=
  let n_new_classes := classes_per_group s in
  class_ratio <- truediv n_new_classes (n_known_classes s) ;;
  _ <- (if (current_step s >? 0)%Z then
          if use_distillation s then
            _ <- cuda (prev_net s) ;;
            if use_variation s then cuda (ft_net s) else Ok (net s)
          else Ok (net s)
        else Ok (net s)) ;;
  repeat_m (Py.range_len (NUM_EPOCHS (train_params s)))
           (train_epoch class_ratio dataloader) s.

(** *** [train_ft] *)

Definition train_ft_batch (batch : list Image * list Z) (s : Session)
    : result Session :=
  let '(images, labels) := batch in
  let labels := transform_labels_onehot labels (n_known_classes s) in
  ft <- call_net (ft_net s) ;;
  opt <- match ft_optimizer s with
         | Some o => Ok o
         | None => Raise AttributeError
         end ;;
  crit <- match ft_loss_criterion s with
          | Some c => Ok c
          | None => Raise AttributeError
          end ;;
  let params := learnable (heap s) ft in
  let output := fst (forward true params images) in
  let sig := {| class_input := output; class_target := labels;
                dist_input := None; dist_target := None |} in
  let '(o, v) := sgd_step opt crit params images sig 1%R in
  let '(n, h) := update_in_place (heap s) ft v in
  Ok (set_ft (Some n) (Some o) h s).

Definition train_ft_epoch (dataloader : list (list Image * list Z))
    (s : Session) : result Session :=
  s' <- for_each dataloader train_ft_batch s ;;
  match ft_optimizer s' with
  | Some o => Ok (set_ft (ft_net s') (Some (scheduler_step o)) (heap s') s')
  | None => Raise AttributeError
  end.

Definition train_ft (dataloader : list (list Image * list Z))
    (s : Session) : result Session :=
  if use_variation s then
    _ <- cuda (ft_net s) ;;
    repeat_m (Py.range_len (NUM_EPOCHS (train_params s)))
             (train_ft_epoch dataloader) s
  else Ok s.

(** *** [update_exemplars] *)

(** [self.exemplars[i] = self.exemplars[i][:m]] for the old classes. *)
Definition reduce_exemplars (m : Z) (n_old_classes : Z)
    (exs : list (list (Image * Z))) : result (list (list (Image * Z))) :=
  for_each (seq 0 (Py.range_len n_old_classes))
           (fun i e => x <- Py.getitem e i ;;
                       Py.setitem e i (Py.slice_to m x))
           exs.

(** The body of [for label in new_labels], on the exemplar list and the
    state of the [random] generator. *)
Definition add_class (s : Session) (m : Z) (label : Z)
    (st : list (list (Image * Z)) * Rng)
    : result (list (list (Image * Z)) * Rng) :=
  let '(exs, g) := st in
  let dataset := SubCIFAR (splitter s) label in
  dataloader <- DataLoader dataset (BATCH_SIZE (train_params s)) ;;
  let d := in_features (fc (net s)) in
  '(features, label_mean) <-
    get_features_representation
      d (features_of (learnable (heap s) (net s))) dataloader ;;
  let num_exemplars := Z.min m (Z.of_nat (length dataset)) in
  '(idx_taken, g') <-
    match exemplars_selection (approach_params s) with
    | herding =>
        taken <- herding_select d num_exemplars label_mean features ;;
        Ok (taken, g)
    | random =>
        if (num_exemplars <? 0)%Z then Raise ValueError
        else Ok (random_sample g (length dataset)
                               (Z.to_nat num_exemplars))
    end ;;
  exemplar_set <- map_m (Py.getitem dataset) idx_taken ;;
  Ok (exs ++ [exemplar_set], g').

Definition update_exemplars (s : Session) : result Session :=
  if use_exemplars s then
    m <- Py.floordiv (K s) (n_known_classes s) ;;
    let n_old_classes :=
      (n_known_classes s - classes_per_group s)%Z in
    new_labels <- Py.getitem_z (splitter s) (current_step s) ;;
    exs <- match exemplars s with
           | Some e => Ok e
           | None => Raise TypeError
           end ;;
    exs <- (if (current_step s >? 0)%Z
            then reduce_exemplars m n_old_classes exs
            else Ok exs) ;;
    '(exs, g) <- for_each new_labels (add_class s m) (exs, py_rng s) ;;
    Ok (set_exemplars exs g s)
  else Ok s.

(** The number of exemplars stored over all classes. *)
Definition total_exemplars (exs : list (list (Image * Z))) : Z :=
  Z.of_nat (length (concat exs)).

(** *** Sessions as sequences of method calls *)

Inductive Call : Type :=
| CStep
| CUpdateNets
| CTrain (dataloader : list (list Image * list Z))
| CTrainFt (dataloader : list (list Image * list Z))
| CUpdateExemplars.

Definition call (c : Call) (s : Session) : result Session :=
  match c with
  | CStep => Ok (step s)
  | CUpdateNets => update_nets s
  | CTrain dataloader => train dataloader s
  | CTrainFt dataloader => train_ft dataloader s
  | CUpdateExemplars => update_exemplars s
  end.

Definition run (calls : list Call) (s : Session) : result Session :=
  for_each calls call s.

Definition count_steps (calls : list Call) : nat :=
  length (filter (fun c => match c with CStep => true | _ => false end)
                 calls).

(** The weight matrix of the main network's head. *)
Definition head_weight (s : Session) : Matrix :=
  read (heap s) (weight (fc (net s))).

(** The rows of the head of [s'] that come after those of the head of
    [s]: the rows added when [update_nets] takes [s] to [s']. *)
Definition trailing_rows (s s' : Session) : Matrix :=
  skipn (length (head_weight s)) (head_weight s').

(** A run that also records, for every head growth it performs, the
    rows that the growth appended. *)
Fixpoint run_logged (calls : list Call) (s : Session)
    : result (Session * list Matrix) :=
  match calls with
  | [] => Ok (s, [])
  | c :: rest =>
      s1 <- call c s ;;
      '(s2, log) <- run_logged rest s1 ;;
      Ok (s2,
          match c with
          | CUpdateNets =>
              if (current_step s >? 0)%Z then trailing_rows s s1 :: log
              else log
          | _ => log
          end)
  end.

End Learner.

(** ** Columns of a batch, in the words of the specification *)

(** The last [n] columns of every row, and the columns before them. *)
Definition newest_columns (n : nat) (x : Matrix) : Matrix :=
  map (fun row => skipn (length row - n) row) x.

Definition older_columns (n : nat) (x : Matrix) : Matrix :=
  map (fun row => firstn (length row - n) row) x.

(** ** A small instance of the collaborators, for concrete sessions *)

Module Demo.

Definition constant_matrix (v : R) (rows cols : Z) : Matrix :=
  repeat (repeat v (Z.to_nat cols)) (Z.to_nat rows).

(** Groups of consecutive labels, [num_classes // num_groups] each. *)
Definition consecutive_groups (num_classes num_groups : Z)
    : list (list Z) :=
  let size := Z.to_nat (num_classes / num_groups) in
  map (fun g => map Z.of_nat (seq (g * size) size))
      (seq 0 (Z.to_nat num_groups)).

#[export] Instance collaborators : Collaborators := {|
  Image := nat;
  Backbone := unit;
  OptState := nat;
  Rng := nat;
  Seed := unit;
  resnet32 := (tt, 2%Z);
  cosine_resnet32 := (tt, 2%Z);
  fresh_weight := fun g r c => (constant_matrix 0 r c, S g);
  fresh_bias := fun g n => (repeat 0%R (Z.to_nat n), S g);
  fresh_sigma := fun g => ([1%R], S g);
  kaiming_normal := fun g r c => (constant_matrix (INR (S g)) r c, S g);
  LabelsSplitter := fun nc ng _ => Ok (consecutive_groups nc ng);
  forward := fun _ v images =>
    (map (fun _ => map vsum (l_weight v)) images,
     map (fun i => [INR i; 1%R]) images);
  features_of := fun _ i => [INR i; 1%R];
  transform_labels_onehot := fun labels n =>
    map (fun l => map (fun k => if (Z.of_nat k =? l)%Z then 1%R else 0%R)
                      (seq 0 (Z.to_nat n))) labels;
  SGD := fun _ => O;
  scheduler_step := S;
  sgd_step := fun o _ v _ _ _ =>
    (o, {| l_body := l_body v;
           l_weight := map (map (fun a => (a + 1)%R)) (l_weight v);
           l_bias := l_bias v; l_sigma := l_sigma v |});
  SubCIFAR := fun _ label => [(1%nat, label); (2%nat, label); (3%nat, label)];
  random_sample := fun g _ k => (seq 0 k, S g)
|}.

Definition approach : ApproachParams :=
  {| classification_loss := "bce";
     distillation_loss := Some "icarl"%string;
     ap_use_distillation := true;
     ap_use_variation := true;
     ap_use_exemplars := true;
     n_exemplars := 4%Z;
     ap_use_cosine := false;
     exemplars_selection := herding |}.

Definition plain : ApproachParams :=
  {| classification_loss := "bce";
     distillation_loss := None;
     ap_use_distillation := false;
     ap_use_variation := true;
     ap_use_exemplars := false;
     n_exemplars := 0%Z;
     ap_use_cosine := false;
     exemplars_selection := herding |}.

Definition training : TrainParams :=
  {| LR := 2; MOMENTUM := 9 / 10; WEIGHT_DECAY := / 100000;
     STEP_MILESTONES := [49%Z; 63%Z]; GAMMA := 2 / 10;
     NUM_EPOCHS := 1%Z; BATCH_SIZE := 2%Z |}.

End Demo.

(** ** Concrete sessions over the small instance *)

Module DemoRuns.

Import Demo.

Definition unwrap {A : Type} (d : A) (r : result A) : A :=
  match r with
  | Ok a => a
  | Raise _ => d
  end.

Definition blank : Session :=
  {| self := {| num_classes := 0; num_groups := 0; classes_per_group := 0;
                train_params := training; approach_params := approach;
                use_cosine := false; splitter := []; init_weights := 0%nat;
                loss_criterion := CustomizedLoss "bce" None;
                use_distillation := false; use_variation := false;
                use_exemplars := false; ft_loss_criterion := None;
                K := 0 |};
     net := {| body := tt;
               fc := {| in_features := 0; out_features := 0;
                        weight := 0%nat; bias := None; sigma := None |} |};
     optimizer := 0%nat; prev_net := None; ft_net := None;
     ft_optimizer := None; exemplars := None;
     current_step := 0; n_known_classes := 0;
     heap := empty_store; torch_rng := 0%nat; py_rng := 0%nat |}.

Definition batches : list (list (@Image collaborators) * list Z) :=
  [([1; 2]%nat, [0; 1]%Z); ([3]%nat, [1%Z])].

Definition construct (nc ng : Z) (ap : ApproachParams) : result Session :=
  init (C := collaborators) nc ng tt ap training 0%nat 0%nat.

(** Six classes in three groups, distillation with variation. *)
Definition fresh : Session :=
  Eval vm_compute in unwrap blank (construct 6 3 approach).

(** The same without distillation, the variation flag still set. *)
Definition fresh_plain : Session :=
  Eval vm_compute in unwrap blank (construct 6 3 plain).

Definition two_steps_plain : list Call :=
  [CStep; CUpdateNets; CTrain batches; CTrainFt batches;
   CStep; CUpdateNets; CTrain batches].

Definition after_plain : Session :=
  Eval vm_compute in unwrap blank (run two_steps_plain fresh_plain).

(** One trained step, then the second step entered. *)
Definition second_step : list Call := [CStep; CTrain batches; CStep].

Definition before_growth : Session :=
  Eval vm_compute in unwrap blank (run second_step fresh).

Definition second_step_grown : list Call :=
  [CStep; CTrain batches; CStep; CUpdateNets].

Definition after_growth : Session :=
  Eval vm_compute in unwrap blank (run second_step_grown fresh).

(** Three steps with two head growths. *)
Definition three_steps : list Call :=
  [CStep; CTrain batches; CStep; CUpdateNets; CTrain batches;
   CStep; CUpdateNets].

Definition after_three : Session * list Matrix :=
  Eval vm_compute in unwrap (blank, []) (run_logged three_steps fresh).

(** Exemplars drawn by the random policy, capacity four. *)
Definition approach_random : ApproachParams :=
  {| classification_loss := "bce";
     distillation_loss := Some "icarl"%string;
     ap_use_distillation := true;
     ap_use_variation := false;
     ap_use_exemplars := true;
     n_exemplars := 4%Z;
     ap_use_cosine := false;
     exemplars_selection := random |}.

Definition fresh_random : Session :=
  Eval vm_compute in unwrap blank (construct 6 3 approach_random).

Definition stored (s : Session) : list (list (@Image collaborators * Z)) :=
  match exemplars s with
  | Some e => e
  | None => []
  end.

(** After the exemplar update of the first step: second step entered. *)
Definition entering_second : Session :=
  Eval vm_compute in
    unwrap blank (run [CStep; CUpdateExemplars; CStep] fresh_random).

Definition stored_second : list (list (@Image collaborators * Z)) :=
  Eval vm_compute in stored entering_second.

(** After the exemplar update of the second step: third step entered. *)
Definition entering_third : Session :=
  Eval vm_compute in
    unwrap blank (run [CStep; CUpdateExemplars; CStep; CUpdateExemplars;
                       CStep] fresh_random).

Definition stored_third : list (list (@Image collaborators * Z)) :=
  Eval vm_compute in stored entering_third.

End DemoRuns.

(** ** More concrete sessions *)

Module DemoMore.

Import Demo DemoRuns.

(** The first step entered, nothing else done. *)
Definition first_step : Session :=
  Eval vm_compute in unwrap blank (run [CStep] fresh).

(** The exemplar update of the second step, done. *)
Definition after_second_update : Session :=
  Eval vm_compute in unwrap blank (update_exemplars entering_second).

(** Training parameters with a batch size that no loader accepts. *)
Definition training_unbatched : TrainParams :=
  {| LR := 2; MOMENTUM := 9 / 10; WEIGHT_DECAY := / 100000;
     STEP_MILESTONES := [49%Z; 63%Z]; GAMMA := 2 / 10;
     NUM_EPOCHS := 1%Z; BATCH_SIZE := 0%Z |}.

Definition entering_unbatched : Session :=
  Eval vm_compute in
    unwrap blank
      (s0 <- init (C := collaborators) 6 3 tt approach_random
                  training_unbatched 0%nat 0%nat ;;
       run [CStep] s0).

(** Four steps in a session of three groups. *)
Definition four_steps : list Call := [CStep; CStep; CStep; CStep].

Definition past_last_group : Session :=
  Eval vm_compute in unwrap blank (run four_steps fresh_random).

(** Two steps without an exemplar update in between. *)
Definition two_bare_steps : list Call := [CStep; CStep].

Definition update_skipped : Session :=
  Eval vm_compute in unwrap blank (run two_bare_steps fresh_random).

(** Two whole steps in protocol order. *)
Definition two_steps_in_order : list Call :=
  [CStep; CUpdateNets; CTrain batches; CUpdateExemplars;
   CStep; CUpdateNets; CTrain batches; CUpdateExemplars].

Definition after_two_steps : Session :=
  Eval vm_compute in unwrap blank (run two_steps_in_order fresh_random).

End DemoMore.

(** ** The label splitter as the spec describes it *)

(** The class set, [range(num_classes)]. *)
Definition class_set (num_classes : Z) : list Z :=
  map Z.of_nat (seq 0 (Z.to_nat num_classes)).

(** Modelled from the spec: the class [LabelsSplitter] of
    [data_handler/LabelsSplitter.py], which is missing from the sources.
    The spec says that it "deterministically partitions the total class
    set into ordered groups of equal size using a seeded permutation".
    [labels_partition] tells whether a list of groups is such a
    partition of [num_classes] classes into [num_groups] groups: the
    number of groups is right, the groups have one size, there are as
    many labels as classes and every class is in some group. *)
Definition labels_partition (num_classes num_groups : Z)
    (labels_split : list (list Z)) : bool :=
  (Z.of_nat (length labels_split) =? num_groups)%Z
  && match labels_split with
     | [] => true
     | first :: _ =>
         forallb (fun group => (length group =? length first)%nat)
                 labels_split
     end
  && (Z.of_nat (length (concat labels_split)) =? num_classes)%Z
  && forallb (fun c => existsb (Z.eqb c) (concat labels_split))
             (class_set num_classes).

Module DemoSplit.

Import Demo.

(** A splitter that returns consecutive groups when they partition the
    class set and raises otherwise. *)
Definition checked_groups (num_classes num_groups : Z)
    : result (list (list Z)) :=
  let labels_split := consecutive_groups num_classes num_groups in
  if labels_partition num_classes num_groups labels_split
  then Ok labels_split
  else Raise ValueError.

(** The collaborators of [Demo], with the checked splitter. *)
Definition collaborators : Collaborators := {|
  Image := nat;
  Backbone := unit;
  OptState := nat;
  Rng := nat;
  Seed := unit;
  resnet32 := @resnet32 Demo.collaborators;
  cosine_resnet32 := @cosine_resnet32 Demo.collaborators;
  fresh_weight := @fresh_weight Demo.collaborators;
  fresh_bias := @fresh_bias Demo.collaborators;
  fresh_sigma := @fresh_sigma Demo.collaborators;
  kaiming_normal := @kaiming_normal Demo.collaborators;
  LabelsSplitter := fun nc ng _ => checked_groups nc ng;
  forward := @forward Demo.collaborators;
  features_of := @features_of Demo.collaborators;
  transform_labels_onehot := @transform_labels_onehot Demo.collaborators;
  SGD := @SGD Demo.collaborators;
  scheduler_step := @scheduler_step Demo.collaborators;
  sgd_step := @sgd_step Demo.collaborators;
  SubCIFAR := @SubCIFAR Demo.collaborators;
  random_sample := @random_sample Demo.collaborators
|}.

End DemoSplit.

Module DemoRepeat.

Import Demo DemoRuns.

(** One step with its exemplar update, and the update called again. *)
Definition updated_once : Session :=
  Eval vm_compute in
    unwrap blank (run [CStep; CUpdateExemplars] fresh_random).

Definition updated_twice : Session :=
  Eval vm_compute in unwrap blank (update_exemplars updated_once).

Definition stored_twice : list (list (@Image Demo.collaborators * Z)) :=
  Eval vm_compute in stored updated_twice.

(** Capacity three, random policy. *)
Definition approach_three : ApproachParams :=
  {| classification_loss := "bce";
     distillation_loss := Some "icarl"%string;
     ap_use_distillation := true;
     ap_use_variation := false;
     ap_use_exemplars := true;
     n_exemplars := 3%Z;
     ap_use_cosine := false;
     exemplars_selection := random |}.

Definition fresh_three : Session :=
  Eval vm_compute in unwrap blank (construct 6 3 approach_three).

(** The update called twice in the first step; second step entered. *)
Definition repeated_then_stepped : Session :=
  Eval vm_compute in
    unwrap blank
      (run [CStep; CUpdateExemplars; CUpdateExemplars; CStep] fresh_three).

Definition after_zero_quota : Session :=
  Eval vm_compute in
    unwrap blank (update_exemplars repeated_then_stepped).

Definition stored_zero_quota
    : list (list (@Image Demo.collaborators * Z)) :=
  Eval vm_compute in stored after_zero_quota.

End DemoRepeat.

(** ** [params.py] *)

(** The values held by the approach dictionaries. *)
Inductive value : Set :=
| VNone
| VBool (b : bool)
| VInt (z : Z)
| VStr (s : string).

(** A dictionary with string keys, in insertion order; [dict_get] is
    [d[k]], with [None] standing for [KeyError]. *)
Definition dict : Set := list (string * value).

Fixpoint dict_get (d : dict) (k : string) : option value :=
  match d with
  | [] => None
  | (k', v) :: rest => if String.eqb k' k then Some v else dict_get rest k
  end.

(** [train_params_base], without the two torchvision pipelines. *)
Definition train_params_base : TrainParams :=
  {| LR := 2; MOMENTUM := 9 / 10; WEIGHT_DECAY := / 100000;
     STEP_MILESTONES := [49%Z; 63%Z]; GAMMA := 2 / 10;
     NUM_EPOCHS := 70%Z; BATCH_SIZE := 128%Z |}.

Definition approach_params_finetuning : dict :=
  [("classification_loss", VStr "bce");
   ("distillation_loss", VNone);
   ("use_distillation", VBool false);
   ("use_variation", VBool false);
   ("use_exemplars", VBool false);
   ("n_exemplars", VInt 0)]%string.

Definition approach_params_lwf : dict :=
  [("classification_loss", VStr "bce");
   ("distillation_loss", VStr "icarl");
   ("use_distillation", VBool false);
   ("use_variation", VBool false);
   ("use_exemplars", VBool false);
   ("n_exemplars", VInt 0)]%string.

Definition approach_params_icarl : dict :=
  [("classification_loss", VStr "bce");
   ("distillation_loss", VStr "icarl");
   ("use_distillation", VBool true);
   ("use_variation", VBool false);
   ("use_exemplars", VBool true);
   ("n_exemplars", VInt 2000)]%string.

Definition approach_params_variation : dict :=
  [("classification_loss", VStr "bce");
   ("distillation_loss", VStr "icarl");
   ("use_distillation", VBool true);
   ("use_variation", VBool true);
   ("use_exemplars", VBool true);
   ("n_exemplars", VInt 2000)]%string.

Definition get_params (method : string) : TrainParams * dict :=
  if String.eqb method "FINETUNING" then
    (train_params_base, approach_params_finetuning)
  else if String.eqb method "LWF" then
    (train_params_base, approach_params_lwf)
  else if String.eqb method "ICARL" then
    (train_params_base, approach_params_icarl)
  else (train_params_base, approach_params_variation).

(** The keys of the approach dictionary that [IncrementalLearner] reads:
    in [__init__] and, for the selection policy, in [update_exemplars]. *)
Definition keys_read_by_learner : list string :=
  ["use_cosine"; "classification_loss"; "distillation_loss";
   "use_distillation"; "use_variation"; "use_exemplars"; "n_exemplars";
   "exemplars_selection"]%string.

(** * Predicates used by the properties *)

Unset Implicit Arguments.

Section FeaturePredicates.

Local Open Scope R_scope.

(** The distances computed by [get_closest_exemplar_idx], before the
    taken positions are masked. *)
Definition raw_distances (label_mean : Vec) (features : Matrix) : list R :=
  map (fun f => vsum (map (fun a => a ^ 2) (vsub label_mean f)))
      (F_normalize features).

(** The per-batch feature tensors of a class. *)
Definition batch_features_of {I : Type} (feat : I -> Vec)
    (dataloader : list (list (I * Z))) : list Matrix :=
  map (fun batch => map (fun x => feat (fst x)) batch) dataloader.

(** The number added to every component of [mean] by the loop. *)
Definition summed_entries {I : Type} (feat : I -> Vec)
    (dataloader : list (list (I * Z))) : R :=
  vsum (map sum_all (batch_features_of feat dataloader)).

End FeaturePredicates.

Section SessionPredicates.

Context {C : Collaborators}.

Definition net_loc (s : Session) : loc := weight (fc (net s)).

Definition ft_loc (s : Session) : option loc :=
  option_map (fun n => weight (fc n)) (ft_net s).

(** [effect L s s']: from [s] to [s'] the configuration, the counters
    and the identity of the parameter objects are kept, nothing is
    allocated, and only objects in [L] are written. *)
Record effect (L : loc -> Prop) (s s' : Session) : Prop := {
  eff_self : self s' = self s;
  eff_step : current_step s' = current_step s;
  eff_known : n_known_classes s' = n_known_classes s;
  eff_net : net_loc s' = net_loc s;
  eff_ft : ft_loc s' = ft_loc s;
  eff_next : next (heap s') = next (heap s);
  eff_read : forall l, ~ L l -> read (heap s') l = read (heap s) l
}.

(** Sessions whose parameter objects are allocated, whose fine-tuned model
    does not share [init_weights], and whose counters agree. *)
Record wf (s : Session) : Prop := {
  wf_net : (net_loc s < next (heap s))%nat;
  wf_init : (init_weights s < next (heap s))%nat;
  wf_ft : forall l, ft_loc s = Some l -> l <> init_weights s;
  wf_cpg : (0 <= classes_per_group s)%Z;
  wf_step : (-1 <= current_step s)%Z;
  wf_known :
    n_known_classes s = ((current_step s + 1) * classes_per_group s)%Z
}.

(** The head no longer shares its weight object with [init_weights]. *)
Definition detached (s : Session) : Prop := net_loc s <> init_weights s.

(** What [random.sample(range(n), k)] promises for [k <= n]. *)
Definition sample_contract : Prop :=
  forall (g : Rng) (n k : nat),
    (k <= n)%nat ->
    length (fst (random_sample g n k)) = k
    /\ Forall (fun i => (i < n)%nat) (fst (random_sample g n k)).

(** The data of a class can be loaded: positive batch size, some sample. *)
Definition loadable (s : Session) (label : Z) : Prop :=
  (0 < BATCH_SIZE (train_params s))%Z
  /\ SubCIFAR (splitter s) label <> [].

(** The state in which the protocol calls [update_exemplars]: after
    [step], with one stored list per old class and the labels of the
    current group. *)
Record in_step (s : Session) (e : list (list (Image * Z)))
    (labels : list Z) : Prop := {
  is_enabled : use_exemplars s = true;
  is_stored : exemplars s = Some e;
  is_started : (0 <= current_step s)%Z;
  is_groups : (0 < classes_per_group s)%Z;
  is_known :
    n_known_classes s = ((current_step s + 1) * classes_per_group s)%Z;
  is_old : Z.of_nat (length e) = (current_step s * classes_per_group s)%Z;
  is_capacity : (0 <= K s)%Z;
  is_labels :
    nth_error (splitter s) (Z.to_nat (current_step s)) = Some labels;
  is_size : Z.of_nat (length labels) = classes_per_group s
}.

End SessionPredicates.

Section ProtocolPredicates.

Context {C : Collaborators}.

(** What [train] needs: a non-zero class count and, past the first step
    with distillation, the snapshot and (under variation) the fine-tuned
    model. *)
Definition nets_ready (s : Session) : Prop :=
  n_known_classes s <> 0%Z
  /\ (use_distillation s = true -> (current_step s > 0)%Z ->
      exists p, prev_net s = Some p)
  /\ (use_distillation s = true -> use_variation s = true ->
      (current_step s > 0)%Z -> exists f, ft_net s = Some f).

(** The list stored for one new class. *)
Definition drawn_from (s : Session) (m : Z) (label : Z)
    (set : list (Image * Z)) : Prop :=
  incl set (SubCIFAR (splitter s) label)
  /\ Z.of_nat (length set)
     = Z.min m (Z.of_nat (length (SubCIFAR (splitter s) label))).

(** The order of calls that the exemplar memory relies on: every [step]
    is followed by exactly one [update_exemplars] before the next
    [step]; the other methods may come anywhere.  [pending] tells
    whether a step still waits for its exemplar update. *)
Fixpoint protocol_order (pending : bool) (calls : list Call) : bool :=
  match calls with
  | [] => true
  | CStep :: rest => negb pending && protocol_order true rest
  | CUpdateExemplars :: rest => pending && protocol_order false rest
  | _ :: rest => protocol_order pending rest
  end.

(** The memory between the calls of a session in protocol order. *)
Definition memory_in_order (pending : bool) (s : Session) : Prop :=
  use_exemplars s = true
  /\ (0 < classes_per_group s)%Z
  /\ (0 <= K s)%Z
  /\ (-1 <= current_step s)%Z
  /\ n_known_classes s = ((current_step s + 1) * classes_per_group s)%Z
  /\ (pending = true -> (0 <= current_step s)%Z)
  /\ exists e,
       exemplars s = Some e
       /\ (total_exemplars e <= K s)%Z
       /\ Z.of_nat (length e)
          = ((if pending then current_step s else current_step s + 1)
             * classes_per_group s)%Z.

End ProtocolPredicates.

Section SplitterPredicates.

Context {C : Collaborators}.


End SplitterPredicates.

(** * Properties *)

Ltac eqb_cases :=
  repeat match goal with
    | |- context [Nat.eqb ?a ?b] => destruct (Nat.eqb_spec a b); try lia
    end.

(** ** Loops, slices and the store *)

Lemma bind_ok {A B : Type} (r : result A) (k : A -> result B) (b : B) :
  bind r k = Ok b -> exists a, r = Ok a /\ k a = Ok b.
Proof.
  destruct r as [a|e]; simpl; intros H; [eauto | discriminate].
Qed.

Ltac inv_bind H :=
  let a := fresh "a" in
  let Ha := fresh "Ha" in
  apply bind_ok in H; destruct H as [a [Ha H]].

Lemma for_each_preserves {A S : Type} (P : S -> Prop)
    (body : A -> S -> result S) (xs : list A) :
  (forall x s s', body x s = Ok s' -> P s -> P s') ->
  forall s s', for_each xs body s = Ok s' -> P s -> P s'.
Proof.
  intros Hbody. induction xs as [|x rest IH]; simpl; intros s s' H Hs.
  - injection H as <-. exact Hs.
  - inv_bind H. eauto.
Qed.

Lemma repeat_m_preserves {S : Type} (P : S -> Prop)
    (body : S -> result S) (n : nat) :
  (forall s s', body s = Ok s' -> P s -> P s') ->
  forall s s', repeat_m n body s = Ok s' -> P s -> P s'.
Proof.
  intros Hbody. induction n as [|k IH]; simpl; intros s s' H Hs.
  - injection H as <-. exact Hs.
  - inv_bind H. eauto.
Qed.

Lemma slice_from_neg {A : Type} (n : Z) (l : list A) :
  (0 < n)%Z ->
  Py.slice_from (- n) l = skipn (length l - Z.to_nat n) l.
Proof.
  intros Hn. unfold Py.slice_from, Py.clamp.
  destruct (Z.ltb_spec (- n) 0); [|lia].
  f_equal. lia.
Qed.

Lemma slice_to_neg {A : Type} (n : Z) (l : list A) :
  (0 < n)%Z ->
  Py.slice_to (- n) l = firstn (length l - Z.to_nat n) l.
Proof.
  intros Hn. unfold Py.slice_to, Py.clamp.
  destruct (Z.ltb_spec (- n) 0); [|lia].
  f_equal. lia.
Qed.

Lemma last_cols_newest (n : Z) (x : Matrix) :
  (0 < n)%Z -> last_cols n x = newest_columns (Z.to_nat n) x.
Proof.
  intros Hn. unfold last_cols, newest_columns.
  apply map_ext. intros row. now apply slice_from_neg.
Qed.

Lemma drop_last_cols_older (n : Z) (x : Matrix) :
  (0 < n)%Z -> drop_last_cols n x = older_columns (Z.to_nat n) x.
Proof.
  intros Hn. unfold drop_last_cols, older_columns.
  apply map_ext. intros row. now apply slice_to_neg.
Qed.

Section LearnerFacts.

Context {C : Collaborators}.

(** ** Construction *)

Lemma head_alloc_ok (cosine : bool) (h : Store) (g : Rng) (inf outf : Z) :
  (0 <= outf)%Z ->
  exists hd h' g',
    (if cosine then CosineLayer h g inf outf
     else nn_Linear h g inf outf) = Ok (hd, h', g')
    /\ weight hd = next h
    /\ next h' = S (next h)
    /\ in_features hd = inf
    /\ (forall l, l <> next h -> read h' l = read h l).
Proof.
  intros Hout.
  destruct cosine; unfold CosineLayer, nn_Linear;
    (destruct (Z.ltb_spec outf 0); [lia|]);
    destruct (fresh_weight g outf inf) as [w g1].
  - destruct (fresh_sigma g1) as [sg g2]. simpl.
    do 3 eexists. split; [reflexivity|]. simpl. repeat split; auto.
    intros l Hl. unfold read. simpl.
    destruct (Nat.eqb_spec l (next h)); congruence.
  - destruct (fresh_bias g1 outf) as [b g2]. simpl.
    do 3 eexists. split; [reflexivity|]. simpl. repeat split; auto.
    intros l Hl. unfold read. simpl.
    destruct (Nat.eqb_spec l (next h)); congruence.
Qed.

Lemma head_alloc_inv (cosine : bool) (h : Store) (g : Rng) (inf outf : Z)
    hd h' g' :
  (if cosine then CosineLayer h g inf outf
   else nn_Linear h g inf outf) = Ok (hd, h', g') ->
  (0 <= outf)%Z.
Proof.
  destruct cosine; unfold CosineLayer, nn_Linear;
    destruct (Z.ltb_spec outf 0); intros E; (discriminate || lia).
Qed.

(** What [__init__] returns when it returns. *)
Lemma init_ok nc ng seed ap tp g r s :
  init nc ng seed ap tp g r = Ok s ->
  ng <> 0%Z
  /\ classes_per_group s = (nc / ng)%Z
  /\ LabelsSplitter nc ng seed = Ok (splitter s)
  /\ use_distillation s = ap_use_distillation ap
  /\ use_variation s = (ap_use_distillation ap && ap_use_variation ap)
  /\ use_exemplars s = ap_use_exemplars ap
  /\ current_step s = (-1)%Z
  /\ n_known_classes s = 0%Z
  /\ ft_net s = None
  /\ init_weights s = weight (fc (net s))
  /\ (init_weights s < next (heap s))%nat
  /\ (0 <= classes_per_group s)%Z.
Proof.
  unfold init, Py.floordiv. intros H.
  destruct (Z.eqb_spec ng 0) as [|Hng]; [discriminate|]. simpl in H.
  inv_bind H.
  destruct (if ap_use_cosine ap then cosine_resnet32 else resnet32)
    as [bb width].
  inv_bind H. destruct a0 as [[hd h1] g1].
  pose proof (head_alloc_inv _ _ _ _ _ _ _ _ Ha0) as Hout.
  destruct (head_alloc_ok (ap_use_cosine ap) empty_store g width _ Hout)
    as (hd' & h' & g' & E & Hw & Hn & _).
  rewrite E in Ha0. injection Ha0 as -> -> ->.
  destruct (kaiming_normal g1 (nc / ng) width) as [w0 g2].
  injection H as <-. simpl.
  repeat split; auto. rewrite Hw, Hn. simpl. lia.
Qed.

(** When [__init__] returns: the number of groups is not zero, the
    splitter could be built and the head width is not negative. *)
Lemma init_total nc ng seed ap tp g r ls :
  ng <> 0%Z ->
  LabelsSplitter nc ng seed = Ok ls ->
  (0 <= nc / ng)%Z ->
  exists s, init nc ng seed ap tp g r = Ok s.
Proof.
  intros Hng Hls Hq. unfold init, Py.floordiv.
  destruct (Z.eqb_spec ng 0); [contradiction|]. simpl.
  rewrite Hls. simpl.
  destruct (if ap_use_cosine ap then cosine_resnet32 else resnet32)
    as [bb width].
  destruct (head_alloc_ok (ap_use_cosine ap) empty_store g width _ Hq)
    as (hd & h' & g' & E & _).
  rewrite E. simpl.
  destruct (kaiming_normal g' (nc / ng) width) as [w0 g2].
  eexists. reflexivity.
Qed.

(** ** What a method call may change *)

Lemma effect_refl L s : effect L s s.
Proof. now constructor. Qed.

Lemma effect_trans L s1 s2 s3 :
  effect L s1 s2 -> effect L s2 s3 -> effect L s1 s3.
Proof.
  intros [] []. constructor; try congruence.
  intros l Hl. rewrite eff_read1, eff_read0; auto.
Qed.

Lemma read_write_other h l l' v :
  l' <> l -> read (write l v h) l' = read h l'.
Proof.
  intros Hl. unfold read, write. simpl.
  destruct (Nat.eqb_spec l' l); congruence.
Qed.

Lemma read_write_same h l v : read (write l v h) l = v.
Proof. unfold read, write. simpl. now rewrite Nat.eqb_refl. Qed.

Lemma train_batch_effect ratio batch s s' :
  train_batch ratio batch s = Ok s' ->
  effect (eq (net_loc s)) s s' /\ ft_net s' = ft_net s.
Proof.
  unfold train_batch. destruct batch as [images labels].
  destruct (forward true _ images) as [output features].
  intros H. inv_bind H.
  destruct (sgd_step _ _ _ _ _ _) as [o v].
  unfold update_in_place in H. injection H as <-.
  split; [constructor|]; simpl; auto.
  intros l Hl. apply read_write_other. unfold net_loc in Hl. congruence.
Qed.

Lemma train_effect dataloader s s' :
  train dataloader s = Ok s' ->
  effect (eq (net_loc s)) s s' /\ ft_net s' = ft_net s.
Proof.
  unfold train. intros H. inv_bind H. inv_bind H.
  eapply (repeat_m_preserves
           (fun x => effect (eq (net_loc s)) s x /\ ft_net x = ft_net s));
    [|exact H|split; [apply effect_refl | reflexivity]].
  intros x x' Hep [Hx Hft]. unfold train_epoch in Hep. inv_bind Hep.
  injection Hep as <-.
  assert (effect (eq (net_loc s)) s a1 /\ ft_net a1 = ft_net s)
    as [Hea Hfa].
  { eapply (for_each_preserves
             (fun y => effect (eq (net_loc s)) s y /\ ft_net y = ft_net s));
      [|exact Ha1|now split].
    intros b y y' Hb [Hy Hfy].
    apply train_batch_effect in Hb. destruct Hb as [Hb Hfb].
    rewrite (eff_net _ _ _ Hy) in Hb.
    split; [eapply effect_trans; eauto | congruence]. }
  split; [|exact Hfa].
  eapply effect_trans; [exact Hea|].
  constructor; simpl; auto.
Qed.

Lemma train_ft_batch_effect batch s s' :
  train_ft_batch batch s = Ok s' ->
  effect (fun l => ft_loc s = Some l) s s' /\ net s' = net s.
Proof.
  unfold train_ft_batch. destruct batch as [images labels].
  intros H. inv_bind H. inv_bind H. inv_bind H.
  destruct (sgd_step _ _ _ _ _ _) as [o v].
  unfold update_in_place in H. injection H as <-.
  unfold call_net in Ha. destruct (ft_net s) as [f|] eqn:Ef;
    [injection Ha as <- | discriminate].
  split; [constructor|]; simpl; auto.
  - unfold ft_loc. simpl. now rewrite Ef.
  - intros l Hl. apply read_write_other.
    intros ->. apply Hl. unfold ft_loc. now rewrite Ef.
Qed.

Lemma train_ft_effect dataloader s s' :
  train_ft dataloader s = Ok s' ->
  effect (fun l => ft_loc s = Some l) s s' /\ net s' = net s
  /\ (use_variation s = false -> s' = s).
Proof.
  unfold train_ft. destruct (use_variation s).
  2:{ intros H. injection H as <-.
      repeat split; auto using effect_refl. }
  intros H. inv_bind H.
  enough (effect (fun l => ft_loc s = Some l) s s' /\ net s' = net s)
    as [? ?] by (split; [auto | split; [auto | discriminate]]).
  eapply (repeat_m_preserves
           (fun x => effect (fun l => ft_loc s = Some l) s x
                     /\ net x = net s));
    [|exact H|split; [apply effect_refl | reflexivity]].
  intros x x' Hep [Hx Hn]. unfold train_ft_epoch in Hep. inv_bind Hep.
  assert (effect (fun l => ft_loc s = Some l) s a0 /\ net a0 = net s)
    as [Ha' Hna].
  { eapply (for_each_preserves
             (fun y => effect (fun l => ft_loc s = Some l) s y
                       /\ net y = net s));
      [|exact Ha0|now split].
    intros b y y' Hb [Hy Hny].
    apply train_ft_batch_effect in Hb. destruct Hb as [Hb Hnb].
    rewrite (eff_ft _ _ _ Hy) in Hb.
    split; [eapply effect_trans; eauto | congruence]. }
  destruct (ft_optimizer a0); [|discriminate]. injection Hep as <-.
  split; [|exact Hna].
  eapply effect_trans; [exact Ha'|].
  constructor; simpl; auto.
Qed.

Lemma update_exemplars_effect s s' :
  update_exemplars s = Ok s' ->
  effect (fun _ => False) s s' /\ net s' = net s
  /\ ft_net s' = ft_net s /\ heap s' = heap s.
Proof.
  unfold update_exemplars. destruct (use_exemplars s).
  2:{ intros H. injection H as <-. repeat split; auto using effect_refl. }
  intros H. do 5 inv_bind H. destruct a3 as [exs g].
  injection H as <-. repeat split; simpl; auto.
Qed.

(** ** Head growth *)

Lemma update_nets_idle s :
  (current_step s <= 0)%Z -> update_nets s = Ok s.
Proof.
  intros H. unfold update_nets.
  destruct (Z.gtb_spec (current_step s) 0); [lia | reflexivity].
Qed.

Lemma update_nets_inv s s' :
  update_nets s = Ok s' -> (current_step s > 0)%Z ->
  (0 <= n_known_classes s)%Z.
Proof.
  unfold update_nets. intros H Hs.
  destruct (Z.gtb_spec (current_step s) 0); [|lia].
  inv_bind H. destruct a as [[hd h2] g2].
  set (s1 := if use_distillation s then _ else s) in *.
  assert (Hk : n_known_classes s1 = n_known_classes s).
  { subst s1. destruct (use_distillation s); [|reflexivity].
    unfold deepcopy. simpl. reflexivity. }
  rewrite <- Hk.
  destruct (use_cosine s1); simpl in Ha; inv_bind Ha;
    destruct a as [[hd' h'] g'].
  - eapply (head_alloc_inv true); eauto.
  - eapply (head_alloc_inv false); eauto.
Qed.

(** The full effect of a head growth on allocated parameters. *)
Lemma update_nets_grows s :
  (current_step s > 0)%Z ->
  (0 <= n_known_classes s)%Z ->
  (net_loc s < next (heap s))%nat ->
  (init_weights s < next (heap s))%nat ->
  exists s',
    update_nets s = Ok s'
    /\ self s' = self s
    /\ current_step s' = current_step s
    /\ n_known_classes s' = n_known_classes s
    /\ head_weight s' =
         cat (head_weight s) (read (heap s) (init_weights s))
    /\ (next (heap s) <= net_loc s' < next (heap s'))%nat
    /\ (forall l, (l < next (heap s))%nat ->
                  read (heap s') l = read (heap s) l)
    /\ (ft_net s' = ft_net s
        \/ exists l, ft_loc s' = Some l
                     /\ (next (heap s) <= l < next (heap s'))%nat)
    /\ (use_variation s = false -> ft_net s' = ft_net s).
Proof.
  intros Hs Hk Hnet Hini. unfold update_nets.
  destruct (Z.gtb_spec (current_step s) 0); [|lia].
  set (s1 := if use_distillation s then _ else s).
  assert (H1 : self s1 = self s /\ net s1 = net s
               /\ current_step s1 = current_step s
               /\ n_known_classes s1 = n_known_classes s
               /\ ft_net s1 = ft_net s
               /\ (next (heap s) <= next (heap s1))%nat
               /\ (forall l, (l < next (heap s))%nat ->
                             read (heap s1) l = read (heap s) l)).
  { subst s1. destruct (use_distillation s).
    - unfold deepcopy. simpl. repeat split; auto.
      intros l Hl. unfold read. simpl. eqb_cases. reflexivity.
    - repeat split; auto. }
  destruct H1 as (Hself & Hn1 & Hcs & Hnk & Hft & Hnx & Hrd).
  clearbody s1.
  destruct (head_alloc_ok (use_cosine s1) (heap s1) (torch_rng s1)
              (in_features (fc (net s1))) (n_known_classes s1))
    as (hd & h' & g' & E & Hw & Hn & Hin & Hfr); [lia|].
  assert (Hold : read (heap s1) (weight (fc (net s1)))
                 = head_weight s).
  { unfold head_weight. rewrite Hn1. apply Hrd. exact Hnet. }
  assert (Hinit : read (heap s1) (init_weights s1)
                  = read (heap s) (init_weights s)).
  { rewrite Hself. apply Hrd. exact Hini. }
  assert (Hv : use_variation s1 = use_variation s) by now rewrite Hself.
  assert (Hrest : forall l, (l < next (heap s))%nat ->
                            cells h' l = read (heap s) l).
  { intros l Hl. change (cells h' l) with (read h' l).
    rewrite Hfr by lia. now apply Hrd. }
  destruct (use_cosine s1) eqn:Ecos; simpl; rewrite E; simpl;
    rewrite Hv; destruct (use_variation s) eqn:Ev; simpl;
    (eexists; split; [reflexivity|]); simpl;
    unfold head_weight, net_loc, ft_loc, read; simpl;
    fold (read (heap s1) (weight (fc (net s1))));
    fold (read (heap s1) (init_weights s1));
    rewrite ?Hw, ?Hn, ?Hold, ?Hinit, ?Nat.eqb_refl;
    (split; [exact Hself|]); (split; [exact Hcs|]);
    (split; [exact Hnk|]);
    (split; [eqb_cases; reflexivity|]);
    (split; [lia|]);
    (split; [intros l Hl; eqb_cases; now apply Hrest|]);
    (split; [|congruence || (intros _; exact Hft)]);
    solve [ right; eexists; split; [reflexivity | lia]
          | left; exact Hft ].
Qed.

(** ** Well-formed sessions *)

Lemma init_wf nc ng seed ap tp g r s :
  init nc ng seed ap tp g r = Ok s -> wf s.
Proof.
  intros H. apply init_ok in H.
  destruct H as (_ & Hc & _ & _ & _ & _ & Hs & Hk & Hf & Hi & Hn & Hq).
  constructor.
  - unfold net_loc. now rewrite <- Hi.
  - exact Hn.
  - unfold ft_loc. rewrite Hf. discriminate.
  - exact Hq.
  - lia.
  - rewrite Hs, Hk. lia.
Qed.

Lemma effect_wf L s s' : effect L s s' -> wf s -> wf s'.
Proof.
  intros [Hself Hstep Hknown Hnet Hft Hnext Hread] [W1 W2 W3 W4 W5 W6].
  constructor.
  - now rewrite Hnet, Hnext.
  - now rewrite Hself, Hnext.
  - rewrite Hft, Hself. exact W3.
  - now rewrite Hself.
  - lia.
  - now rewrite Hknown, Hstep, Hself.
Qed.

Lemma effect_detached L s s' :
  effect L s s' -> ~ L (init_weights s) -> detached s ->
  detached s' /\ appended_rows s' = appended_rows s.
Proof.
  intros [Hself Hstep Hknown Hnet Hft Hnext Hread] HL Hd.
  unfold detached, appended_rows in *.
  rewrite Hnet, Hself. split; [exact Hd|]. now apply Hread.
Qed.

Lemma wf_known_nonneg s : wf s -> (0 <= n_known_classes s)%Z.
Proof. intros [W1 W2 W3 W4 W5 W6]. nia. Qed.

(** A head growth in a well-formed session. *)
Lemma growth s s' :
  wf s -> (current_step s > 0)%Z -> update_nets s = Ok s' ->
  wf s'
  /\ head_weight s' = head_weight s ++ appended_rows s
  /\ detached s'
  /\ appended_rows s' = appended_rows s.
Proof.
  intros Hwf Hs H.
  destruct (update_nets_grows s Hs (wf_known_nonneg s Hwf)
              (wf_net s Hwf) (wf_init s Hwf))
    as (s2 & E & Hself & Hcs & Hnk & Hhw & Hloc & Hrd & Hft & _).
  rewrite E in H. injection H as <-.
  pose proof (wf_init s Hwf) as Hi.
  split; [|split; [exact Hhw|split]].
  - destruct Hwf as [W1 W2 W3 W4 W5 W6].
    constructor; rewrite ?Hself, ?Hcs, ?Hnk; auto; try lia.
    intros l Hl. destruct Hft as [Hft | (l' & Hl' & Hb)].
    + apply W3. unfold ft_loc in *. now rewrite <- Hft.
    + rewrite Hl in Hl'. injection Hl' as <-. lia.
  - unfold detached. rewrite Hself. lia.
  - unfold appended_rows. rewrite Hself. now apply Hrd.
Qed.

Lemma call_wf c s s' : call c s = Ok s' -> wf s -> wf s'.
Proof.
  destruct c; simpl; intros H Hwf.
  - injection H as <-. destruct Hwf as [W1 W2 W3 W4 W5 W6].
    constructor; simpl; auto; lia.
  - destruct (Z_gt_le_dec (current_step s) 0) as [Hs|Hs].
    + now apply (growth s s' Hwf Hs H).
    + rewrite (update_nets_idle _ Hs) in H. now injection H as <-.
  - apply train_effect in H. eapply effect_wf; [apply H | exact Hwf].
  - apply train_ft_effect in H. eapply effect_wf; [apply H | exact Hwf].
  - apply update_exemplars_effect in H.
    eapply effect_wf; [apply H | exact Hwf].
Qed.

Lemma call_detached c s s' :
  call c s = Ok s' -> wf s -> detached s ->
  detached s' /\ appended_rows s' = appended_rows s.
Proof.
  destruct c; simpl; intros H Hwf Hd.
  - injection H as <-. split; [exact Hd | reflexivity].
  - destruct (Z_gt_le_dec (current_step s) 0) as [Hs|Hs].
    + now apply (growth s s' Hwf Hs H).
    + rewrite (update_nets_idle _ Hs) in H. injection H as <-. auto.
  - apply train_effect in H. destruct H as [H _].
    eapply effect_detached; eauto.
  - apply train_ft_effect in H. destruct H as [H _].
    eapply effect_detached; eauto.
    intros Hl. now apply (wf_ft s Hwf) in Hl.
  - apply update_exemplars_effect in H. destruct H as [H _].
    eapply effect_detached; eauto.
Qed.

Lemma run_wf calls s s' : run calls s = Ok s' -> wf s -> wf s'.
Proof.
  unfold run. apply for_each_preserves. intros; eapply call_wf; eauto.
Qed.

(** The counters after a run: only [step] moves them. *)
Lemma call_counters c s s' :
  call c s = Ok s' ->
  self s' = self s
  /\ current_step s' =
       (current_step s + Z.of_nat (count_steps [c]))%Z
  /\ n_known_classes s' =
       (n_known_classes s
        + Z.of_nat (count_steps [c]) * classes_per_group s)%Z.
Proof.
  assert (Hsame : forall x : Session,
             self x = self s ->
             current_step x = current_step s ->
             n_known_classes x = n_known_classes s ->
             self x = self s
             /\ current_step x = (current_step s + Z.of_nat 0)%Z
             /\ n_known_classes x =
                  (n_known_classes s
                   + Z.of_nat 0 * classes_per_group s)%Z).
  { intros x H1 H2 H3. repeat split; auto; lia. }
  destruct c; unfold count_steps; cbn [filter length call]; intros H.
  - injection H as <-. unfold step. cbn [self current_step
      n_known_classes set_counters]. repeat split; lia.
  - destruct (Z_gt_le_dec (current_step s) 0) as [Hs|Hs].
    + unfold update_nets in H.
      destruct (Z.gtb_spec (current_step s) 0); [|lia].
      set (s1 := if use_distillation s then _ else s) in *.
      assert (H1 : self s1 = self s
                   /\ current_step s1 = current_step s
                   /\ n_known_classes s1 = n_known_classes s).
      { subst s1. destruct (use_distillation s); [|auto].
        unfold deepcopy. simpl. auto. }
      destruct H1 as (Hself & Hcs & Hnk). clearbody s1.
      inv_bind H. destruct a as [[hd h2] g2].
      destruct (use_variation _) in H; [unfold deepcopy in H|];
        injection H as <-; apply Hsame; simpl; auto.
    + rewrite (update_nets_idle _ Hs) in H. injection H as <-.
      now apply Hsame.
  - apply train_effect in H. destruct H as [[] _]. now apply Hsame.
  - apply train_ft_effect in H. destruct H as [[] _]. now apply Hsame.
  - apply update_exemplars_effect in H. destruct H as [[] _].
    now apply Hsame.
Qed.

Lemma run_counters calls : forall s s',
  run calls s = Ok s' ->
  self s' = self s
  /\ current_step s' =
       (current_step s + Z.of_nat (count_steps calls))%Z
  /\ n_known_classes s' =
       (n_known_classes s
        + Z.of_nat (count_steps calls) * classes_per_group s)%Z.
Proof.
  unfold run. induction calls as [|c rest IH]; simpl; intros s s' H.
  - injection H as <-. unfold count_steps. simpl. repeat split; lia.
  - inv_bind H. apply call_counters in Ha.
    destruct Ha as (Hs1 & Hc1 & Hk1).
    apply IH in H. destruct H as (Hs2 & Hc2 & Hk2).
    assert (Hn : count_steps (c :: rest)
                 = (count_steps [c] + count_steps rest)%nat).
    { unfold count_steps. simpl.
      destruct c; simpl; reflexivity. }
    rewrite Hs2, Hc2, Hk2, Hs1, Hc1, Hk1, Hn.
    repeat split; auto; lia.
Qed.

Lemma run_ft_none calls : forall s s',
  run calls s = Ok s' -> wf s ->
  use_variation s = false -> ft_net s = None -> ft_net s' = None.
Proof.
  unfold run. induction calls as [|c rest IH]; simpl; intros s s' H Hwf Hv Hf.
  - now injection H as <-.
  - inv_bind H.
    pose proof (call_wf _ _ _ Ha Hwf) as Hwf1.
    pose proof (call_counters _ _ _ Ha) as (Hself & _ & _).
    apply (IH _ _ H Hwf1); [now rewrite Hself|].
    destruct c; simpl in Ha.
    + now injection Ha as <-.
    + destruct (Z_gt_le_dec (current_step s) 0) as [Hs|Hs].
      * destruct (update_nets_grows s Hs (wf_known_nonneg s Hwf)
                    (wf_net s Hwf) (wf_init s Hwf))
          as (s2 & E & _ & _ & _ & _ & _ & _ & _ & Hkeep).
        rewrite E in Ha. injection Ha as <-. rewrite Hkeep; auto.
      * rewrite (update_nets_idle _ Hs) in Ha. now injection Ha as <-.
    + apply train_effect in Ha. destruct Ha as [_ Hft]. congruence.
    + apply train_ft_effect in Ha. destruct Ha as (_ & _ & Hsame).
      rewrite (Hsame Hv). exact Hf.
    + apply update_exemplars_effect in Ha.
      destruct Ha as (_ & _ & Hft & _). congruence.
Qed.

Lemma run_logged_run calls : forall s s' log,
  run_logged calls s = Ok (s', log) -> run calls s = Ok s'.
Proof.
  unfold run. induction calls as [|c rest IH]; simpl; intros s s' log H.
  - now injection H as <- _.
  - inv_bind H. rewrite Ha. simpl. inv_bind H. destruct a0 as [s2 log'].
    injection H as <- _. eauto.
Qed.

Lemma run_logged_rows calls : forall s s' log,
  run_logged calls s = Ok (s', log) -> wf s ->
  (forall a, In a log -> a = appended_rows s')
  /\ (detached s -> detached s' /\ appended_rows s' = appended_rows s).
Proof.
  induction calls as [|c rest IH]; simpl; intros s s' log H Hwf.
  - injection H as <- <-. split; [intros a []|auto].
  - inv_bind H. rename a into s1. inv_bind H. destruct a as [s2 log'].
    injection H as <- <-.
    pose proof (call_wf _ _ _ Ha Hwf) as Hwf1.
    destruct (IH _ _ _ Ha0 Hwf1) as [IH1 IH2].
    split.
    + assert (Hgrow : forall x,
                 c = CUpdateNets -> (current_step s > 0)%Z ->
                 x = trailing_rows s s1 -> x = appended_rows s2).
      { intros x -> Hs ->. simpl in Ha.
        destruct (growth s s1 Hwf Hs Ha) as (_ & Hhw & Hd & Hrows).
        destruct (IH2 Hd) as [_ ->]. rewrite Hrows.
        unfold trailing_rows. rewrite Hhw.
        rewrite skipn_app, skipn_all, Nat.sub_diag. reflexivity. }
      intros x Hin. destruct c; auto.
      destruct (Z.gtb_spec (current_step s) 0); auto.
      destruct Hin as [<-|Hin]; auto. apply Hgrow; auto. lia.
    + intros Hd.
      destruct (call_detached _ _ _ Ha Hwf Hd) as [Hd1 Hr1].
      destruct (IH2 Hd1) as [Hd2 Hr2]. split; [exact Hd2|congruence].
Qed.

(** ** The claims about the step controller *)

(** [__init__] has no test of its own on the two counts.  It raises
    when the group count is zero; with a non-zero group count, a
    splitter that returns and a non-negative quotient it returns a
    session whose classes-per-group is the floor of the quotient. *)
Lemma construction_uses_floor_division nc ng seed ap tp g r :
  (ng = 0%Z -> init nc ng seed ap tp g r = Raise ZeroDivisionError)
  /\ (forall ls,
        ng <> 0%Z ->
        LabelsSplitter nc ng seed = Ok ls ->
        (0 <= nc / ng)%Z ->
        exists s, init nc ng seed ap tp g r = Ok s
                  /\ classes_per_group s = (nc / ng)%Z
                  /\ splitter s = ls).
Proof.
  split.
  - intros ->. reflexivity.
  - intros ls Hng Hls Hq.
    destruct (init_total nc ng seed ap tp g r ls Hng Hls Hq) as [s Hs].
    exists s. split; [exact Hs|].
    apply init_ok in Hs. destruct Hs as (_ & Hc & Hl & _).
    split; [exact Hc|]. rewrite Hls in Hl. now injection Hl.
Qed.

(** C9: in a session started by [__init__], once [step] has been
    called exactly [n + 1] times (whatever other methods were called in
    between), the step index is [n] and the number of known classes is
    [(n + 1) * classes_per_group]. *)
Theorem step_counters nc ng seed ap tp g r s0 calls s (n : nat) :
  init nc ng seed ap tp g r = Ok s0 ->
  run calls s0 = Ok s ->
  count_steps calls = S n ->
  current_step s = Z.of_nat n
  /\ n_known_classes s = ((Z.of_nat n + 1) * classes_per_group s)%Z.
Proof.
  intros Hinit Hrun Hcount.
  apply init_ok in Hinit.
  destruct Hinit as (_ & _ & _ & _ & _ & _ & Hs & Hk & _).
  apply run_counters in Hrun. destruct Hrun as (Hself & Hcs & Hnk).
  rewrite Hcs, Hnk, Hs, Hk, Hcount, Hself. split; lia.
Qed.

(** C10: the session's variation flag is the conjunction of the two
    configuration flags; in a session built without distillation no
    auxiliary model is ever created, [train_ft] returns the session
    unchanged, and every batch of the training loop gets the full
    output and labels with no distillation pair. *)
Theorem variation_needs_distillation nc ng seed ap tp g r s0 calls s :
  init nc ng seed ap tp g r = Ok s0 ->
  run calls s0 = Ok s ->
  use_variation s = (ap_use_distillation ap && ap_use_variation ap)
  /\ (ap_use_distillation ap = false ->
      ft_net s = None
      /\ (forall dataloader, train_ft dataloader s = Ok s)
      /\ (forall images labels output features,
            batch_signals s images labels output features =
            Ok {| class_input := output; class_target := labels;
                  dist_input := None; dist_target := None |})).
Proof.
  intros Hinit Hrun.
  pose proof (init_wf _ _ _ _ _ _ _ _ Hinit) as Hwf.
  apply init_ok in Hinit.
  destruct Hinit as (_ & _ & _ & Hd & Hv & _ & _ & _ & Hf & _).
  pose proof (run_counters _ _ _ Hrun) as (Hself & _ & _).
  split; [now rewrite Hself|].
  intros Hoff. rewrite Hoff in Hv, Hd. simpl in Hv.
  split; [|split].
  - eapply run_ft_none; eauto.
  - intros dataloader. unfold train_ft. now rewrite Hself, Hv.
  - intros images labels output features.
    unfold batch_signals. now rewrite Hself, Hd.
Qed.

(** C4: at every head growth of a session (a call of [update_nets] at
    a step index above zero) the call returns, and the rows of the new
    head's weight matrix that come before the appended ones are the
    rows of the old head's weight matrix. *)
Theorem head_growth_keeps_old_rows nc ng seed ap tp g r s0 calls s :
  init nc ng seed ap tp g r = Ok s0 ->
  run calls s0 = Ok s ->
  (current_step s > 0)%Z ->
  exists s',
    update_nets s = Ok s'
    /\ firstn (length (head_weight s)) (head_weight s') = head_weight s
    /\ head_weight s' = head_weight s ++ trailing_rows s s'.
Proof.
  intros Hinit Hrun Hs.
  pose proof (run_wf _ _ _ Hrun (init_wf _ _ _ _ _ _ _ _ Hinit)) as Hwf.
  destruct (update_nets_grows s Hs (wf_known_nonneg s Hwf)
              (wf_net s Hwf) (wf_init s Hwf))
    as (s' & E & _ & _ & _ & Hhw & _).
  exists s'. split; [exact E|]. unfold trailing_rows.
  rewrite Hhw. unfold cat.
  rewrite firstn_app, firstn_all, Nat.sub_diag, skipn_app, skipn_all,
    Nat.sub_diag. simpl. now rewrite app_nil_r.
Qed.

(** C5: over a whole session, the rows appended by any two head growths
    are the same: each growth reads them from the one tensor object
    that [__init__] stored in [init_weights], nothing writes to that
    object once the first growth has happened, and it is never drawn
    again. *)
Theorem growth_rows_identical nc ng seed ap tp g r s0 calls s log :
  init nc ng seed ap tp g r = Ok s0 ->
  run_logged calls s0 = Ok (s, log) ->
  (forall a, In a log -> a = read (heap s) (init_weights s0))
  /\ (forall a b, In a log -> In b log -> a = b).
Proof.
  intros Hinit Hrun.
  pose proof (init_wf _ _ _ _ _ _ _ _ Hinit) as Hwf.
  destruct (run_logged_rows _ _ _ _ Hrun Hwf) as [Hall _].
  pose proof (run_counters _ _ _ (run_logged_run _ _ _ _ Hrun))
    as (Hself & _ & _).
  assert (Hrows : forall a, In a log ->
                            a = read (heap s) (init_weights s0)).
  { intros a Ha. rewrite <- Hself. now apply Hall. }
  split; [exact Hrows|].
  intros a b Ha Hb. rewrite (Hrows a Ha), (Hrows b Hb). reflexivity.
Qed.

(** C2: the inputs and targets that a batch of [train] hands to the
    loss.  Past the first step with distillation on: a linear head
    classifies on the last [n_new_classes] columns of the output,
    against the same columns of the fine-tuned model's output under
    variation and of the one-hot labels otherwise, and distils the
    columns before them against the previous model's full logits; a
    cosine head keeps the full output and labels and distils the
    penultimate features against the previous model's.  At the first
    step or without distillation there is no distillation pair. *)
Theorem train_signal_selection (s : Session) images labels output
    features :
  (0 < classes_per_group s)%Z ->
  let n := Z.to_nat (classes_per_group s) in
  (use_distillation s = true -> (current_step s > 0)%Z ->
   forall prev, prev_net s = Some prev ->
     let prev_all := forward false (learnable (heap s) prev) images in
     (use_cosine s = false -> use_variation s = true ->
      forall ft, ft_net s = Some ft ->
        batch_signals s images labels output features =
        Ok {| class_input := newest_columns n output;
              class_target :=
                newest_columns n
                  (fst (forward false (learnable (heap s) ft) images));
              dist_input := Some (older_columns n output);
              dist_target := Some (fst prev_all) |})
     /\ (use_cosine s = false -> use_variation s = false ->
         batch_signals s images labels output features =
         Ok {| class_input := newest_columns n output;
               class_target := newest_columns n labels;
               dist_input := Some (older_columns n output);
               dist_target := Some (fst prev_all) |})
     /\ (use_cosine s = true ->
         batch_signals s images labels output features =
         Ok {| class_input := output;
               class_target := labels;
               dist_input := Some features;
               dist_target := Some (snd prev_all) |}))
  /\ (use_distillation s = false \/ (current_step s <= 0)%Z ->
      batch_signals s images labels output features =
      Ok {| class_input := output; class_target := labels;
            dist_input := None; dist_target := None |}).
Proof.
  intros Hn n. split.
  - intros Hd Hs prev Hprev prev_all.
    assert (Hgt : (current_step s >? 0)%Z = true)
      by (apply Z.gtb_lt; lia).
    unfold batch_signals. rewrite Hd, Hgt, Hprev. simpl.
    fold prev_all. destruct prev_all as [prev_output prev_features].
    rewrite !last_cols_newest, !drop_last_cols_older by exact Hn.
    fold n. split; [|split].
    + intros Hc Hv ft Hft. rewrite Hc, Hv, Hft. simpl.
      rewrite !last_cols_newest by exact Hn. reflexivity.
    + intros Hc Hv. rewrite Hc, Hv. simpl.
      rewrite ?last_cols_newest by exact Hn. reflexivity.
    + intros Hc. rewrite Hc. reflexivity.
  - intros Hoff. unfold batch_signals.
    destruct Hoff as [Hd | Hs].
    + rewrite Hd. reflexivity.
    + destruct (Z.gtb_spec (current_step s) 0); [lia|].
      rewrite andb_false_r. reflexivity.
Qed.

End LearnerFacts.

(** ** Concrete sessions *)

Lemma step_counters_witness :
  exists s0 s,
    DemoRuns.construct 6 3 Demo.approach = Ok s0
    /\ run [CStep; CUpdateNets; CStep; CStep] s0 = Ok s
    /\ current_step s = 2%Z
    /\ n_known_classes s = ((2 + 1) * classes_per_group s)%Z.
Proof.
  eexists. eexists. split; [reflexivity|]. split; [reflexivity|].
  eapply (step_counters (C := Demo.collaborators)
            6 3 tt Demo.approach Demo.training 0%nat 0%nat
            _ [CStep; CUpdateNets; CStep; CStep] _ 2);
    reflexivity.
Defined.

Lemma variation_needs_distillation_witness :
  use_variation DemoRuns.after_plain = false
  /\ ft_net DemoRuns.after_plain = None
  /\ train_ft DemoRuns.batches DemoRuns.after_plain
     = Ok DemoRuns.after_plain.
Proof.
  destruct (variation_needs_distillation (C := Demo.collaborators)
              6 3 tt Demo.plain Demo.training 0%nat 0%nat
              DemoRuns.fresh_plain DemoRuns.two_steps_plain
              DemoRuns.after_plain) as [Hv Hoff];
    [vm_compute; reflexivity | vm_compute; reflexivity |].
  destruct (Hoff eq_refl) as (Hft & Htrain & _).
  split; [exact Hv|]. split; [exact Hft|]. apply Htrain.
Defined.

Lemma head_growth_keeps_old_rows_witness :
  exists s',
    update_nets DemoRuns.before_growth = Ok s'
    /\ firstn (length (head_weight DemoRuns.before_growth))
              (head_weight s')
       = head_weight DemoRuns.before_growth
    /\ head_weight s'
       = head_weight DemoRuns.before_growth
         ++ trailing_rows DemoRuns.before_growth s'.
Proof.
  apply (head_growth_keeps_old_rows (C := Demo.collaborators)
           6 3 tt Demo.approach Demo.training 0%nat 0%nat
           DemoRuns.fresh DemoRuns.second_step DemoRuns.before_growth);
    vm_compute; reflexivity.
Defined.

Lemma growth_rows_identical_witness :
  length (snd DemoRuns.after_three) = 2%nat
  /\ (forall a, In a (snd DemoRuns.after_three) ->
                a = read (heap (fst DemoRuns.after_three))
                         (init_weights DemoRuns.fresh))
  /\ (forall a b, In a (snd DemoRuns.after_three) ->
                  In b (snd DemoRuns.after_three) -> a = b).
Proof.
  split; [reflexivity|].
  apply (growth_rows_identical (C := Demo.collaborators)
           6 3 tt Demo.approach Demo.training 0%nat 0%nat
           DemoRuns.fresh DemoRuns.three_steps
           (fst DemoRuns.after_three) (snd DemoRuns.after_three));
    vm_compute; reflexivity.
Defined.

Lemma train_signal_selection_witness :
  match prev_net DemoRuns.after_growth, ft_net DemoRuns.after_growth with
  | Some prev, Some ft =>
      batch_signals DemoRuns.after_growth [1%nat]
                    [[0; 0; 1; 0]%R] [[1; 2; 3; 4]%R] [[5; 6]%R]
      = Ok {| class_input := [[3; 4]%R];
              class_target :=
                newest_columns 2
                  (fst (forward false
                          (learnable (heap DemoRuns.after_growth) ft)
                          [1%nat]));
              dist_input := Some [[1; 2]%R];
              dist_target :=
                Some (fst (forward false
                             (learnable (heap DemoRuns.after_growth) prev)
                             [1%nat])) |}
  | _, _ => False
  end.
Proof.
  destruct (train_signal_selection (C := Demo.collaborators)
              DemoRuns.after_growth [1%nat]
              [[0; 0; 1; 0]%R] [[1; 2; 3; 4]%R] [[5; 6]%R])
    as [Hlater _]; [reflexivity|].
  specialize (Hlater eq_refl eq_refl).
  destruct (prev_net DemoRuns.after_growth) as [prev|] eqn:Ep;
    [|discriminate Ep].
  destruct (ft_net DemoRuns.after_growth) as [ft|] eqn:Ef;
    [|discriminate Ef].
  destruct (Hlater prev eq_refl) as [Hvar _].
  exact (Hvar eq_refl eq_refl ft eq_refl).
Defined.

(** ** Norms and distances *)

Section FeatureFacts.

Local Open Scope R_scope.

Lemma vsum_app (a b : Vec) : vsum (a ++ b) = vsum a + vsum b.
Proof.
  unfold vsum. induction a as [|x a IH]; simpl; [lra | rewrite IH; lra].
Qed.

Lemma sum_sq_nonneg (v : Vec) : 0 <= sum_sq v.
Proof.
  unfold sum_sq, vsum. induction v as [|x v IH]; simpl; [lra | nra].
Qed.

Lemma sum_sq_scale (c : R) (v : Vec) :
  sum_sq (map (fun a => a / c) v) = sum_sq v * (/ c * / c).
Proof.
  unfold sum_sq, vsum. induction v as [|x v IH]; simpl; [lra|].
  rewrite IH. unfold Rdiv. ring.
Qed.

Lemma eps_pos : 0 < eps.
Proof. unfold eps. apply Rinv_0_lt_compat. apply pow_lt. lra. Qed.

Lemma norm_sq (v : Vec) : norm v * norm v = sum_sq v.
Proof. unfold norm. apply sqrt_sqrt, sum_sq_nonneg. Qed.

Lemma norm_nonneg (v : Vec) : 0 <= norm v.
Proof. unfold norm. apply sqrt_pos. Qed.

(** A row divided by a positive number that is at least its norm has
    norm at most one. *)
Lemma sum_sq_scale_le (c : R) (v : Vec) :
  0 < c -> norm v <= c -> sum_sq (map (fun a => a / c) v) <= 1.
Proof.
  intros Hc Hle. rewrite sum_sq_scale, <- norm_sq.
  pose proof (norm_nonneg v) as Hn.
  assert (Hi : 0 < / c) by now apply Rinv_0_lt_compat.
  assert (H1 : norm v * / c <= 1).
  { apply (Rmult_le_reg_r c); [exact Hc|].
    rewrite Rmult_assoc, Rinv_l by lra. lra. }
  assert (H0 : 0 <= norm v * / c) by nra.
  replace (norm v * norm v * (/ c * / c))
    with ((norm v * / c) * (norm v * / c)) by ring.
  nra.
Qed.

Lemma normalize_row_le (v : Vec) : sum_sq (normalize_row v) <= 1.
Proof.
  unfold normalize_row. apply sum_sq_scale_le.
  - pose proof eps_pos. pose proof (Rmax_r (norm v) eps). lra.
  - apply Rmax_l.
Qed.

(** Dividing a vector by its own norm. *)
Lemma unit_mean_le (v : Vec) :
  sum_sq (map (fun a => a / norm v) v) <= 1.
Proof.
  destruct (Req_dec (norm v) 0) as [Hz|Hnz].
  - rewrite sum_sq_scale, Hz, Rinv_0. lra.
  - apply sum_sq_scale_le; [|lra].
    pose proof (norm_nonneg v). lra.
Qed.

(** The squared distance of two vectors of norm at most one. *)
Lemma sq_distance_le (a b : Vec) :
  vsum (map (fun x => x ^ 2) (vsub a b)) <= 2 * sum_sq a + 2 * sum_sq b.
Proof.
  unfold vsub. revert b. induction a as [|x a IH]; intros b.
  - simpl. pose proof (sum_sq_nonneg b). unfold sum_sq, vsum in *.
    simpl. lra.
  - destruct b as [|y b].
    + pose proof (sum_sq_nonneg (x :: a)). unfold sum_sq, vsum in *.
      simpl in *. lra.
    + specialize (IH b). unfold sum_sq, vsum in *. simpl in *.
      assert (Hxy : (x - y) * ((x - y) * 1) <= 2 * (x * x) + 2 * (y * y)).
      { pose proof (Rle_0_sqr (x + y)) as Hs. unfold Rsqr in Hs. lra. }
      lra.
Qed.

Lemma distance_below_sentinel (m f : Vec) :
  sum_sq m <= 1 ->
  vsum (map (fun x => x ^ 2) (vsub m (normalize_row f))) < sentinel.
Proof.
  intros Hm. pose proof (sq_distance_le m (normalize_row f)).
  pose proof (normalize_row_le f). unfold sentinel. lra.
Qed.

(** ** Masking and [argmin] *)

Lemma setitem_ok {A : Type} (l : list A) (i : nat) (v d : A) :
  (i < length l)%nat ->
  exists l', Py.setitem l i v = Ok l'
             /\ length l' = length l
             /\ forall j, nth j l' d = if Nat.eqb j i then v else nth j l d.
Proof.
  revert i. induction l as [|h t IH]; intros i Hi; simpl in Hi; [lia|].
  destruct i as [|i]; simpl.
  - eexists. split; [reflexivity|]. split; [reflexivity|].
    intros [|j]; reflexivity.
  - destruct (IH i) as (t' & E & Hlen & Hnth); [lia|].
    rewrite E. simpl. eexists. split; [reflexivity|].
    split; [simpl; lia|]. intros [|j]; simpl; [reflexivity | apply Hnth].
Qed.

(** Forcing the taken positions to the sentinel. *)
Lemma mask_ok (taken : list nat) : forall ds : list R,
  Forall (fun i => (i < length ds)%nat) taken ->
  exists ds',
    for_each taken (fun idx ds => Py.setitem ds idx sentinel) ds = Ok ds'
    /\ length ds' = length ds
    /\ (forall j, In j taken -> nth j ds' 0 = sentinel)
    /\ (forall j, ~ In j taken -> nth j ds' 0 = nth j ds 0).
Proof.
  induction taken as [|t rest IH]; intros ds Hall; simpl.
  - exists ds. repeat split; auto. intros j [].
  - inversion Hall as [|? ? Ht Hrest]; subst.
    destruct (setitem_ok ds t sentinel 0 Ht) as (ds1 & E & Hlen & Hnth).
    rewrite E. simpl.
    destruct (IH ds1) as (ds' & E' & Hlen' & Hin & Hout).
    { rewrite Hlen. exact Hrest. }
    exists ds'. split; [exact E'|]. split; [congruence|]. split.
    + intros j [<-|Hj]; [|now apply Hin].
      destruct (in_dec Nat.eq_dec t rest) as [Hr|Hr]; [now apply Hin|].
      rewrite (Hout t Hr), Hnth, Nat.eqb_refl. reflexivity.
    + intros j Hj. rewrite Hout by tauto. rewrite Hnth.
      destruct (Nat.eqb_spec j t); [subst; tauto | reflexivity].
Qed.

Lemma argmin_from_spec (l : list R) : forall bi b i,
  (argmin_from bi b i l = bi /\ Forall (fun x => b <= x) l)
  \/ (exists k, argmin_from bi b i l = (i + k)%nat /\ (k < length l)%nat
                /\ nth k l 0 <= b
                /\ Forall (fun x => nth k l 0 <= x) l).
Proof.
  induction l as [|x t IH]; intros bi b i; simpl.
  - left. split; [reflexivity | constructor].
  - destruct (Rlt_dec x b) as [Hlt|Hge].
    + destruct (IH i x (S i)) as [[Hr Hall] | (k & Hr & Hk & Hle & Hall)].
      * right. exists 0%nat.
        split; [rewrite Hr; lia|]. split; [lia|]. split; [lra|].
        constructor; [lra | exact Hall].
      * right. exists (S k).
        split; [rewrite Hr; lia|]. split; [lia|]. split; [lra|].
        constructor; [lra | exact Hall].
    + destruct (IH bi b (S i)) as [[Hr Hall] | (k & Hr & Hk & Hle & Hall)].
      * left. split; [exact Hr|]. constructor; [lra | exact Hall].
      * right. exists (S k).
        split; [rewrite Hr; lia|]. split; [lia|]. split; [lra|].
        constructor; [lra | exact Hall].
Qed.

Lemma argmin_ok (l : list R) :
  l <> [] ->
  exists r, argmin l = Ok r /\ (r < length l)%nat
            /\ forall j, (j < length l)%nat -> nth r l 0 <= nth j l 0.
Proof.
  destruct l as [|x t]; [congruence|]. intros _. simpl.
  eexists. split; [reflexivity|].
  destruct (argmin_from_spec t 0%nat x 1%nat)
    as [[Hr Hall] | (k & Hr & Hk & Hle & Hall)]; rewrite Hr.
  - split; [lia|]. intros [|j] Hj; simpl; [lra|].
    rewrite Forall_forall in Hall. apply Hall, nth_In. lia.
  - split; [lia|]. simpl. intros [|j] Hj; simpl; [lra|].
    rewrite Forall_forall in Hall. apply Hall, nth_In. lia.
Qed.

Lemma free_index (taken : list nat) (n : nat) :
  NoDup taken -> Forall (fun i => (i < n)%nat) taken ->
  (length taken < n)%nat ->
  exists j, (j < n)%nat /\ ~ In j taken.
Proof.
  intros Hnd Hall Hlen.
  destruct (Forall_Exists_dec (fun j => In j taken)
              (fun j => in_dec Nat.eq_dec j taken) (seq 0 n))
    as [Hfull | Hfree].
  - exfalso. rewrite Forall_forall in Hfull.
    pose proof (NoDup_incl_length (seq_NoDup n 0) Hfull) as Hle.
    rewrite length_seq in Hle. lia.
  - rewrite Exists_exists in Hfree. destruct Hfree as (j & Hj & Hnot).
    apply in_seq in Hj. exists j. split; [lia | exact Hnot].
Qed.

(** ** The herding loop *)

Lemma raw_distances_below (label_mean : Vec) (features : Matrix) (j : nat) :
  sum_sq label_mean <= 1 ->
  (j < length features)%nat ->
  nth j (raw_distances label_mean features) 0 < sentinel.
Proof.
  intros Hm Hj.
  assert (Hall : Forall (fun x => x < sentinel)
                        (raw_distances label_mean features)).
  { unfold raw_distances, F_normalize. rewrite Forall_forall.
    intros x Hx. apply in_map_iff in Hx. destruct Hx as (f & <- & Hf).
    apply in_map_iff in Hf. destruct Hf as (v & <- & _).
    now apply distance_below_sentinel. }
  rewrite Forall_forall in Hall. apply Hall, nth_In.
  unfold raw_distances, F_normalize. now rewrite !length_map.
Qed.

Lemma closest_ok (label_mean : Vec) (features : Matrix)
    (idx_taken : list nat) :
  features <> [] ->
  Forall (fun i => (i < length features)%nat) idx_taken ->
  exists idx,
    get_closest_exemplar_idx label_mean features idx_taken = Ok idx
    /\ (idx < length features)%nat
    /\ (sum_sq label_mean <= 1 -> NoDup idx_taken ->
        (length idx_taken < length features)%nat ->
        ~ In idx idx_taken).
Proof.
  intros Hne Hall. unfold get_closest_exemplar_idx.
  fold (raw_distances label_mean features).
  assert (Hlen : length (raw_distances label_mean features)
                 = length features).
  { unfold raw_distances, F_normalize. now rewrite !length_map. }
  destruct (mask_ok idx_taken (raw_distances label_mean features))
    as (ds & E & Hlen' & Hin & Hout).
  { now rewrite Hlen. }
  rewrite E. simpl.
  destruct (argmin_ok ds) as (r & Er & Hr & Hmin).
  { intros ->. simpl in Hlen'. rewrite Hlen in Hlen'.
    destruct features; [congruence | discriminate]. }
  exists r. split; [exact Er|]. split; [lia|].
  intros Hm Hnd Hfree Hr_in.
  destruct (free_index idx_taken (length features) Hnd Hall Hfree)
    as (j & Hj & Hj_out).
  pose proof (Hmin j ltac:(lia)) as Hle.
  rewrite (Hin r Hr_in), (Hout j Hj_out) in Hle.
  pose proof (raw_distances_below label_mean features j Hm Hj). lra.
Qed.

Lemma herding_round_ok (label_mean : Vec) (features : Matrix)
    (exemplars_mean : Vec) (idx_taken : list nat) :
  features <> [] ->
  Forall (fun i => (i < length features)%nat) idx_taken ->
  exists em idx,
    herding_round label_mean features (exemplars_mean, idx_taken)
    = Ok (em, idx_taken ++ [idx])
    /\ (idx < length features)%nat
    /\ (sum_sq label_mean <= 1 -> NoDup idx_taken ->
        (length idx_taken < length features)%nat ->
        ~ In idx idx_taken).
Proof.
  intros Hne Hall. unfold herding_round.
  destruct (closest_ok label_mean
              (map (fun f => vadd f exemplars_mean) features) idx_taken)
    as (idx & E & Hidx & Hfresh).
  { destruct features; [congruence | discriminate]. }
  { now rewrite length_map. }
  rewrite length_map in Hidx, Hfresh.
  rewrite E. simpl. unfold Py.getitem.
  destruct (nth_error features idx) as [f|] eqn:Ef.
  - simpl. exists (vadd exemplars_mean f), idx. auto.
  - apply nth_error_None in Ef. lia.
Qed.

Lemma herding_loop_ok (label_mean : Vec) (features : Matrix) (k : nat) :
  forall exemplars_mean idx_taken,
    (k = 0%nat \/ features <> []) ->
    Forall (fun i => (i < length features)%nat) idx_taken ->
    exists em taken,
      repeat_m k (herding_round label_mean features)
               (exemplars_mean, idx_taken) = Ok (em, taken)
      /\ Forall (fun i => (i < length features)%nat) taken
      /\ length taken = (length idx_taken + k)%nat
      /\ (sum_sq label_mean <= 1 -> NoDup idx_taken ->
          (length idx_taken + k <= length features)%nat ->
          NoDup taken).
Proof.
  induction k as [|k IH]; intros em0 taken0 Hk Hall; cbn [repeat_m].
  - exists em0, taken0. repeat split; auto; lia.
  - destruct Hk as [Hk|Hne]; [discriminate|].
    destruct (herding_round_ok label_mean features em0 taken0 Hne Hall)
      as (em1 & idx & E & Hidx & Hfresh).
    rewrite E. cbn [bind].
    destruct (IH em1 (taken0 ++ [idx])) as (em & taken & E' & Hall' & Hlen & Hnd).
    { now right. }
    { apply Forall_app. split; [exact Hall|]. now constructor. }
    exists em, taken. split; [exact E'|]. split; [exact Hall'|].
    rewrite length_app in Hlen. simpl in Hlen. split; [lia|].
    intros Hm Hnd0 Hroom. apply Hnd; auto.
    + apply NoDup_app; auto.
      * constructor; [intros [] | constructor].
      * intros x Hx [<-|[]]. apply Hfresh; auto. lia.
    + rewrite length_app. simpl. lia.
Qed.

(** ** [get_features_representation] *)

Lemma features_loop_from {I : Type} (feat : I -> Vec)
    (dataloader : list (list (I * Z))) :
  forall (mean : Vec) (bf : list Matrix) (tot : Z),
    fold_left
      (fun (st : Vec * list Matrix * Z) (batch : list (I * Z)) =>
         let '(mean, batch_features, tot_images) := st in
         let features := map (fun x => feat (fst x)) batch in
         (map (fun a => a + sum_all features) mean,
          batch_features ++ [features],
          (tot_images + Z.of_nat (length features))%Z))
      dataloader (mean, bf, tot)
    = (map (fun a => a + summed_entries feat dataloader) mean,
       bf ++ batch_features_of feat dataloader,
       (tot + Z.of_nat (length (concat dataloader)))%Z).
Proof.
  induction dataloader as [|batch rest IH]; intros mean bf tot.
  - simpl. unfold summed_entries. simpl.
    rewrite app_nil_r, Z.add_0_r. f_equal. f_equal.
    transitivity (map (fun a : R => a) mean);
      [symmetry; apply map_id | apply map_ext; intros a; lra].
  - cbn [fold_left]. rewrite IH. f_equal; [f_equal|].
    + rewrite map_map. apply map_ext. intros a.
      unfold summed_entries. simpl. lra.
    + simpl. now rewrite <- app_assoc.
    + simpl. rewrite length_app, length_map. lia.
Qed.

Lemma get_features_representation_ok {I : Type} (d : Z) (feat : I -> Vec)
    (dataloader : list (list (I * Z))) :
  dataloader <> [] ->
  let mu :=
    repeat ((0 + summed_entries feat dataloader)
            / IZR (Z.of_nat (length (concat dataloader))))
           (Z.to_nat d) in
  get_features_representation d feat dataloader
  = Ok (F_normalize (concat (batch_features_of feat dataloader)),
        map (fun a => a / norm mu) mu).
Proof.
  intros Hne mu. unfold get_features_representation, features_loop.
  rewrite features_loop_from. simpl app.
  destruct dataloader as [|batch rest]; [congruence|].
  cbn [batch_features_of map]. unfold zeros. subst mu.
  rewrite !map_repeat. reflexivity.
Qed.

Lemma get_features_representation_empty {I : Type} (d : Z)
    (feat : I -> Vec) :
  get_features_representation d feat [] = Raise RuntimeError.
Proof. reflexivity. Qed.

Lemma concat_batch_features_length {I : Type} (feat : I -> Vec)
    (dataloader : list (list (I * Z))) :
  length (concat (batch_features_of feat dataloader))
  = length (concat dataloader).
Proof.
  induction dataloader as [|batch rest IH]; simpl; [reflexivity|].
  now rewrite !length_app, length_map, IH.
Qed.

(** The herding branch for one class, without any assumption on the
    numbers: it returns [min(m, len(dataset))] valid positions. *)
Lemma herding_select_ok (d num : Z) (label_mean : Vec) (features : Matrix) :
  (num <= Z.of_nat (length features))%Z ->
  exists taken,
    herding_select d num label_mean features = Ok taken
    /\ Forall (fun i => (i < length features)%nat) taken
    /\ length taken = Z.to_nat num
    /\ (sum_sq label_mean <= 1 -> NoDup taken).
Proof.
  intros Hnum. unfold herding_select, Py.range_len.
  destruct (herding_loop_ok label_mean features (Z.to_nat num)
              (zeros d) [])
    as (em & taken & E & Hall & Hlen & Hnd).
  { destruct features; [left; simpl in Hnum; lia | right; discriminate]. }
  { constructor. }
  rewrite E. simpl. exists taken. repeat split; auto.
  intros Hm. apply Hnd; [exact Hm | constructor | simpl; lia].
Qed.

(** C7: herding for one class returns positions of the class's samples
    that are pairwise distinct, and as many of them as
    [min(m, class sample count)]. *)
Theorem herding_selects_distinct {I : Type} (d : Z) (feat : I -> Vec)
    (dataloader : list (list (I * Z))) (m : Z) :
  (forall batch x, In batch dataloader -> In x batch ->
                   length (feat (fst x)) = Z.to_nat d) ->
  sum_all (map (fun x => feat (fst x)) (concat dataloader)) <> 0 ->
  (0 <= m)%Z ->
  exists taken,
    herding_of_class d feat dataloader m = Ok taken
    /\ NoDup taken
    /\ Forall (fun i => (i < length (concat dataloader))%nat) taken
    /\ Z.of_nat (length taken)
       = Z.min m (Z.of_nat (length (concat dataloader))).
Proof.
  intros _ Hsum Hm.
  assert (Hne : dataloader <> []).
  { intros ->. apply Hsum. reflexivity. }
  unfold herding_of_class.
  rewrite (get_features_representation_ok d feat dataloader Hne).
  cbn [bind].
  set (mu := repeat _ _).
  set (features := F_normalize _).
  assert (Hlen : length features = length (concat dataloader)).
  { subst features. unfold F_normalize.
    now rewrite length_map, concat_batch_features_length. }
  destruct (herding_select_ok d
              (Z.min m (Z.of_nat (length (concat dataloader))))
              (map (fun a => a / norm mu) mu) features)
    as (taken & E & Hall & Hcount & Hnd); [lia|].
  exists taken. split; [exact E|].
  split; [apply Hnd, unit_mean_le|].
  split; [now rewrite <- Hlen|]. lia.
Qed.

(** C1, on a class with the single sample [(3, 4)]: the mean that the
    selection uses has two equal components and is not the normalised
    component-wise mean [(3/5, 4/5)]. *)
Theorem class_mean_is_scalar_sum :
  exists features label_mean,
    get_features_representation 2 (fun _ : unit => [3; 4]) [[(tt, 0%Z)]]
    = Ok (features, label_mean)
    /\ nth 0 label_mean 0 = nth 1 label_mean 0
    /\ label_mean <> normalized_class_mean 2 [[3; 4]].
Proof.
  eexists. eexists. split.
  - apply get_features_representation_ok. discriminate.
  - split; [reflexivity|].
    unfold normalized_class_mean, componentwise_mean. simpl.
    set (c := _ / _ / norm _). set (n := norm _).
    intros H. injection H as H0 H1.
    assert (Hn : 0 < n).
    { subst n. unfold norm. apply sqrt_lt_R0.
      unfold sum_sq, vsum. simpl. lra. }
    assert (H34 : (0 + 3) / 1 / n = (0 + 4) / 1 / n) by congruence.
    apply (Rmult_eq_compat_r n) in H34.
    unfold Rdiv in H34. rewrite !Rmult_assoc, Rinv_l in H34 by lra.
    lra.
Qed.

End FeatureFacts.

Lemma herding_selects_distinct_witness :
  exists taken,
    herding_of_class 2 (fun i : nat => [INR i; 1%R])
                     [[(1%nat, 0%Z); (2%nat, 0%Z)]; [(3%nat, 0%Z)]] 2
    = Ok taken
    /\ NoDup taken
    /\ Forall (fun i => (i < 3)%nat) taken
    /\ Z.of_nat (length taken) = 2%Z.
Proof.
  apply (herding_selects_distinct 2 (fun i : nat => [INR i; 1%R])
           [[(1%nat, 0%Z); (2%nat, 0%Z)]; [(3%nat, 0%Z)]] 2).
  - intros batch x _ _. reflexivity.
  - unfold sum_all, vsum. simpl. lra.
  - lia.
Defined.

(** ** Batches and list updates *)

Lemma chunks_concat {A : Type} (b : nat) : forall (fuel : nat) (l : list A),
  (0 < b)%nat -> (length l <= fuel)%nat -> concat (chunks fuel b l) = l.
Proof.
  induction fuel as [|fuel IH]; intros l Hb Hl.
  - destruct l; [reflexivity | simpl in Hl; lia].
  - destruct l as [|x t]; [reflexivity|].
    cbn [chunks concat]. rewrite IH; [apply firstn_skipn | exact Hb |].
    rewrite length_skipn. cbn [length] in *. lia.
Qed.

Lemma chunks_nonempty {A : Type} (fuel b : nat) (l : list A) :
  l <> [] -> (length l <= fuel)%nat -> chunks fuel b l <> [].
Proof.
  intros Hne Hl. destruct l as [|x t]; [congruence|].
  destruct fuel; [simpl in Hl; lia | discriminate].
Qed.

Lemma map_m_length {A B : Type} (f : A -> result B) (xs : list A) :
  forall ys, map_m f xs = Ok ys -> length ys = length xs.
Proof.
  induction xs as [|x rest IH]; simpl; intros ys H.
  - now injection H as <-.
  - apply bind_ok in H. destruct H as (y & _ & H).
    apply bind_ok in H. destruct H as (ys' & Hys & H).
    injection H as <-. simpl. f_equal. now apply IH.
Qed.

Lemma map_m_getitem_ok {A : Type} (l : list A) (idx : list nat) :
  Forall (fun i => (i < length l)%nat) idx ->
  exists ys, map_m (Py.getitem l) idx = Ok ys.
Proof.
  induction idx as [|i rest IH]; intros Hall; simpl.
  - eexists. reflexivity.
  - inversion Hall as [|? ? Hi Hrest]; subst.
    unfold Py.getitem at 1.
    destruct (nth_error l i) as [a|] eqn:E.
    + destruct (IH Hrest) as (ys & ->). simpl. eexists. reflexivity.
    + apply nth_error_None in E. lia.
Qed.

Lemma slice_to_length {A : Type} (m : Z) (l : list A) :
  (0 <= m)%Z -> (length (Py.slice_to m l) <= Z.to_nat m)%nat.
Proof.
  intros Hm. unfold Py.slice_to, Py.clamp.
  destruct (Z.ltb_spec m 0); [lia|]. rewrite length_firstn. lia.
Qed.

(** Truncating the lists of the old classes one position at a time. *)
Lemma reduce_from {A : Type} (f : list A -> list A) (n : nat) :
  forall (pre rest : list (list A)),
    (n <= length rest)%nat ->
    for_each (seq (length pre) n)
             (fun i e => x <- Py.getitem e i ;; Py.setitem e i (f x))
             (pre ++ rest)
    = Ok (pre ++ map f (firstn n rest) ++ skipn n rest).
Proof.
  induction n as [|n IH]; intros pre rest Hn.
  - reflexivity.
  - destruct rest as [|x rest]; [simpl in Hn; lia|].
    cbn [seq for_each]. unfold Py.getitem.
    rewrite nth_error_app2, Nat.sub_diag by lia. cbn [nth_error bind].
    assert (Hset : forall (p : list (list A)) v,
               Py.setitem (p ++ x :: rest) (length p) v
               = Ok (p ++ v :: rest)).
    { induction p as [|h p IHp]; intros v; simpl; [reflexivity|].
      now rewrite IHp. }
    rewrite Hset. cbn [bind].
    replace (S (length pre)) with (length (pre ++ [f x]))
      by (rewrite length_app; simpl; lia).
    replace (pre ++ f x :: rest) with ((pre ++ [f x]) ++ rest)
      by (rewrite <- app_assoc; reflexivity).
    rewrite IH by (simpl in Hn; lia).
    rewrite <- app_assoc. reflexivity.
Qed.

(** ** [update_exemplars] *)

Section ExemplarFacts.

Context {C : Collaborators}.

Lemma add_class_inv (s : Session) m label st st' :
  add_class s m label st = Ok st' -> loadable s label.
Proof.
  unfold add_class, loadable. destruct st as [exs g]. intros H.
  apply bind_ok in H. destruct H as (dl & Hdl & H).
  unfold DataLoader in Hdl.
  destruct (Z.leb_spec (BATCH_SIZE (train_params s)) 0);
    [discriminate|]. injection Hdl as <-.
  split; [lia|]. intros Hempty. rewrite Hempty in H. simpl in H.
  discriminate H.
Qed.

Lemma add_class_ok (s : Session) (m : Z) (label : Z) exs g :
  (0 <= m)%Z -> sample_contract -> loadable s label ->
  exists set g',
    add_class s m label (exs, g) = Ok (exs ++ [set], g')
    /\ (length set <= Z.to_nat m)%nat.
Proof.
  intros Hm Hsample [Hbs Hdata]. unfold add_class.
  set (dataset := SubCIFAR (splitter s) label) in *.
  unfold DataLoader.
  destruct (Z.leb_spec (BATCH_SIZE (train_params s)) 0); [lia|].
  cbn [bind].
  set (dl := chunks _ _ _).
  assert (Hcat : concat dl = dataset).
  { subst dl. apply chunks_concat; lia. }
  assert (Hne : dl <> []).
  { subst dl. apply chunks_nonempty; [exact Hdata | lia]. }
  rewrite (get_features_representation_ok _ _ dl Hne). cbn [bind].
  set (mu := repeat _ _). set (features := F_normalize _).
  assert (Hlen : length features = length dataset).
  { subst features. unfold F_normalize.
    now rewrite length_map, concat_batch_features_length, Hcat. }
  set (num := Z.min m (Z.of_nat (length dataset))).
  assert (Hidx : exists idx g',
             match exemplars_selection (approach_params s) with
             | herding =>
                 taken <- herding_select (in_features (fc (net s))) num
                            (map (fun a => (a / norm mu)%R) mu) features ;;
                 Ok (taken, g)
             | random =>
                 if (num <? 0)%Z then Raise ValueError
                 else Ok (random_sample g (length dataset) (Z.to_nat num))
             end = Ok (idx, g')
             /\ Forall (fun i => (i < length dataset)%nat) idx
             /\ length idx = Z.to_nat num).
  { destruct (exemplars_selection (approach_params s)).
    - destruct (herding_select_ok (in_features (fc (net s))) num
                  (map (fun a => (a / norm mu)%R) mu) features)
        as (taken & E & Hall & Hcount & _); [subst num; lia|].
      rewrite E. cbn [bind]. exists taken, g.
      rewrite <- Hlen. auto.
    - destruct (Z.ltb_spec num 0); [subst num; lia|].
      destruct (Hsample g (length dataset) (Z.to_nat num))
        as [Hk Hall]; [subst num; lia|].
      destruct (random_sample g (length dataset) (Z.to_nat num))
        as [idx g'] eqn:E. simpl in Hk, Hall.
      exists idx, g'. auto. }
  destruct Hidx as (idx & g' & E & Hall & Hcount).
  rewrite E. cbn [bind].
  destruct (map_m_getitem_ok dataset idx Hall) as (set & Eset).
  rewrite Eset. cbn [bind]. exists set, g'. split; [reflexivity|].
  apply map_m_length in Eset. subst num. lia.
Qed.

Lemma add_classes_inv (s : Session) m (labels : list Z) :
  forall st st',
    for_each labels (add_class s m) st = Ok st' ->
    forall label, In label labels -> loadable s label.
Proof.
  induction labels as [|l rest IH]; simpl; intros st st' H label Hin.
  - destruct Hin.
  - apply bind_ok in H. destruct H as (st1 & H1 & H).
    destruct Hin as [<-|Hin]; [eapply add_class_inv; eauto | eauto].
Qed.

Lemma add_classes_ok (s : Session) (m : Z) (labels : list Z) :
  (0 <= m)%Z -> sample_contract ->
  (forall label, In label labels -> loadable s label) ->
  forall exs g,
  exists sets g',
    for_each labels (add_class s m) (exs, g) = Ok (exs ++ sets, g')
    /\ length sets = length labels
    /\ Forall (fun l => (length l <= Z.to_nat m)%nat) sets.
Proof.
  intros Hm Hsample. induction labels as [|l rest IH]; intros Hload exs g.
  - exists [], g. simpl. rewrite app_nil_r. auto.
  - destruct (add_class_ok s m l exs g Hm Hsample (Hload l (or_introl eq_refl)))
      as (set & g1 & E & Hset).
    destruct (IH (fun x Hx => Hload x (or_intror Hx)) (exs ++ [set]) g1)
      as (sets & g' & E' & Hlen & Hall).
    exists (set :: sets), g'. cbn [for_each]. rewrite E. cbn [bind].
    rewrite E', <- app_assoc. simpl. auto.
Qed.

Lemma in_step_known_pos s e labels :
  in_step s e labels -> (0 < n_known_classes s)%Z.
Proof. intros [H1 H2 H3 H4 H5 H6 H7 H8 H9]. nia. Qed.

Lemma update_exemplars_unfold (s : Session) e labels :
  in_step s e labels ->
  update_exemplars s =
  st <- for_each labels
          (add_class s (K s / n_known_classes s))
          (map (Py.slice_to (K s / n_known_classes s)) e, py_rng s) ;;
  Ok (set_exemplars (fst st) (snd st) s).
Proof.
  intros Hin. pose proof (in_step_known_pos s e labels Hin) as Hpos.
  destruct Hin as [H1 H2 H3 H4 H5 H6 H7 H8 H9].
  unfold update_exemplars, Py.floordiv. rewrite H1.
  destruct (Z.eqb_spec (n_known_classes s) 0); [lia|]. cbn [bind].
  unfold Py.getitem_z, Py.getitem.
  destruct (Z.ltb_spec (current_step s) 0); [lia|].
  rewrite H8, H2. cbn [bind].
  set (m := (K s / n_known_classes s)%Z).
  assert (Hred :
    (if (current_step s >? 0)%Z
     then reduce_exemplars m (n_known_classes s - classes_per_group s) e
     else Ok e) = Ok (map (Py.slice_to m) e)).
  { destruct (Z.gtb_spec (current_step s) 0).
    - unfold reduce_exemplars, Py.range_len.
      replace (Z.to_nat (n_known_classes s - classes_per_group s))
        with (length e) by nia.
      pose proof (reduce_from (Py.slice_to m) (length e) [] e
                    (Nat.le_refl _)) as Hr.
      simpl in Hr. rewrite Hr, firstn_all, skipn_all, app_nil_r.
      reflexivity.
    - assert (He : e = []) by (destruct e; [reflexivity | simpl in H6; nia]).
      subst e. reflexivity. }
  rewrite Hred. cbn [bind].
  destruct (for_each labels (add_class s m) _) as [[exs g]|err];
    reflexivity.
Qed.

Lemma update_exemplars_ok (s : Session) e labels :
  in_step s e labels -> sample_contract ->
  (forall label, In label labels -> loadable s label) ->
  exists sets g,
    update_exemplars s
    = Ok (set_exemplars
            (map (Py.slice_to (K s / n_known_classes s)) e ++ sets) g s)
    /\ length sets = length labels
    /\ Forall (fun l =>
                 (length l <= Z.to_nat (K s / n_known_classes s))%nat)
              sets.
Proof.
  intros Hin Hsample Hload.
  rewrite (update_exemplars_unfold s e labels Hin).
  assert (Hm : (0 <= K s / n_known_classes s)%Z).
  { apply Z.div_pos; [apply (is_capacity _ _ _ Hin)|].
    apply (in_step_known_pos s e labels Hin). }
  destruct (add_classes_ok s _ labels Hm Hsample Hload
              (map (Py.slice_to (K s / n_known_classes s)) e) (py_rng s))
    as (sets & g & E & Hlen & Hall).
  rewrite E. cbn [bind fst snd]. exists sets, g. auto.
Qed.

Lemma update_exemplars_loadable (s : Session) e labels s' :
  in_step s e labels -> update_exemplars s = Ok s' ->
  forall label, In label labels -> loadable s label.
Proof.
  intros Hin H. rewrite (update_exemplars_unfold s e labels Hin) in H.
  apply bind_ok in H. destruct H as (st & Hst & _).
  eapply add_classes_inv; eauto.
Qed.

Lemma concat_length_le {A : Type} (b : nat) (ls : list (list A)) :
  Forall (fun l => (length l <= b)%nat) ls ->
  (length (concat ls) <= length ls * b)%nat.
Proof.
  induction 1 as [|l ls Hl _ IH]; simpl; [lia|].
  rewrite length_app. lia.
Qed.

(** After a call in protocol order: one list per known class, each
    within the quota. *)
Lemma update_exemplars_quota (s : Session) e labels :
  in_step s e labels -> sample_contract ->
  (forall label, In label labels -> loadable s label) ->
  exists s' e',
    update_exemplars s = Ok s'
    /\ exemplars s' = Some e'
    /\ Z.of_nat (length e') = n_known_classes s
    /\ Forall (fun l =>
                 (length l <= Z.to_nat (K s / n_known_classes s))%nat) e'.
Proof.
  intros Hin Hsample Hload.
  destruct (update_exemplars_ok s e labels Hin Hsample Hload)
    as (sets & g & E & Hlen & Hall).
  pose proof (in_step_known_pos s e labels Hin) as Hpos.
  assert (Hm : (0 <= K s / n_known_classes s)%Z).
  { apply Z.div_pos; [apply (is_capacity _ _ _ Hin) | exact Hpos]. }
  eexists. eexists. split; [exact E|]. split; [reflexivity|]. split.
  - rewrite length_app, length_map, Hlen.
    destruct Hin as [H1 H2 H3 H4 H5 H6 H7 H8 H9]. lia.
  - apply Forall_app. split; [|exact Hall].
    rewrite Forall_forall. intros l Hl. apply in_map_iff in Hl.
    destruct Hl as (x & <- & _). now apply slice_to_length.
Qed.

End ExemplarFacts.

(** ** The protocol establishes the state that [update_exemplars] expects *)

Section ProtocolFacts.

Context {C : Collaborators}.

Lemma init_exemplars nc ng seed ap tp g r s :
  init nc ng seed ap tp g r = Ok s ->
  exemplars s = (if ap_use_exemplars ap then Some [] else None)
  /\ K s = (if ap_use_exemplars ap then n_exemplars ap else 0%Z).
Proof.
  unfold init. intros H.
  apply bind_ok in H. destruct H as (cpg & _ & H).
  apply bind_ok in H. destruct H as (ls & _ & H).
  destruct (if ap_use_cosine ap then cosine_resnet32 else resnet32)
    as [bb width].
  apply bind_ok in H. destruct H as ([[hd h1] g1] & _ & H).
  destruct (kaiming_normal g1 cpg width) as [w0 g2].
  injection H as <-. split; reflexivity.
Qed.

(** The first step of a session built with exemplars. *)
Lemma in_step_first nc ng seed ap tp g r s0 labels :
  init nc ng seed ap tp g r = Ok s0 ->
  ap_use_exemplars ap = true ->
  (0 <= n_exemplars ap)%Z ->
  (0 < nc / ng)%Z ->
  nth_error (splitter s0) 0 = Some labels ->
  Z.of_nat (length labels) = (nc / ng)%Z ->
  in_step (step s0) [] labels.
Proof.
  intros Hinit Hex Hcap Hq Hlabels Hsize.
  destruct (init_exemplars _ _ _ _ _ _ _ _ Hinit) as [He HK].
  apply init_ok in Hinit.
  destruct Hinit as (_ & Hc & _ & _ & _ & Hu & Hs & Hk & _).
  rewrite Hex in He, HK.
  constructor; simpl; rewrite ?Hs, ?Hk, ?Hc, ?HK; auto; try lia;
    congruence.
Qed.

(** Growing the head and training leave the exemplars alone. *)
Lemma training_keeps_exemplars c s s' :
  call c s = Ok s' -> c <> CUpdateExemplars ->
  exemplars s' = exemplars s.
Proof.
  destruct c; cbn [call]; intros H Hc; try congruence.
  - now injection H as <-.
  - unfold update_nets in H.
    destruct (current_step s >? 0)%Z; [|now injection H as <-].
    set (s1 := if use_distillation s then _ else s) in *.
    assert (H1 : exemplars s1 = exemplars s).
    { subst s1. destruct (use_distillation s); [|reflexivity].
      unfold deepcopy. reflexivity. }
    clearbody s1.
    apply bind_ok in H. destruct H as ([[hd h2] g2] & _ & H).
    destruct (use_variation _) in H; [unfold deepcopy in H|];
      injection H as <-; exact H1.
  - unfold train in H.
    apply bind_ok in H. destruct H as (ratio & _ & H).
    apply bind_ok in H. destruct H as (n & _ & H).
    eapply (repeat_m_preserves (fun x => exemplars x = exemplars s));
      [|exact H|reflexivity].
    intros x x' Hep Hx. unfold train_epoch in Hep.
    apply bind_ok in Hep. destruct Hep as (y & Hy & Hep).
    injection Hep as <-. simpl.
    eapply (for_each_preserves (fun z => exemplars z = exemplars s));
      [|exact Hy|exact Hx].
    intros b z z' Hb Hz. unfold train_batch in Hb.
    destruct b as [images labels].
    destruct (forward true _ images) as [output features].
    apply bind_ok in Hb. destruct Hb as (sig & _ & Hb).
    destruct (sgd_step _ _ _ _ _ _) as [o v].
    injection Hb as <-. exact Hz.
  - unfold train_ft in H. destruct (use_variation s);
      [|now injection H as <-].
    apply bind_ok in H. destruct H as (n & _ & H).
    eapply (repeat_m_preserves (fun x => exemplars x = exemplars s));
      [|exact H|reflexivity].
    intros x x' Hep Hx. unfold train_ft_epoch in Hep.
    apply bind_ok in Hep. destruct Hep as (y & Hy & Hep).
    assert (Hyx : exemplars y = exemplars s).
    { eapply (for_each_preserves (fun z => exemplars z = exemplars s));
        [|exact Hy|exact Hx].
      intros b z z' Hb Hz. unfold train_ft_batch in Hb.
      destruct b as [images labels].
      apply bind_ok in Hb. destruct Hb as (ft & _ & Hb).
      apply bind_ok in Hb. destruct Hb as (opt & _ & Hb).
      apply bind_ok in Hb. destruct Hb as (crit & _ & Hb).
      destruct (sgd_step _ _ _ _ _ _) as [o v].
      injection Hb as <-. exact Hz. }
    destruct (ft_optimizer y); [|discriminate].
    injection Hep as <-. exact Hyx.
Qed.

Lemma in_step_kept c s s' e labels :
  call c s = Ok s' -> c <> CUpdateExemplars -> c <> CStep ->
  in_step s e labels -> in_step s' e labels.
Proof.
  intros H Hc Hs [H1 H2 H3 H4 H5 H6 H7 H8 H9].
  pose proof (training_keeps_exemplars c s s' H Hc) as Hex.
  destruct (call_counters c s s' H) as (Hself & Hcs & Hnk).
  assert (Hzero : count_steps [c] = 0%nat)
    by (destruct c; try reflexivity; congruence).
  rewrite Hzero in Hcs, Hnk. simpl in Hcs, Hnk.
  rewrite Z.add_0_r in Hcs, Hnk.
  constructor; rewrite ?Hex, ?Hself, ?Hcs, ?Hnk; auto; try lia.
Qed.

(** From one exemplar update to the next step. *)
Lemma in_step_next s e labels s' e' labels' :
  in_step s e labels ->
  update_exemplars s = Ok s' ->
  exemplars s' = Some e' ->
  Z.of_nat (length e') = n_known_classes s ->
  nth_error (splitter s) (Z.to_nat (current_step s + 1)) = Some labels' ->
  Z.of_nat (length labels') = classes_per_group s ->
  in_step (step s') e' labels'.
Proof.
  intros [H1 H2 H3 H4 H5 H6 H7 H8 H9] Hup He' Hlen Hlabels Hsize.
  apply update_exemplars_effect in Hup.
  destruct Hup as ([Hself Hcs Hnk _ _ _ _] & _).
  constructor; simpl; rewrite ?Hself, ?Hcs, ?Hnk; auto; lia.
Qed.

End ProtocolFacts.

(** ** Exemplar updates on concrete sessions *)

Lemma demo_sample_contract : sample_contract (C := Demo.collaborators).
Proof.
  intros g n k Hk. simpl. rewrite length_seq. split; [reflexivity|].
  rewrite Forall_forall. intros i Hi. apply in_seq in Hi. lia.
Qed.

Lemma demo_loadable (s : @Session Demo.collaborators) (label : Z) :
  BATCH_SIZE (train_params s) = 2%Z -> loadable s label.
Proof. intros H. split; [rewrite H; lia | discriminate]. Qed.

(** ** Further facts about the shared tensor and the class mean *)

(** In the concrete session the rows appended by both growths are the
    weights as trained during the first step, not the values drawn at
    construction: [init_weights] names the first head's weight object. *)
Lemma appended_rows_are_trained_weights :
  forall a, In a (snd DemoRuns.after_three) ->
            a <> read (heap DemoRuns.fresh) (init_weights DemoRuns.fresh).
Proof.
  intros a Ha Heq. subst a. vm_compute in Ha.
  destruct Ha as [Ha | [Ha | []]]; injection Ha; intros; lra.
Qed.

(** The mean that the selection uses always has equal components. *)
Lemma label_mean_constant {I : Type} (d : Z) (feat : I -> Vec)
    (dataloader : list (list (I * Z))) features label_mean :
  get_features_representation d feat dataloader = Ok (features, label_mean) ->
  exists c, label_mean = repeat c (Z.to_nat d).
Proof.
  intros H. destruct dataloader as [|b rest]; [discriminate|].
  rewrite get_features_representation_ok in H by discriminate.
  injection H as _ <-. rewrite map_repeat. eexists. reflexivity.
Qed.

(** * Further properties of the code *)

(** X1: no parameter set of [get_params] can be handed to the learner as it
    is: whatever the method name, the approach dictionary lacks
    ["use_cosine"] and ["exemplars_selection"], and has every other key
    that the learner reads. *)
Theorem get_params_misses_two_keys (method k : string) :
  In k keys_read_by_learner ->
  (dict_get (snd (get_params method)) k = None
   <-> k = "use_cosine"%string \/ k = "exemplars_selection"%string).
Proof.
  intros Hk. unfold get_params.
  destruct (String.eqb method "FINETUNING");
    [|destruct (String.eqb method "LWF");
      [|destruct (String.eqb method "ICARL")]];
    cbn [snd]; simpl in Hk;
    repeat (destruct Hk as [<-|Hk];
            [vm_compute; split;
             [intros H; (discriminate H || auto)
             |intros [H|H]; (discriminate H || reflexivity)]|]);
    destruct Hk.
Qed.

(** X2: the two column slices that [train] takes of a batch of logits, the
    distillation input [x[:, :-n]] and the classification input
    [x[:, -n:]], split every row in two: no column is used twice, none is
    left out, whatever [n]. *)
Theorem signal_columns_partition (n : Z) (x : Matrix) :
  map (fun p => fst p ++ snd p)
      (combine (drop_last_cols n x) (last_cols n x)) = x.
Proof.
  unfold drop_last_cols, last_cols.
  induction x as [|row x IH]; simpl; [reflexivity|].
  rewrite IH. f_equal. unfold Py.slice_to, Py.slice_from.
  apply firstn_skipn.
Qed.

Section GrowthFacts.

Context {C : Collaborators}.

(** The whole result of a head growth. *)
Lemma update_nets_layout (s : Session) :
  (current_step s > 0)%Z ->
  (0 <= n_known_classes s)%Z ->
  (net_loc s < next (heap s))%nat ->
  (init_weights s < next (heap s))%nat ->
  exists s',
    update_nets s = Ok s'
    /\ exemplars s' = exemplars s
    /\ optimizer s' = SGD (train_params s)
    /\ body (net s') = body (net s)
    /\ in_features (fc (net s')) = in_features (fc (net s))
    /\ out_features (fc (net s')) = n_known_classes s
    /\ (if use_cosine s
        then sigma (fc (net s')) = sigma (fc (net s))
             /\ bias (fc (net s')) = None
        else sigma (fc (net s')) = None
             /\ bias (fc (net s')) =
                Some (fst (fresh_bias
                             (snd (fresh_weight (torch_rng s)
                                     (n_known_classes s)
                                     (in_features (fc (net s)))))
                             (n_known_classes s))))
    /\ (if use_distillation s
        then exists p,
               prev_net s' = Some p
               /\ body p = body (net s)
               /\ bias (fc p) = bias (fc (net s))
               /\ sigma (fc p) = sigma (fc (net s))
               /\ read (heap s') (weight (fc p)) = head_weight s
               /\ weight (fc p) <> net_loc s'
               /\ (next (heap s) <= weight (fc p) < next (heap s'))%nat
               /\ (forall l, ft_loc s' = Some l -> use_variation s = true ->
                             weight (fc p) <> l)
        else prev_net s' = prev_net s)
    /\ (if use_variation s
        then exists f,
               ft_net s' = Some f
               /\ ft_optimizer s' = Some (SGD (train_params s))
               /\ read (heap s') (weight (fc f)) = head_weight s'
               /\ weight (fc f) <> net_loc s'
               /\ (next (heap s) <= weight (fc f) < next (heap s'))%nat
        else ft_net s' = ft_net s /\ ft_optimizer s' = ft_optimizer s).
Proof.
  intros Hs Hk Hnet Hini. unfold update_nets.
  destruct (Z.gtb_spec (current_step s) 0); [|lia].
  unfold nn_Linear, CosineLayer, deepcopy, alloc.
  destruct (Z.ltb_spec (n_known_classes s) 0) as [Hneg|_].
  { exfalso. lia. }
  unfold net_loc, head_weight in *.
  destruct (use_distillation s) eqn:Ed; simpl;
    (destruct (Z.ltb_spec (n_known_classes s) 0); [lia|]);
    destruct (fresh_weight (torch_rng s) (n_known_classes s)
                (in_features (fc (net s)))) as [w g1] eqn:Ew;
    destruct (use_cosine s) eqn:Ec; simpl;
    match goal with
    | |- context [fresh_sigma ?g] =>
        destruct (fresh_sigma g) as [sg g2] eqn:Es
    | |- context [fresh_bias ?g ?n] =>
        destruct (fresh_bias g n) as [b g2] eqn:Eb
    end;
    simpl; destruct (use_variation s) eqn:Ev; simpl;
    (eexists; split; [reflexivity|]);
    unfold ft_loc, read, write; simpl; rewrite ?Nat.eqb_refl;
    repeat match goal with
      | |- _ /\ _ => split
      | |- exists _, _ => eexists
      end;
    try reflexivity; simpl; unfold read; simpl; rewrite ?Nat.eqb_refl;
    try lia;
    try (intros l Hl _; injection Hl as <-; simpl; lia);
    eqb_cases; try reflexivity; try lia; try congruence.
Qed.

Lemma init_nets_none nc ng seed ap tp g r s :
  init nc ng seed ap tp g r = Ok s ->
  prev_net s = None /\ ft_net s = None /\ ft_optimizer s = None.
Proof.
  unfold init. intros H.
  apply bind_ok in H. destruct H as (cpg & _ & H).
  apply bind_ok in H. destruct H as (ls & _ & H).
  destruct (if ap_use_cosine ap then cosine_resnet32 else resnet32)
    as [bb width].
  apply bind_ok in H. destruct H as ([[hd h1] g1] & _ & H).
  destruct (kaiming_normal g1 cpg width) as [w0 g2].
  injection H as <-. repeat split; reflexivity.
Qed.

(** Only [update_nets] replaces the snapshot. *)
Lemma call_keeps_prev c s s' :
  call c s = Ok s' -> c <> CUpdateNets -> prev_net s' = prev_net s.
Proof.
  destruct c; cbn [call]; intros H Hc; try congruence.
  - now injection H as <-.
  - unfold train in H.
    apply bind_ok in H. destruct H as (ratio & _ & H).
    apply bind_ok in H. destruct H as (n & _ & H).
    eapply (repeat_m_preserves (fun x => prev_net x = prev_net s));
      [|exact H|reflexivity].
    intros x x' Hep Hx. unfold train_epoch in Hep.
    apply bind_ok in Hep. destruct Hep as (y & Hy & Hep).
    injection Hep as <-. simpl.
    eapply (for_each_preserves (fun z => prev_net z = prev_net s));
      [|exact Hy|exact Hx].
    intros b z z' Hb Hz. unfold train_batch in Hb.
    destruct b as [images labels].
    destruct (forward true _ images) as [output features].
    apply bind_ok in Hb. destruct Hb as (sig & _ & Hb).
    destruct (sgd_step _ _ _ _ _ _) as [o v].
    injection Hb as <-. exact Hz.
  - unfold train_ft in H. destruct (use_variation s);
      [|now injection H as <-].
    apply bind_ok in H. destruct H as (n & _ & H).
    eapply (repeat_m_preserves (fun x => prev_net x = prev_net s));
      [|exact H|reflexivity].
    intros x x' Hep Hx. unfold train_ft_epoch in Hep.
    apply bind_ok in Hep. destruct Hep as (y & Hy & Hep).
    assert (Hyx : prev_net y = prev_net s).
    { eapply (for_each_preserves (fun z => prev_net z = prev_net s));
        [|exact Hy|exact Hx].
      intros b z z' Hb Hz. unfold train_ft_batch in Hb.
      destruct b as [images labels].
      apply bind_ok in Hb. destruct Hb as (ft & _ & Hb).
      apply bind_ok in Hb. destruct Hb as (opt & _ & Hb).
      apply bind_ok in Hb. destruct Hb as (crit & _ & Hb).
      destruct (sgd_step _ _ _ _ _ _) as [o v].
      injection Hb as <-. exact Hz. }
    destruct (ft_optimizer y); [|discriminate].
    injection Hep as <-. exact Hyx.
  - unfold update_exemplars in H. destruct (use_exemplars s);
      [|now injection H as <-].
    apply bind_ok in H. destruct H as (m & _ & H).
    apply bind_ok in H. destruct H as (labels & _ & H).
    apply bind_ok in H. destruct H as (e & _ & H).
    apply bind_ok in H. destruct H as (e1 & _ & H).
    apply bind_ok in H. destruct H as ([exs g] & _ & H).
    now injection H as <-.
Qed.

(** What a call other than [update_nets] does to the parameter objects:
    their identities stay, and only the main head's weight (for [train])
    or the fine-tuned head's weight (for [train_ft]) is written. *)
Lemma call_objects c s s' :
  call c s = Ok s' -> c <> CUpdateNets ->
  self s' = self s
  /\ net_loc s' = net_loc s
  /\ ft_loc s' = ft_loc s
  /\ prev_net s' = prev_net s
  /\ (forall l, l <> net_loc s -> ft_loc s <> Some l ->
                read (heap s') l = read (heap s) l).
Proof.
  intros H Hc. pose proof (call_keeps_prev c s s' H Hc) as Hprev.
  destruct c; cbn [call] in H; try congruence.
  - injection H as <-. repeat split; auto.
  - apply train_effect in H. destruct H as [[H1 H2 H3 H4 H5 H6 H7] _].
    repeat split; auto; intros l Hl _; apply H7; congruence.
  - apply train_ft_effect in H. destruct H as ([H1 H2 H3 H4 H5 H6 H7] & _).
    repeat split; auto.
  - apply update_exemplars_effect in H.
    destruct H as ([H1 H2 H3 H4 H5 H6 H7] & _ & _ & Hheap).
    repeat split; auto; intros l _ _; now rewrite Hheap.
Qed.

Lemma run_objects calls : forall s s',
  run calls s = Ok s' ->
  (forall c, In c calls -> c <> CUpdateNets) ->
  self s' = self s
  /\ net_loc s' = net_loc s
  /\ ft_loc s' = ft_loc s
  /\ prev_net s' = prev_net s
  /\ (forall l, l <> net_loc s -> ft_loc s <> Some l ->
                read (heap s') l = read (heap s) l).
Proof.
  unfold run. induction calls as [|c rest IH]; simpl; intros s s' H Hno.
  - injection H as <-. repeat split; auto.
  - apply bind_ok in H. destruct H as (s1 & H1 & H).
    destruct (call_objects c s s1 H1 (Hno c (or_introl eq_refl)))
      as (A1 & A2 & A3 & A4 & A5).
    destruct (IH s1 s' H (fun x Hx => Hno x (or_intror Hx)))
      as (B1 & B2 & B3 & B4 & B5).
    repeat split; try congruence.
    intros l Hl Hft. rewrite B5, A5; congruence.
Qed.

(** The layout lemma at a state reached from [__init__]. *)
Lemma reachable_growth nc ng seed ap tp g r s0 calls s :
  init nc ng seed ap tp g r = Ok s0 ->
  run calls s0 = Ok s ->
  (current_step s > 0)%Z ->
  wf s
  /\ (0 <= n_known_classes s)%Z
  /\ (use_variation s = false -> ft_net s = None).
Proof.
  intros Hinit Hrun Hs.
  pose proof (init_wf _ _ _ _ _ _ _ _ Hinit) as Hwf0.
  pose proof (run_wf _ _ _ Hrun Hwf0) as Hwf.
  split; [exact Hwf|]. split; [now apply wf_known_nonneg|].
  intros Hv. destruct (run_counters _ _ _ Hrun) as (Hself & _ & _).
  apply init_ok in Hinit.
  destruct Hinit as (_ & _ & _ & _ & _ & _ & _ & _ & Hf & _).
  eapply run_ft_none; eauto. now rewrite <- Hself.
Qed.

(** X3: the snapshot taken by a head growth holds the old head's weights in
    an object of its own, and stays as it is through every later call of
    [step], [train], [train_ft] and [update_exemplars]: only the next
    [update_nets] replaces it. *)
Theorem snapshot_is_frozen nc ng seed ap tp g r s0 calls s :
  init nc ng seed ap tp g r = Ok s0 ->
  run calls s0 = Ok s ->
  (current_step s > 0)%Z ->
  use_distillation s = true ->
  exists s1 p,
    update_nets s = Ok s1
    /\ prev_net s1 = Some p
    /\ body p = body (net s)
    /\ bias (fc p) = bias (fc (net s))
    /\ sigma (fc p) = sigma (fc (net s))
    /\ read (heap s1) (weight (fc p)) = head_weight s
    /\ forall later s2,
         (forall c, In c later -> c <> CUpdateNets) ->
         run later s1 = Ok s2 ->
         prev_net s2 = Some p
         /\ read (heap s2) (weight (fc p)) = head_weight s.
Proof.
  intros Hinit Hrun Hs Hd.
  destruct (reachable_growth _ _ _ _ _ _ _ _ _ _ Hinit Hrun Hs)
    as (Hwf & Hk & Hnone).
  destruct (update_nets_layout s Hs Hk (wf_net s Hwf) (wf_init s Hwf))
    as (s1 & E & _ & _ & _ & _ & _ & _ & Hprev & Hft).
  rewrite Hd in Hprev.
  destruct Hprev as (p & Hp & Hb & Hbias & Hsig & Hread & Hnet & _ & Hsep).
  exists s1, p. repeat (split; [assumption|]).
  intros later s2 Hno Hlater.
  destruct (run_objects later s1 s2 Hlater Hno) as (_ & _ & _ & Hp2 & Hrd).
  split; [congruence|]. rewrite Hrd; [exact Hread | exact Hnet |].
  intros Hl. destruct (use_variation s) eqn:Ev.
  - now apply (Hsep _ Hl).
  - destruct Hft as [Hft _]. unfold ft_loc in Hl.
    rewrite Hft, (Hnone eq_refl) in Hl. discriminate.
Qed.

(** X4: what a head growth does to the head's other parameters: the feature
    width stays, the output width becomes [n_known_classes], a cosine
    head keeps its learned scale, and a linear head gets a bias drawn
    afresh, whatever the old head's bias was. *)
Theorem growth_keeps_scale_redraws_bias nc ng seed ap tp g r s0 calls s :
  init nc ng seed ap tp g r = Ok s0 ->
  run calls s0 = Ok s ->
  (current_step s > 0)%Z ->
  exists s1,
    update_nets s = Ok s1
    /\ in_features (fc (net s1)) = in_features (fc (net s))
    /\ out_features (fc (net s1)) = n_known_classes s
    /\ (use_cosine s = true ->
        sigma (fc (net s1)) = sigma (fc (net s))
        /\ bias (fc (net s1)) = None)
    /\ (use_cosine s = false ->
        sigma (fc (net s1)) = None
        /\ bias (fc (net s1)) =
           Some (fst (fresh_bias
                        (snd (fresh_weight (torch_rng s)
                                (n_known_classes s)
                                (in_features (fc (net s)))))
                        (n_known_classes s)))).
Proof.
  intros Hinit Hrun Hs.
  destruct (reachable_growth _ _ _ _ _ _ _ _ _ _ Hinit Hrun Hs)
    as (Hwf & Hk & _).
  destruct (update_nets_layout s Hs Hk (wf_net s Hwf) (wf_init s Hwf))
    as (s1 & E & _ & _ & _ & Hin & Hout & Hhead & _).
  exists s1. repeat (split; [assumption|]).
  destruct (use_cosine s); split; intros Hc; (discriminate || exact Hhead).
Qed.

(** X5: after a head growth with variation the fine-tuned model starts as a
    copy of the grown network in an object of its own: [train_ft] leaves
    the main network and its head weights as they are, and [train] leaves
    the fine-tuned head's weights as they are. *)
Theorem fine_tuning_is_isolated nc ng seed ap tp g r s0 calls s :
  init nc ng seed ap tp g r = Ok s0 ->
  run calls s0 = Ok s ->
  (current_step s > 0)%Z ->
  use_variation s = true ->
  exists s1 f,
    update_nets s = Ok s1
    /\ ft_net s1 = Some f
    /\ read (heap s1) (weight (fc f)) = head_weight s1
    /\ (forall dataloader s2,
          train_ft dataloader s1 = Ok s2 ->
          net s2 = net s1 /\ head_weight s2 = head_weight s1)
    /\ (forall dataloader s2,
          train dataloader s1 = Ok s2 ->
          ft_net s2 = Some f
          /\ read (heap s2) (weight (fc f)) = head_weight s1).
Proof.
  intros Hinit Hrun Hs Hv.
  destruct (reachable_growth _ _ _ _ _ _ _ _ _ _ Hinit Hrun Hs)
    as (Hwf & Hk & _).
  destruct (update_nets_layout s Hs Hk (wf_net s Hwf) (wf_init s Hwf))
    as (s1 & E & _ & _ & _ & _ & _ & _ & _ & Hft).
  rewrite Hv in Hft. destruct Hft as (f & Hf & _ & Hread & Hsep & _).
  exists s1, f. repeat (split; [assumption|]). split.
  - intros dataloader s2 H. apply train_ft_effect in H.
    destruct H as ([H1 H2 H3 H4 H5 H6 H7] & Hnet & _).
    split; [exact Hnet|]. unfold head_weight. rewrite Hnet.
    apply H7. unfold ft_loc. rewrite Hf. simpl.
    intros Hl. injection Hl as Hl. apply Hsep. exact Hl.
  - intros dataloader s2 H. apply train_effect in H.
    destruct H as ([H1 H2 H3 H4 H5 H6 H7] & Hkeep).
    split; [congruence|]. rewrite H7; [exact Hread|].
    intros Hl. apply Hsep. congruence.
Qed.

(** X6: [init_weights] is the first head's own weight object, so as long as
    no growth has happened the rows that a growth would append are the
    head's current, trained rows: the first growth doubles the weight
    matrix of the first head. *)
Theorem first_growth_doubles_trained_rows nc ng seed ap tp g r s0 calls s :
  init nc ng seed ap tp g r = Ok s0 ->
  run calls s0 = Ok s ->
  (forall c, In c calls -> c <> CUpdateNets) ->
  (current_step s > 0)%Z ->
  exists s1,
    update_nets s = Ok s1
    /\ head_weight s1 = head_weight s ++ head_weight s.
Proof.
  intros Hinit Hrun Hno Hs.
  destruct (reachable_growth _ _ _ _ _ _ _ _ _ _ Hinit Hrun Hs)
    as (Hwf & Hk & _).
  destruct (update_nets_grows s Hs Hk (wf_net s Hwf) (wf_init s Hwf))
    as (s1 & E & _ & _ & _ & Hhw & _).
  exists s1. split; [exact E|]. rewrite Hhw. unfold cat. f_equal.
  destruct (run_objects calls s0 s Hrun Hno) as (Hself & Hloc & _).
  apply init_ok in Hinit.
  destruct Hinit as (_ & _ & _ & _ & _ & _ & _ & _ & _ & Hi & _).
  unfold head_weight. rewrite Hself. unfold net_loc in Hloc.
  now rewrite Hloc, Hi.
Qed.

End GrowthFacts.

Section OrderFacts.

Context {C : Collaborators}.

(** The counters at a state reached from [__init__]. *)
Lemma reachable_counters nc ng seed ap tp g r s0 calls s :
  init nc ng seed ap tp g r = Ok s0 ->
  run calls s0 = Ok s ->
  self s = self s0
  /\ classes_per_group s = (nc / ng)%Z
  /\ (0 <= nc / ng)%Z
  /\ current_step s = (Z.of_nat (count_steps calls) - 1)%Z
  /\ n_known_classes s = (Z.of_nat (count_steps calls) * (nc / ng))%Z.
Proof.
  intros Hinit Hrun.
  destruct (run_counters _ _ _ Hrun) as (Hself & Hcs & Hnk).
  apply init_ok in Hinit.
  destruct Hinit as (_ & Hc & _ & _ & _ & _ & Hs & Hk & _ & _ & _ & Hq).
  rewrite Hself, Hcs, Hnk, Hs, Hk, Hc. rewrite Hc in Hq.
  repeat split; auto; lia.
Qed.

(** X7: [train] divides by [n_known_classes] before anything else: called
    before the first [step], or in a session whose groups are empty
    ([num_classes // num_groups = 0]), it raises [ZeroDivisionError]
    whatever the data. *)
Theorem train_before_step_raises nc ng seed ap tp g r s0 calls s :
  init nc ng seed ap tp g r = Ok s0 ->
  run calls s0 = Ok s ->
  count_steps calls = 0%nat \/ (nc / ng = 0)%Z ->
  forall dataloader, train dataloader s = Raise ZeroDivisionError.
Proof.
  intros Hinit Hrun Hzero dataloader.
  destruct (reachable_counters _ _ _ _ _ _ _ _ _ _ Hinit Hrun)
    as (_ & _ & _ & _ & Hnk).
  assert (Hk : n_known_classes s = 0%Z) by (destruct Hzero; nia).
  unfold train, truediv. rewrite Hk. reflexivity.
Qed.

(** X8: [update_exemplars] computes the quota [K // n_known_classes] first:
    with exemplars enabled it raises [ZeroDivisionError] before the first
    [step] or when the groups are empty. *)
Theorem update_exemplars_before_step_raises nc ng seed ap tp g r s0 calls s :
  init nc ng seed ap tp g r = Ok s0 ->
  run calls s0 = Ok s ->
  ap_use_exemplars ap = true ->
  count_steps calls = 0%nat \/ (nc / ng = 0)%Z ->
  update_exemplars s = Raise ZeroDivisionError.
Proof.
  intros Hinit Hrun Hex Hzero.
  destruct (reachable_counters _ _ _ _ _ _ _ _ _ _ Hinit Hrun)
    as (Hself & _ & _ & _ & Hnk).
  assert (Hk : n_known_classes s = 0%Z) by (destruct Hzero; nia).
  apply init_ok in Hinit.
  destruct Hinit as (_ & _ & _ & _ & _ & Hu & _).
  unfold update_exemplars, Py.floordiv. rewrite Hself, Hu, Hex, Hk.
  reflexivity.
Qed.

(** X9: a session built without exemplars never stores any: through every
    sequence of calls the memory stays [None], and [update_exemplars]
    returns the session unchanged. *)
Theorem without_exemplars_nothing_is_stored nc ng seed ap tp g r s0 calls s :
  init nc ng seed ap tp g r = Ok s0 ->
  ap_use_exemplars ap = false ->
  run calls s0 = Ok s ->
  exemplars s = None /\ update_exemplars s = Ok s.
Proof.
  intros Hinit Hex Hrun.
  destruct (init_exemplars _ _ _ _ _ _ _ _ Hinit) as [He _].
  rewrite Hex in He.
  apply init_ok in Hinit.
  destruct Hinit as (_ & _ & _ & _ & _ & Hu & _). rewrite Hex in Hu.
  assert (Hnoop : forall x : Session,
             use_exemplars x = false -> update_exemplars x = Ok x).
  { intros x Hx. unfold update_exemplars. now rewrite Hx. }
  assert (Hinv : use_exemplars s = false /\ exemplars s = None).
  { unfold run in Hrun.
    eapply (for_each_preserves
              (fun x : Session =>
                 use_exemplars x = false /\ exemplars x = None));
      [|exact Hrun|now split].
    intros c x x' Hc [Hx1 Hx2].
    destruct (call_counters _ _ _ Hc) as (Hself & _ & _).
    split; [now rewrite Hself|].
    destruct c;
      try (rewrite (training_keeps_exemplars _ _ _ Hc); [exact Hx2|];
           discriminate).
    simpl in Hc. rewrite (Hnoop x Hx1) in Hc. now injection Hc as <-. }
  destruct Hinv as [H1 H2]. split; [exact H2 | now apply Hnoop].
Qed.

(** X10: on a later step [train] needs the snapshot that only [update_nets]
    makes: in a session with distillation, if [update_nets] was never
    called, [train] on the second or a later step raises
    [AttributeError]. *)
Theorem train_without_update_nets_raises nc ng seed ap tp g r s0 calls s :
  init nc ng seed ap tp g r = Ok s0 ->
  run calls s0 = Ok s ->
  (forall c, In c calls -> c <> CUpdateNets) ->
  ap_use_distillation ap = true ->
  (2 <= count_steps calls)%nat ->
  (nc / ng <> 0)%Z ->
  forall dataloader, train dataloader s = Raise AttributeError.
Proof.
  intros Hinit Hrun Hno Hd Hsteps Hq dataloader.
  destruct (reachable_counters _ _ _ _ _ _ _ _ _ _ Hinit Hrun)
    as (Hself & _ & Hpos & Hcs & Hnk).
  destruct (run_objects calls s0 s Hrun Hno) as (_ & _ & _ & Hprev & _).
  destruct (init_nets_none _ _ _ _ _ _ _ _ Hinit) as (Hp0 & _).
  apply init_ok in Hinit.
  destruct Hinit as (_ & _ & _ & Hud & _).
  unfold train, truediv.
  destruct (Z.eqb_spec (n_known_classes s) 0); [nia|]. cbn [bind].
  destruct (Z.gtb_spec (current_step s) 0); [|lia].
  rewrite Hself, Hud, Hd, Hprev, Hp0. reflexivity.
Qed.

Lemma run_ft_none_early calls : forall s s',
  run calls s = Ok s' ->
  ft_net s = None ->
  (current_step s + Z.of_nat (count_steps calls) <= 0)%Z ->
  ft_net s' = None.
Proof.
  unfold run. induction calls as [|c rest IH]; simpl; intros s s' H Hf Hle.
  - now injection H as <-.
  - apply bind_ok in H. destruct H as (s1 & H1 & H).
    destruct (call_counters _ _ _ H1) as (_ & Hcs & _).
    assert (Hn : count_steps (c :: rest)
                 = (count_steps [c] + count_steps rest)%nat).
    { unfold count_steps. simpl. destruct c; reflexivity. }
    rewrite Hn in Hle.
    apply (IH s1 s' H); [|lia].
    destruct c; cbn [call] in H1.
    + now injection H1 as <-.
    + rewrite update_nets_idle in H1 by lia. now injection H1 as <-.
    + apply train_effect in H1. destruct H1 as [_ H1]. congruence.
    + apply train_ft_effect in H1.
      destruct H1 as ([_ _ _ _ H5 _ _] & _). unfold ft_loc in H5.
      rewrite Hf in H5. destruct (ft_net s1); [discriminate|reflexivity].
    + apply update_exemplars_effect in H1.
      destruct H1 as (_ & _ & H1 & _). congruence.
Qed.

(** X11: the fine-tuned model exists only once [update_nets] has grown the
    head: on the first step of a session with variation [train_ft]
    raises [AttributeError]. *)
Theorem train_ft_first_step_raises nc ng seed ap tp g r s0 calls s :
  init nc ng seed ap tp g r = Ok s0 ->
  run calls s0 = Ok s ->
  (count_steps calls <= 1)%nat ->
  ap_use_distillation ap = true ->
  ap_use_variation ap = true ->
  forall dataloader, train_ft dataloader s = Raise AttributeError.
Proof.
  intros Hinit Hrun Hsteps Hd Hv dataloader.
  destruct (run_counters _ _ _ Hrun) as (Hself & _ & _).
  assert (Hnone : ft_net s = None).
  { destruct (init_nets_none _ _ _ _ _ _ _ _ Hinit) as (_ & Hf0 & _).
    apply (run_ft_none_early calls s0 s Hrun Hf0).
    apply init_ok in Hinit.
    destruct Hinit as (_ & _ & _ & _ & _ & _ & Hs & _). rewrite Hs. lia. }
  apply init_ok in Hinit.
  destruct Hinit as (_ & _ & _ & _ & Huv & _).
  unfold train_ft. rewrite Hself, Huv, Hd, Hv, Hnone. reflexivity.
Qed.

(** ** [train] returns *)

Lemma for_each_total {A S : Type} (P : S -> Prop)
    (body : A -> S -> result S) (xs : list A) :
  (forall x s, P s -> exists s', body x s = Ok s' /\ P s') ->
  forall s, P s -> exists s', for_each xs body s = Ok s' /\ P s'.
Proof.
  intros Hbody. induction xs as [|x rest IH]; intros s Hs; simpl.
  - eauto.
  - destruct (Hbody x s Hs) as (s1 & E & H1). rewrite E. simpl. eauto.
Qed.

Lemma repeat_m_total {S : Type} (P : S -> Prop) (body : S -> result S)
    (n : nat) :
  (forall s, P s -> exists s', body s = Ok s' /\ P s') ->
  forall s, P s -> exists s', repeat_m n body s = Ok s' /\ P s'.
Proof.
  intros Hbody. induction n as [|n IH]; intros s Hs; simpl.
  - eauto.
  - destruct (Hbody s Hs) as (s1 & E & H1). rewrite E. simpl. eauto.
Qed.

Lemma train_batch_ok ratio batch (s : Session) :
  nets_ready s ->
  exists s', train_batch ratio batch s = Ok s'
             /\ nets_ready s'
             /\ current_step s' = current_step s
             /\ n_known_classes s' = n_known_classes s.
Proof.
  intros (Hk & Hprev & Hft). unfold train_batch.
  destruct batch as [images labels].
  destruct (forward true _ images) as [output features].
  assert (Hsig : exists sig,
             batch_signals s images
               (transform_labels_onehot labels (n_known_classes s))
               output features = Ok sig).
  { unfold batch_signals.
    destruct (use_distillation s) eqn:Ed; [|eexists; reflexivity].
    destruct (Z.gtb_spec (current_step s) 0) as [Hs|Hs];
      [|eexists; reflexivity].
    cbn [andb].
    destruct (Hprev eq_refl ltac:(lia)) as (p & Hp). rewrite Hp.
    destruct (use_cosine s); cbn [negb bind call_net].
    - destruct (forward false _ images). eexists. reflexivity.
    - destruct (use_variation s) eqn:Ev.
      + destruct (Hft eq_refl eq_refl ltac:(lia)) as (f & Hf).
        rewrite Hf. cbn [bind call_net].
        destruct (forward false (learnable (heap s) p) images).
        eexists. reflexivity.
      + cbn [bind]. destruct (forward false _ images).
        eexists. reflexivity. }
  destruct Hsig as (sig & ->). cbn [bind].
  destruct (sgd_step _ _ _ _ _ _) as [o v]. unfold update_in_place.
  eexists. split; [reflexivity|]. simpl.
  repeat split; auto.
Qed.

Lemma train_ok dataloader (s : Session) :
  nets_ready s ->
  exists s', train dataloader s = Ok s'
             /\ nets_ready s'
             /\ current_step s' = current_step s
             /\ n_known_classes s' = n_known_classes s.
Proof.
  intros Hready. pose proof Hready as (Hk & Hprev & Hft).
  unfold train, truediv.
  destruct (Z.eqb_spec (n_known_classes s) 0); [contradiction|].
  cbn [bind].
  assert (Hpre : exists n,
             (if (current_step s >? 0)%Z
              then if use_distillation s
                   then _ <- cuda (prev_net s) ;;
                        (if use_variation s then cuda (ft_net s)
                         else Ok (net s))
                   else Ok (net s)
              else Ok (net s)) = Ok n).
  { destruct (Z.gtb_spec (current_step s) 0) as [Hs|Hs]; [|eauto].
    destruct (use_distillation s) eqn:Ed; [|eauto].
    destruct (Hprev eq_refl ltac:(lia)) as (p & ->). cbn [cuda bind].
    destruct (use_variation s) eqn:Ev; [|eauto].
    destruct (Hft eq_refl eq_refl ltac:(lia)) as (f & ->). simpl. eauto. }
  destruct Hpre as (n0 & ->). cbn [bind].
  set (P := fun x : Session =>
              nets_ready x /\ current_step x = current_step s
              /\ n_known_classes x = n_known_classes s).
  destruct (repeat_m_total P
              (train_epoch (IZR (classes_per_group s)
                            / IZR (n_known_classes s)) dataloader)
              (Py.range_len (NUM_EPOCHS (train_params s))))
    with (s := s) as (s' & E & HP).
  - intros x (Hx & Hxs & Hxk). unfold train_epoch.
    destruct (for_each_total P
                (train_batch (IZR (classes_per_group s)
                              / IZR (n_known_classes s)))
                dataloader) with (s := x) as (y & Ey & Hy & Hys & Hyk).
    + intros b z (Hz & Hzs & Hzk).
      destruct (train_batch_ok
                  (IZR (classes_per_group s) / IZR (n_known_classes s))%R
                  b z Hz) as (z' & Ez & Hz' & Hs' & Hk').
      exists z'. split; [exact Ez|]. split; [exact Hz'|].
      split; congruence.
    + split; [exact Hx|]. split; assumption.
    + rewrite Ey. cbn [bind]. eexists. split; [reflexivity|].
      destruct Hy as (Y1 & Y2 & Y3).
      split; [|split; assumption]. repeat split; assumption.
  - split; [exact Hready|]. split; reflexivity.
  - exists s'. split; [exact E|]. exact HP.
Qed.

(** X12: in protocol order the main training runs: at any state reached from
    [__init__] with at least one [step] made and non-empty groups,
    [update_nets] returns and [train] on its result returns, for every
    data loader, leaving the counters as they are. *)
Theorem growth_then_train_returns nc ng seed ap tp g r s0 calls s :
  init nc ng seed ap tp g r = Ok s0 ->
  run calls s0 = Ok s ->
  (1 <= count_steps calls)%nat ->
  (nc / ng <> 0)%Z ->
  forall dataloader,
  exists s1 s2,
    update_nets s = Ok s1
    /\ train dataloader s1 = Ok s2
    /\ current_step s2 = current_step s
    /\ n_known_classes s2 = n_known_classes s.
Proof.
  intros Hinit Hrun Hsteps Hq dataloader.
  destruct (reachable_counters _ _ _ _ _ _ _ _ _ _ Hinit Hrun)
    as (Hself & _ & Hpos & Hcs & Hnk).
  assert (Hk : n_known_classes s <> 0%Z) by nia.
  destruct (Z_gt_le_dec (current_step s) 0) as [Hs|Hs].
  - destruct (reachable_growth _ _ _ _ _ _ _ _ _ _ Hinit Hrun Hs)
      as (Hwf & Hk0 & _).
    destruct (update_nets_layout s Hs Hk0 (wf_net s Hwf) (wf_init s Hwf))
      as (s1 & E & _ & _ & _ & _ & _ & _ & Hprev & Hft).
    destruct (update_nets_grows s Hs Hk0 (wf_net s Hwf) (wf_init s Hwf))
      as (s1' & E' & Hself1 & Hcs1 & Hnk1 & _).
    rewrite E in E'. injection E' as <-.
    destruct (train_ok dataloader s1) as (s2 & E2 & _ & Hcs2 & Hnk2).
    { split; [congruence|]. rewrite Hself1. split.
      - intros Hd _. rewrite Hd in Hprev.
        destruct Hprev as (p & Hp & _). eauto.
      - intros _ Hv _. rewrite Hv in Hft.
        destruct Hft as (f & Hf & _). eauto. }
    exists s1, s2. repeat split; congruence.
  - rewrite (update_nets_idle s Hs).
    destruct (train_ok dataloader s) as (s2 & E2 & _ & Hcs2 & Hnk2).
    { split; [exact Hk|]. split; intros; lia. }
    exists s, s2. auto.
Qed.

End OrderFacts.

(** ** More on the selection *)

Section SelectionFacts.

Local Open Scope R_scope.

(** X13: each herding pick is a best one: [get_closest_exemplar_idx] returns a
    position that is not taken yet and whose distance to the class mean
    is the least among the positions not taken yet. *)
Theorem closest_is_least_among_free (label_mean : Vec) (features : Matrix)
    (idx_taken : list nat) :
  sum_sq label_mean <= 1 ->
  NoDup idx_taken ->
  Forall (fun i => (i < length features)%nat) idx_taken ->
  (length idx_taken < length features)%nat ->
  exists idx,
    get_closest_exemplar_idx label_mean features idx_taken = Ok idx
    /\ (idx < length features)%nat
    /\ ~ In idx idx_taken
    /\ forall j, (j < length features)%nat -> ~ In j idx_taken ->
                 nth idx (raw_distances label_mean features) 0
                 <= nth j (raw_distances label_mean features) 0.
Proof.
  intros Hm Hnd Hall Hfree.
  assert (Hlen : length (raw_distances label_mean features)
                 = length features).
  { unfold raw_distances, F_normalize. now rewrite !length_map. }
  unfold get_closest_exemplar_idx.
  fold (raw_distances label_mean features).
  destruct (mask_ok idx_taken (raw_distances label_mean features))
    as (ds & E & Hlen' & Hin & Hout).
  { now rewrite Hlen. }
  rewrite E. cbn [bind].
  destruct (argmin_ok ds) as (r & Er & Hr & Hmin).
  { intros ->. simpl in Hlen'. lia. }
  assert (Hfresh : ~ In r idx_taken).
  { intros Hr_in.
    destruct (free_index idx_taken (length features) Hnd Hall Hfree)
      as (j & Hj & Hj_out).
    pose proof (Hmin j ltac:(lia)) as Hle.
    rewrite (Hin r Hr_in), (Hout j Hj_out) in Hle.
    pose proof (raw_distances_below label_mean features j Hm Hj). lra. }
  exists r. split; [exact Er|]. split; [lia|]. split; [exact Hfresh|].
  intros j Hj Hj_out.
  rewrite <- (Hout r Hfresh), <- (Hout j Hj_out). apply Hmin. lia.
Qed.

Lemma concat_batch_features {I : Type} (feat : I -> Vec)
    (dataloader : list (list (I * Z))) :
  concat (batch_features_of feat dataloader)
  = map (fun x => feat (fst x)) (concat dataloader).
Proof.
  induction dataloader as [|batch rest IH]; simpl; [reflexivity|].
  now rewrite map_app, IH.
Qed.

(** X14: the features returned by [get_features_representation] are the
    per-sample features, each divided by its (clamped) norm, one row per
    sample in the order of the data loader, so a row number is also the
    position of its sample in the dataset; every row has norm at most
    one. *)
Theorem features_follow_dataset_order {I : Type} (d : Z) (feat : I -> Vec)
    (dataloader : list (list (I * Z))) features label_mean :
  get_features_representation d feat dataloader = Ok (features, label_mean) ->
  features = map (fun x => normalize_row (feat (fst x))) (concat dataloader)
  /\ length features = length (concat dataloader)
  /\ Forall (fun row => sum_sq row <= 1) features.
Proof.
  intros H.
  assert (Hne : dataloader <> []) by (intros ->; discriminate H).
  rewrite (get_features_representation_ok d feat dataloader Hne) in H.
  injection H as <- _. unfold F_normalize.
  rewrite concat_batch_features, map_map. split; [reflexivity|].
  split; [now rewrite length_map|].
  rewrite Forall_forall. intros row Hrow. apply in_map_iff in Hrow.
  destruct Hrow as (x & <- & _). apply normalize_row_le.
Qed.

End SelectionFacts.

Lemma closest_is_least_among_free_witness :
  exists idx,
    get_closest_exemplar_idx [1; 0]%R [[1; 0]; [0; 1]; [1; 1]]%R [0%nat]
    = Ok idx
    /\ (idx < 3)%nat
    /\ ~ In idx [0%nat]
    /\ forall j, (j < 3)%nat -> ~ In j [0%nat] ->
         (nth idx (raw_distances [1; 0] [[1; 0]; [0; 1]; [1; 1]]) 0
          <= nth j (raw_distances [1; 0] [[1; 0]; [0; 1]; [1; 1]]) 0)%R.
Proof.
  apply (closest_is_least_among_free [1; 0]%R
           [[1; 0]; [0; 1]; [1; 1]]%R [0%nat]).
  - unfold sum_sq, vsum. simpl. lra.
  - constructor; [intros [] | constructor].
  - constructor; [simpl; lia | constructor].
  - simpl. lia.
Defined.

Lemma features_follow_dataset_order_witness :
  exists features label_mean,
    get_features_representation 2 (fun i : nat => [INR i; 1%R])
      [[(1%nat, 0%Z); (2%nat, 0%Z)]; [(3%nat, 0%Z)]]
    = Ok (features, label_mean)
    /\ features
       = map (fun x => normalize_row [INR (fst x); 1%R])
             [(1%nat, 0%Z); (2%nat, 0%Z); (3%nat, 0%Z)]
    /\ length features = 3%nat
    /\ Forall (fun row => (sum_sq row <= 1)%R) features.
Proof.
  eexists. eexists. split.
  - apply get_features_representation_ok. discriminate.
  - eapply (features_follow_dataset_order 2 (fun i : nat => [INR i; 1%R])
              [[(1%nat, 0%Z); (2%nat, 0%Z)]; [(3%nat, 0%Z)]]).
    apply get_features_representation_ok. discriminate.
Defined.

(** ** More on [update_exemplars] *)

Lemma slice_to_firstn {A : Type} (m : Z) (l : list A) :
  (0 <= m)%Z -> Py.slice_to m l = firstn (Z.to_nat m) l.
Proof.
  intros Hm. unfold Py.slice_to, Py.clamp.
  destruct (Z.ltb_spec m 0); [lia|].
  destruct (Nat.le_ge_cases (Z.to_nat m) (length l)) as [Hle|Hge].
  - now rewrite Nat.min_l.
  - rewrite Nat.min_r by exact Hge.
    now rewrite firstn_all, firstn_all2.
Qed.

Lemma map_m_getitem_incl {A : Type} (l : list A) (idx : list nat) :
  forall ys, map_m (Py.getitem l) idx = Ok ys -> incl ys l.
Proof.
  induction idx as [|i rest IH]; simpl; intros ys H.
  - injection H as <-. intros x [].
  - apply bind_ok in H. destruct H as (y & Hy & H).
    apply bind_ok in H. destruct H as (ys' & Hys & H).
    injection H as <-. intros x [<-|Hx]; [|now apply (IH ys')].
    unfold Py.getitem in Hy.
    destruct (nth_error l i) eqn:E; [|discriminate].
    injection Hy as <-. eapply nth_error_In; eauto.
Qed.

Section MemoryFacts.

Context {C : Collaborators}.

Lemma add_class_members (s : Session) (m : Z) (label : Z) exs g exs' g' :
  (0 <= m)%Z -> sample_contract ->
  add_class s m label (exs, g) = Ok (exs', g') ->
  exists set, exs' = exs ++ [set] /\ drawn_from s m label set.
Proof.
  intros Hm Hsample H.
  pose proof (add_class_inv s m label _ _ H) as [Hbs Hdata].
  unfold add_class in H.
  set (dataset := SubCIFAR (splitter s) label) in *.
  unfold DataLoader in H.
  destruct (Z.leb_spec (BATCH_SIZE (train_params s)) 0); [lia|].
  cbn [bind] in H.
  set (dl := chunks _ _ _) in H.
  assert (Hcat : concat dl = dataset).
  { subst dl. apply chunks_concat; lia. }
  assert (Hne : dl <> []).
  { subst dl. apply chunks_nonempty; [exact Hdata | lia]. }
  rewrite (get_features_representation_ok _ _ dl Hne) in H.
  cbn [bind] in H.
  set (mu := repeat _ _) in H. set (features := F_normalize _) in H.
  assert (Hlen : length features = length dataset).
  { subst features. unfold F_normalize.
    now rewrite length_map, concat_batch_features_length, Hcat. }
  set (num := Z.min m (Z.of_nat (length dataset))) in *.
  apply bind_ok in H. destruct H as ([idx g1] & Hidx & H).
  apply bind_ok in H. destruct H as (set & Hset & H).
  injection H as <- <-.
  exists set. split; [reflexivity|]. split.
  - eapply map_m_getitem_incl; eauto.
  - apply map_m_length in Hset. rewrite Hset.
    destruct (exemplars_selection (approach_params s)).
    + apply bind_ok in Hidx. destruct Hidx as (taken & Htaken & Hidx).
      injection Hidx as <- _.
      destruct (herding_select_ok (in_features (fc (net s))) num
                  (map (fun a => (a / norm mu)%R) mu) features)
        as (taken' & E & _ & Hcount & _); [subst num; lia|].
      rewrite E in Htaken. injection Htaken as <-.
      subst num. subst dataset. lia.
    + destruct (Z.ltb_spec num 0); [discriminate|].
      destruct (Hsample g (length dataset) (Z.to_nat num))
        as [Hk _]; [subst num; lia|].
      injection Hidx as Hidx. rewrite Hidx in Hk. simpl in Hk.
      subst num. subst dataset. lia.
Qed.

Lemma add_classes_members (s : Session) (m : Z) (labels : list Z) :
  (0 <= m)%Z -> sample_contract ->
  forall exs g exs' g',
    for_each labels (add_class s m) (exs, g) = Ok (exs', g') ->
    exists sets, exs' = exs ++ sets
                 /\ Forall2 (drawn_from s m) labels sets.
Proof.
  intros Hm Hsample. induction labels as [|l rest IH];
    intros exs g exs' g' H; simpl in H.
  - injection H as <- _. exists []. rewrite app_nil_r. auto.
  - apply bind_ok in H. destruct H as ([exs1 g1] & H1 & H).
    destruct (add_class_members s m l exs g exs1 g1 Hm Hsample H1)
      as (set & -> & Hset).
    destruct (IH _ _ _ _ H) as (sets & -> & Hsets).
    exists (set :: sets). rewrite <- app_assoc. auto.
Qed.

(** X15: an exemplar update in protocol order keeps the lists of the old
    classes in place and in order, each cut to its first [m] entries, and
    appends one list per class of the current group, in the order of the
    group. *)
Theorem old_exemplars_are_prefixes (s : Session) e labels s' :
  in_step s e labels -> sample_contract ->
  update_exemplars s = Ok s' ->
  exists sets,
    exemplars s'
    = Some (map (firstn (Z.to_nat (K s / n_known_classes s))) e ++ sets)
    /\ length sets = length labels.
Proof.
  intros Hin Hsample H.
  pose proof (in_step_known_pos s e labels Hin) as Hpos.
  assert (Hm : (0 <= K s / n_known_classes s)%Z).
  { apply Z.div_pos; [apply (is_capacity _ _ _ Hin) | exact Hpos]. }
  rewrite (update_exemplars_unfold s e labels Hin) in H.
  apply bind_ok in H. destruct H as ([exs g] & Hloop & H).
  injection H as <-.
  destruct (add_classes_members s _ labels Hm Hsample _ _ _ _ Hloop)
    as (sets & -> & Hsets).
  exists sets. split.
  - simpl. f_equal. f_equal. apply map_ext. intros l.
    now apply slice_to_firstn.
  - symmetry. eapply Forall2_length; eauto.
Qed.

(** X16: the list that an exemplar update in protocol order stores for a new
    class holds rows of that class's own dataset, and
    [min(m, len(dataset))] of them. *)
Theorem new_exemplars_come_from_their_class (s : Session) e labels s' :
  in_step s e labels -> sample_contract ->
  update_exemplars s = Ok s' ->
  exists old sets,
    exemplars s' = Some (old ++ sets)
    /\ length old = length e
    /\ Forall2 (drawn_from s (K s / n_known_classes s)) labels sets.
Proof.
  intros Hin Hsample H.
  pose proof (in_step_known_pos s e labels Hin) as Hpos.
  assert (Hm : (0 <= K s / n_known_classes s)%Z).
  { apply Z.div_pos; [apply (is_capacity _ _ _ Hin) | exact Hpos]. }
  rewrite (update_exemplars_unfold s e labels Hin) in H.
  apply bind_ok in H. destruct H as ([exs g] & Hloop & H).
  injection H as <-.
  destruct (add_classes_members s _ labels Hm Hsample _ _ _ _ Hloop)
    as (sets & -> & Hsets).
  eexists. exists sets. split; [reflexivity|].
  split; [apply length_map | exact Hsets].
Qed.

(** X17: an exemplar update needs the data of every class of the group, even
    when the quota is zero: if a class of the group has no sample (or the
    batch size is not positive) the call raises. *)
Theorem update_exemplars_needs_class_data (s : Session) e labels label :
  in_step s e labels ->
  In label labels ->
  ~ loadable s label ->
  exists err, update_exemplars s = Raise err.
Proof.
  intros Hin Hlabel Hno.
  destruct (update_exemplars s) as [s'|err] eqn:E; [|eauto].
  exfalso. apply Hno.
  eapply update_exemplars_loadable; eauto.
Qed.

(** X18: stepping past the last group: with exemplars enabled, once [step]
    has been called more often than the splitter has groups,
    [update_exemplars] raises [IndexError]. *)
Theorem update_exemplars_past_last_group_raises
    nc ng seed ap tp g r s0 calls s :
  init nc ng seed ap tp g r = Ok s0 ->
  run calls s0 = Ok s ->
  ap_use_exemplars ap = true ->
  (nc / ng <> 0)%Z ->
  (length (splitter s0) < count_steps calls)%nat ->
  update_exemplars s = Raise IndexError.
Proof.
  intros Hinit Hrun Hex Hq Hpast.
  destruct (reachable_counters _ _ _ _ _ _ _ _ _ _ Hinit Hrun)
    as (Hself & _ & Hpos & Hcs & Hnk).
  apply init_ok in Hinit.
  destruct Hinit as (_ & _ & _ & _ & _ & Hu & _).
  unfold update_exemplars, Py.floordiv. rewrite Hself, Hu, Hex.
  destruct (Z.eqb_spec (n_known_classes s) 0); [nia|]. cbn [bind].
  unfold Py.getitem_z, Py.getitem.
  destruct (Z.ltb_spec (current_step s) 0); [lia|].
  destruct (nth_error (splitter s0) (Z.to_nat (current_step s))) eqn:E;
    [|reflexivity].
  assert (Hlt : (Z.to_nat (current_step s) < length (splitter s0))%nat).
  { apply nth_error_Some. congruence. }
  lia.
Qed.

(** A run without [update_exemplars] leaves the memory as it is. *)
Lemma run_keeps_exemplars calls : forall s s',
  run calls s = Ok s' ->
  (forall c, In c calls -> c <> CUpdateExemplars) ->
  exemplars s' = exemplars s.
Proof.
  unfold run. induction calls as [|c rest IH]; simpl; intros s s' H Hno.
  - now injection H as <-.
  - apply bind_ok in H. destruct H as (s1 & H1 & H).
    rewrite (IH s1 s' H (fun x Hx => Hno x (or_intror Hx))).
    apply (training_keeps_exemplars c s s1 H1).
    apply Hno. now left.
Qed.

(** X19: a skipped exemplar update is not silently made up for: if
    [update_exemplars] was never called and the session is on its second
    or a later step, the call fails with [IndexError] while cutting the
    lists of the old classes, which are not there. *)
Theorem update_exemplars_after_skipped_update_raises
    nc ng seed ap tp g r s0 calls s labels :
  init nc ng seed ap tp g r = Ok s0 ->
  run calls s0 = Ok s ->
  (forall c, In c calls -> c <> CUpdateExemplars) ->
  ap_use_exemplars ap = true ->
  (nc / ng <> 0)%Z ->
  (2 <= count_steps calls)%nat ->
  nth_error (splitter s0) (count_steps calls - 1) = Some labels ->
  update_exemplars s = Raise IndexError.
Proof.
  intros Hinit Hrun Hno Hex Hq Hsteps Hlabels.
  destruct (reachable_counters _ _ _ _ _ _ _ _ _ _ Hinit Hrun)
    as (Hself & Hc & Hpos & Hcs & Hnk).
  pose proof (run_keeps_exemplars calls s0 s Hrun Hno) as Hmem.
  destruct (init_exemplars _ _ _ _ _ _ _ _ Hinit) as [He _].
  rewrite Hex in He.
  apply init_ok in Hinit.
  destruct Hinit as (_ & _ & _ & _ & _ & Hu & _).
  unfold update_exemplars, Py.floordiv. rewrite Hself, Hu, Hex.
  destruct (Z.eqb_spec (n_known_classes s) 0); [nia|]. cbn [bind].
  unfold Py.getitem_z, Py.getitem.
  destruct (Z.ltb_spec (current_step s) 0); [lia|].
  replace (Z.to_nat (current_step s)) with (count_steps calls - 1)%nat
    by lia.
  rewrite Hlabels, Hmem, He. cbn [bind].
  destruct (Z.gtb_spec (current_step s) 0); [|lia].
  unfold reduce_exemplars, Py.range_len.
  rewrite <- Hself, Hc.
  destruct (Z.to_nat (n_known_classes s - nc / ng)) as [|k] eqn:Ek;
    [nia|].
  reflexivity.
Qed.

End MemoryFacts.

(** ** Whole sessions in protocol order *)

Section ProtocolRuns.

Context {C : Collaborators}.

Lemma update_exemplars_labels (s : Session) s' :
  update_exemplars s = Ok s' -> use_exemplars s = true ->
  (0 <= current_step s)%Z ->
  exists labels,
    nth_error (splitter s) (Z.to_nat (current_step s)) = Some labels.
Proof.
  unfold update_exemplars. intros H Hu Hs. rewrite Hu in H.
  apply bind_ok in H. destruct H as (m & _ & H).
  apply bind_ok in H. destruct H as (labels & Hl & _).
  unfold Py.getitem_z, Py.getitem in Hl.
  destruct (Z.ltb_spec (current_step s) 0); [lia|].
  destruct (nth_error (splitter s) (Z.to_nat (current_step s)));
    [eauto | discriminate].
Qed.

Lemma call_memory_in_order c (s s' : Session) pending :
  sample_contract ->
  (forall i labels, nth_error (splitter s) i = Some labels ->
                    Z.of_nat (length labels) = classes_per_group s) ->
  call c s = Ok s' ->
  memory_in_order pending s ->
  match c with
  | CStep => pending = false -> memory_in_order true s'
  | CUpdateExemplars => pending = true -> memory_in_order false s'
  | _ => memory_in_order pending s'
  end.
Proof.
  intros Hsample Hgroups Hc (Hu & Hg & HK & Hs & Hk & Hp & e & He & Htot & Hlen).
  assert (Hother : c <> CStep -> c <> CUpdateExemplars ->
                   memory_in_order pending s').
  { intros H1 H2.
    pose proof (training_keeps_exemplars c s s' Hc H2) as Hex.
    destruct (call_counters c s s' Hc) as (Hself & Hcs & Hnk).
    assert (Hzero : count_steps [c] = 0%nat)
      by (destruct c; try reflexivity; congruence).
    rewrite Hzero in Hcs, Hnk. simpl in Hcs, Hnk.
    rewrite Z.add_0_r in Hcs, Hnk.
    unfold memory_in_order. rewrite Hex, Hself, Hcs, Hnk.
    repeat (split; [assumption|]). exists e. auto. }
  destruct c; try (apply Hother; discriminate).
  - intros ->. cbn [call] in Hc. cbn iota in Hlen. injection Hc as <-.
    unfold memory_in_order. simpl.
    repeat (split; [auto; lia|]). exists e.
    split; [exact He|]. split; [exact Htot|]. lia.
  - intros ->. cbn [call] in Hc. cbn iota in Hlen.
    specialize (Hp eq_refl).
    destruct (update_exemplars_labels s s' Hc Hu Hp) as (labels & Hl).
    assert (Hin : in_step s e labels).
    { constructor; auto; try lia; exact (Hgroups _ _ Hl). }
    pose proof (update_exemplars_loadable s e labels s' Hin Hc) as Hload.
    destruct (update_exemplars_quota s e labels Hin Hsample Hload)
      as (s2 & e' & E & Hst & Hcount & Hquota).
    rewrite E in Hc. injection Hc as <-.
    pose proof E as Heff. apply update_exemplars_effect in Heff.
    destruct Heff as ([Hself Hcs Hnk _ _ _ _] & _).
    pose proof (in_step_known_pos s e labels Hin) as Hpos.
    unfold memory_in_order. rewrite Hself, Hcs, Hnk.
    repeat (split; [auto; lia|]).
    exists e'. split; [exact Hst|]. split; [|lia].
    unfold total_exemplars.
    pose proof (concat_length_le _ _ Hquota) as Hsum.
    pose proof (Z.mul_div_le (K s) (n_known_classes s) Hpos) as Hdiv.
    assert (Hm : (0 <= K s / n_known_classes s)%Z)
      by (apply Z.div_pos; lia).
    nia.
Qed.

Lemma run_memory_in_order calls : forall (s s' : Session) pending,
  sample_contract ->
  (forall i labels, nth_error (splitter s) i = Some labels ->
                    Z.of_nat (length labels) = classes_per_group s) ->
  protocol_order pending calls = true ->
  run calls s = Ok s' ->
  memory_in_order pending s ->
  exists pending', memory_in_order pending' s'.
Proof.
  unfold run. induction calls as [|c rest IH];
    intros s s' pending Hsample Hgroups Hord Hrun Hmem.
  - simpl in Hrun. injection Hrun as <-. eauto.
  - simpl in Hrun. apply bind_ok in Hrun. destruct Hrun as (s1 & H1 & Hrun).
    pose proof (call_memory_in_order c s s1 pending Hsample Hgroups H1 Hmem)
      as Hnext.
    destruct (call_counters c s s1 H1) as (Hself & _ & _).
    assert (Hgroups1 : forall i labels,
               nth_error (splitter s1) i = Some labels ->
               Z.of_nat (length labels) = classes_per_group s1).
    { rewrite Hself. exact Hgroups. }
    destruct c; cbn [protocol_order] in Hord.
    + apply andb_prop in Hord. destruct Hord as [Hp Hord].
      apply negb_true_iff in Hp.
      eapply (IH s1 s' true); eauto.
    + eapply (IH s1 s' pending); eauto.
    + eapply (IH s1 s' pending); eauto.
    + eapply (IH s1 s' pending); eauto.
    + apply andb_prop in Hord. destruct Hord as [Hp Hord].
      eapply (IH s1 s' false); eauto.
Qed.

(** X20: over a whole session the capacity holds at every point: in a session
    built with exemplars whose groups all have [classes_per_group]
    labels, after any sequence of calls in protocol order that returned,
    the exemplars stored over all classes number at most [K]. *)
Theorem capacity_holds_throughout nc ng seed ap tp g r s0 calls s :
  init nc ng seed ap tp g r = Ok s0 ->
  ap_use_exemplars ap = true ->
  (0 <= n_exemplars ap)%Z ->
  (0 < nc / ng)%Z ->
  (forall i labels, nth_error (splitter s0) i = Some labels ->
                    Z.of_nat (length labels) = (nc / ng)%Z) ->
  sample_contract ->
  protocol_order false calls = true ->
  run calls s0 = Ok s ->
  exists e, exemplars s = Some e /\ (total_exemplars e <= K s)%Z.
Proof.
  intros Hinit Hex Hcap Hq Hgroups Hsample Hord Hrun.
  destruct (init_exemplars _ _ _ _ _ _ _ _ Hinit) as [He HK].
  rewrite Hex in He, HK.
  apply init_ok in Hinit.
  destruct Hinit as (_ & Hc & _ & _ & _ & Hu & Hs & Hk & _).
  destruct (run_memory_in_order calls s0 s false Hsample) as (p & Hmem);
    auto.
  - rewrite Hc. exact Hgroups.
  - unfold memory_in_order. rewrite Hu, Hex, Hc, HK, Hs, Hk, He.
    repeat (split; [first [assumption | lia | discriminate | auto]|]).
    exists []. repeat split; simpl; auto; lia.
  - destruct Hmem as (_ & _ & _ & _ & _ & _ & e & He' & Htot & _).
    eauto.
Qed.

End ProtocolRuns.

(** ** The properties above on concrete sessions *)

Lemma get_params_misses_two_keys_witness :
  dict_get (snd (get_params "ICARL")) "use_cosine" = None
  <-> "use_cosine"%string = "use_cosine"%string
      \/ "use_cosine"%string = "exemplars_selection"%string.
Proof.
  apply (get_params_misses_two_keys "ICARL" "use_cosine").
  simpl. auto.
Defined.

Ltac demo_init := vm_compute; reflexivity.

Lemma no_update_nets_in_second_step :
  forall c, In c DemoRuns.second_step -> c <> CUpdateNets.
Proof.
  intros c [<-|[<-|[<-|[]]]]; discriminate.
Qed.

Lemma snapshot_is_frozen_witness :
  exists s1 p,
    update_nets DemoRuns.before_growth = Ok s1
    /\ prev_net s1 = Some p
    /\ body p = body (net DemoRuns.before_growth)
    /\ bias (fc p) = bias (fc (net DemoRuns.before_growth))
    /\ sigma (fc p) = sigma (fc (net DemoRuns.before_growth))
    /\ read (heap s1) (weight (fc p)) = head_weight DemoRuns.before_growth
    /\ forall later s2,
         (forall c, In c later -> c <> CUpdateNets) ->
         run later s1 = Ok s2 ->
         prev_net s2 = Some p
         /\ read (heap s2) (weight (fc p))
            = head_weight DemoRuns.before_growth.
Proof.
  apply (snapshot_is_frozen (C := Demo.collaborators)
           6 3 tt Demo.approach Demo.training 0%nat 0%nat
           DemoRuns.fresh DemoRuns.second_step DemoRuns.before_growth);
    demo_init.
Defined.

Lemma growth_keeps_scale_redraws_bias_witness :
  exists s1,
    update_nets DemoRuns.before_growth = Ok s1
    /\ in_features (fc (net s1))
       = in_features (fc (net DemoRuns.before_growth))
    /\ out_features (fc (net s1))
       = n_known_classes DemoRuns.before_growth
    /\ (use_cosine DemoRuns.before_growth = true ->
        sigma (fc (net s1)) = sigma (fc (net DemoRuns.before_growth))
        /\ bias (fc (net s1)) = None)
    /\ (use_cosine DemoRuns.before_growth = false ->
        sigma (fc (net s1)) = None
        /\ bias (fc (net s1)) =
           Some (fst (fresh_bias
                        (snd (fresh_weight
                                (torch_rng DemoRuns.before_growth)
                                (n_known_classes DemoRuns.before_growth)
                                (in_features
                                   (fc (net DemoRuns.before_growth)))))
                        (n_known_classes DemoRuns.before_growth)))).
Proof.
  apply (growth_keeps_scale_redraws_bias (C := Demo.collaborators)
           6 3 tt Demo.approach Demo.training 0%nat 0%nat
           DemoRuns.fresh DemoRuns.second_step DemoRuns.before_growth);
    demo_init.
Defined.

Lemma fine_tuning_is_isolated_witness :
  exists s1 f,
    update_nets DemoRuns.before_growth = Ok s1
    /\ ft_net s1 = Some f
    /\ read (heap s1) (weight (fc f)) = head_weight s1
    /\ (forall dataloader s2,
          train_ft dataloader s1 = Ok s2 ->
          net s2 = net s1 /\ head_weight s2 = head_weight s1)
    /\ (forall dataloader s2,
          train dataloader s1 = Ok s2 ->
          ft_net s2 = Some f
          /\ read (heap s2) (weight (fc f)) = head_weight s1).
Proof.
  apply (fine_tuning_is_isolated (C := Demo.collaborators)
           6 3 tt Demo.approach Demo.training 0%nat 0%nat
           DemoRuns.fresh DemoRuns.second_step DemoRuns.before_growth);
    demo_init.
Defined.

Lemma first_growth_doubles_trained_rows_witness :
  exists s1,
    update_nets DemoRuns.before_growth = Ok s1
    /\ head_weight s1
       = head_weight DemoRuns.before_growth
         ++ head_weight DemoRuns.before_growth.
Proof.
  apply (first_growth_doubles_trained_rows (C := Demo.collaborators)
           6 3 tt Demo.approach Demo.training 0%nat 0%nat
           DemoRuns.fresh DemoRuns.second_step DemoRuns.before_growth);
    [demo_init | demo_init | exact no_update_nets_in_second_step
    | demo_init].
Defined.

Lemma train_before_step_raises_witness :
  train DemoRuns.batches DemoRuns.fresh = Raise ZeroDivisionError.
Proof.
  apply (train_before_step_raises (C := Demo.collaborators)
           6 3 tt Demo.approach Demo.training 0%nat 0%nat
           DemoRuns.fresh [] DemoRuns.fresh);
    [demo_init | reflexivity | left; reflexivity].
Defined.

Lemma update_exemplars_before_step_raises_witness :
  update_exemplars DemoRuns.fresh = Raise ZeroDivisionError.
Proof.
  apply (update_exemplars_before_step_raises (C := Demo.collaborators)
           6 3 tt Demo.approach Demo.training 0%nat 0%nat
           DemoRuns.fresh [] DemoRuns.fresh);
    [demo_init | reflexivity | reflexivity | left; reflexivity].
Defined.

Lemma without_exemplars_nothing_is_stored_witness :
  exemplars DemoRuns.after_plain = None
  /\ update_exemplars DemoRuns.after_plain = Ok DemoRuns.after_plain.
Proof.
  apply (without_exemplars_nothing_is_stored (C := Demo.collaborators)
           6 3 tt Demo.plain Demo.training 0%nat 0%nat
           DemoRuns.fresh_plain DemoRuns.two_steps_plain
           DemoRuns.after_plain);
    [demo_init | reflexivity | demo_init].
Defined.

Lemma train_without_update_nets_raises_witness :
  train DemoRuns.batches DemoRuns.before_growth = Raise AttributeError.
Proof.
  apply (train_without_update_nets_raises (C := Demo.collaborators)
           6 3 tt Demo.approach Demo.training 0%nat 0%nat
           DemoRuns.fresh DemoRuns.second_step DemoRuns.before_growth);
    [demo_init | demo_init | exact no_update_nets_in_second_step
    | reflexivity | vm_compute; lia | vm_compute; discriminate].
Defined.

Lemma train_ft_first_step_raises_witness :
  train_ft DemoRuns.batches DemoMore.first_step = Raise AttributeError.
Proof.
  apply (train_ft_first_step_raises (C := Demo.collaborators)
           6 3 tt Demo.approach Demo.training 0%nat 0%nat
           DemoRuns.fresh [CStep] DemoMore.first_step);
    [demo_init | demo_init | vm_compute; lia | reflexivity | reflexivity].
Defined.

Lemma growth_then_train_returns_witness :
  exists s1 s2,
    update_nets DemoRuns.before_growth = Ok s1
    /\ train DemoRuns.batches s1 = Ok s2
    /\ current_step s2 = current_step DemoRuns.before_growth
    /\ n_known_classes s2 = n_known_classes DemoRuns.before_growth.
Proof.
  apply (growth_then_train_returns (C := Demo.collaborators)
           6 3 tt Demo.approach Demo.training 0%nat 0%nat
           DemoRuns.fresh DemoRuns.second_step DemoRuns.before_growth);
    [demo_init | demo_init | vm_compute; lia | vm_compute; discriminate].
Defined.

Ltac demo_in_step :=
  constructor; try (vm_compute; reflexivity); vm_compute; discriminate.

Lemma old_exemplars_are_prefixes_witness :
  exists sets,
    exemplars DemoMore.after_second_update
    = Some (map (firstn (Z.to_nat (K DemoRuns.entering_second
                                   / n_known_classes
                                       DemoRuns.entering_second)))
                DemoRuns.stored_second ++ sets)
    /\ length sets = length [2%Z; 3%Z].
Proof.
  apply (old_exemplars_are_prefixes (C := Demo.collaborators)
           DemoRuns.entering_second DemoRuns.stored_second [2%Z; 3%Z]
           DemoMore.after_second_update).
  - demo_in_step.
  - exact demo_sample_contract.
  - vm_compute. reflexivity.
Defined.

Lemma new_exemplars_come_from_their_class_witness :
  exists old sets,
    exemplars DemoMore.after_second_update = Some (old ++ sets)
    /\ length old = length DemoRuns.stored_second
    /\ Forall2 (drawn_from DemoRuns.entering_second
                  (K DemoRuns.entering_second
                   / n_known_classes DemoRuns.entering_second))
               [2%Z; 3%Z] sets.
Proof.
  apply (new_exemplars_come_from_their_class (C := Demo.collaborators)
           DemoRuns.entering_second DemoRuns.stored_second [2%Z; 3%Z]
           DemoMore.after_second_update).
  - demo_in_step.
  - exact demo_sample_contract.
  - vm_compute. reflexivity.
Defined.

Lemma update_exemplars_needs_class_data_witness :
  exists err, update_exemplars DemoMore.entering_unbatched = Raise err.
Proof.
  apply (update_exemplars_needs_class_data (C := Demo.collaborators)
           DemoMore.entering_unbatched [] [0%Z; 1%Z] 0%Z).
  - demo_in_step.
  - left. reflexivity.
  - intros [H _]. vm_compute in H. discriminate.
Defined.

Lemma update_exemplars_past_last_group_raises_witness :
  update_exemplars DemoMore.past_last_group = Raise IndexError.
Proof.
  apply (update_exemplars_past_last_group_raises (C := Demo.collaborators)
           6 3 tt DemoRuns.approach_random Demo.training 0%nat 0%nat
           DemoRuns.fresh_random DemoMore.four_steps
           DemoMore.past_last_group);
    [vm_compute; reflexivity | vm_compute; reflexivity | reflexivity
    | vm_compute; discriminate | vm_compute; lia].
Defined.

Lemma no_update_exemplars_in_two_bare_steps :
  forall c, In c DemoMore.two_bare_steps -> c <> CUpdateExemplars.
Proof.
  intros c [<-|[<-|[]]]; discriminate.
Qed.

Lemma update_exemplars_after_skipped_update_raises_witness :
  update_exemplars DemoMore.update_skipped = Raise IndexError.
Proof.
  apply (update_exemplars_after_skipped_update_raises
           (C := Demo.collaborators)
           6 3 tt DemoRuns.approach_random Demo.training 0%nat 0%nat
           DemoRuns.fresh_random DemoMore.two_bare_steps
           DemoMore.update_skipped [2%Z; 3%Z]);
    [vm_compute; reflexivity | vm_compute; reflexivity
    | exact no_update_exemplars_in_two_bare_steps | reflexivity
    | vm_compute; discriminate | vm_compute; lia
    | vm_compute; reflexivity].
Defined.

Lemma demo_groups_of_two :
  forall i labels,
    nth_error (splitter DemoRuns.fresh_random) i = Some labels ->
    Z.of_nat (length labels) = (6 / 3)%Z.
Proof.
  intros i labels H.
  destruct i as [|[|[|i]]]; vm_compute in H;
    try (injection H as <-; reflexivity).
  destruct i; discriminate.
Qed.

Lemma capacity_holds_throughout_witness :
  exists e,
    exemplars DemoMore.after_two_steps = Some e
    /\ (total_exemplars e <= K DemoMore.after_two_steps)%Z.
Proof.
  apply (capacity_holds_throughout (C := Demo.collaborators)
           6 3 tt DemoRuns.approach_random Demo.training 0%nat 0%nat
           DemoRuns.fresh_random DemoMore.two_steps_in_order
           DemoMore.after_two_steps);
    [vm_compute; reflexivity | reflexivity | vm_compute; discriminate
    | vm_compute; reflexivity | exact demo_groups_of_two
    | exact demo_sample_contract | reflexivity
    | vm_compute; reflexivity].
Defined.

(** * The claims on construction and on the exemplar memory, revisited *)

(** ** Construction with a splitter that partitions the class set *)



Section ConstructionFacts.

Context {C : Collaborators}.


End ConstructionFacts.


(** The checked splitter does return for six classes in three groups. *)
Lemma checked_splitter_returns :
  LabelsSplitter (Collaborators := DemoSplit.collaborators) 6 3 tt
  = Ok [[0; 1]; [2; 3]; [4; 5]]%Z.
Proof. vm_compute. reflexivity. Qed.


(** ** The exemplar memory at a call in protocol order *)

Section ProtocolCalls.

Context {C : Collaborators}.

(** When the next call in protocol order is [update_exemplars], a step
    waits for its update. *)
Lemma run_memory_pending calls : forall (s s' : Session) pending,
  sample_contract ->
  (forall i labels, nth_error (splitter s) i = Some labels ->
                    Z.of_nat (length labels) = classes_per_group s) ->
  protocol_order pending (calls ++ [CUpdateExemplars]) = true ->
  run calls s = Ok s' ->
  memory_in_order pending s ->
  memory_in_order true s'.
Proof.
  unfold run. induction calls as [|c rest IH];
    intros s s' pending Hsample Hgroups Hord Hrun Hmem.
  - simpl in Hrun. injection Hrun as <-. simpl in Hord.
    rewrite andb_true_r in Hord. subst pending. exact Hmem.
  - simpl in Hrun. apply bind_ok in Hrun. destruct Hrun as (s1 & H1 & Hrun).
    pose proof (call_memory_in_order c s s1 pending Hsample Hgroups H1 Hmem)
      as Hnext.
    destruct (call_counters c s s1 H1) as (Hself & _ & _).
    assert (Hgroups1 : forall i labels,
               nth_error (splitter s1) i = Some labels ->
               Z.of_nat (length labels) = classes_per_group s1).
    { rewrite Hself. exact Hgroups. }
    rewrite <- app_comm_cons in Hord.
    destruct c; cbn [protocol_order] in Hord.
    + apply andb_prop in Hord. destruct Hord as [Hp Hord].
      apply negb_true_iff in Hp.
      eapply (IH s1 s' true); eauto.
    + eapply (IH s1 s' pending); eauto.
    + eapply (IH s1 s' pending); eauto.
    + eapply (IH s1 s' pending); eauto.
    + apply andb_prop in Hord. destruct Hord as [Hp Hord].
      eapply (IH s1 s' false); eauto.
Qed.

(** In a session in protocol order, a state whose next call is
    [update_exemplars] is the state that the call expects. *)
Lemma protocol_reaches_in_step nc ng seed ap tp g r s0 calls s labels :
  init nc ng seed ap tp g r = Ok s0 ->
  ap_use_exemplars ap = true ->
  (0 <= n_exemplars ap)%Z ->
  (0 < nc / ng)%Z ->
  (forall i group, nth_error (splitter s0) i = Some group ->
                   Z.of_nat (length group) = (nc / ng)%Z) ->
  sample_contract ->
  protocol_order false (calls ++ [CUpdateExemplars]) = true ->
  run calls s0 = Ok s ->
  nth_error (splitter s) (Z.to_nat (current_step s)) = Some labels ->
  exists e, in_step s e labels.
Proof.
  intros Hinit Hex Hcap Hq Hgroups Hsample Hord Hrun Hlabels.
  destruct (init_exemplars _ _ _ _ _ _ _ _ Hinit) as [He HK].
  rewrite Hex in He, HK.
  destruct (reachable_counters _ _ _ _ _ _ _ _ _ _ Hinit Hrun)
    as (Hself & Hcpg & _).
  apply init_ok in Hinit.
  destruct Hinit as (_ & Hc & _ & _ & _ & Hu & Hs & Hk & _).
  assert (Hmem : memory_in_order true s).
  { apply (run_memory_pending calls s0 s false Hsample); auto.
    - rewrite Hc. exact Hgroups.
    - unfold memory_in_order. rewrite Hu, Hex, Hc, HK, Hs, Hk, He.
      repeat (split; [first [assumption | lia | discriminate | auto]|]).
      exists []. repeat split; simpl; auto; lia. }
  destruct Hmem as (Hu' & Hg' & HK' & Hs' & Hk' & Hp' & e & He' & _ & Hlen).
  exists e. constructor; auto.
  rewrite Hcpg. apply (Hgroups (Z.to_nat (current_step s))).
  rewrite <- Hself. exact Hlabels.
Qed.

(** C6, as amended: in a session built with exemplars, a call of
    [update_exemplars] made in protocol order (every [step] followed by
    exactly one [update_exemplars] before the next [step]), for a group
    whose class data can be loaded, returns; afterwards there is one list
    per known class, each holds at most [m = K // n_known_classes]
    entries, and the total is at most [K]. *)
Theorem capacity_respected_in_protocol_order
    nc ng seed ap tp g r s0 calls s labels :
  init nc ng seed ap tp g r = Ok s0 ->
  ap_use_exemplars ap = true ->
  (0 <= n_exemplars ap)%Z ->
  (0 < nc / ng)%Z ->
  (forall i group, nth_error (splitter s0) i = Some group ->
                   Z.of_nat (length group) = (nc / ng)%Z) ->
  sample_contract ->
  protocol_order false (calls ++ [CUpdateExemplars]) = true ->
  run calls s0 = Ok s ->
  nth_error (splitter s) (Z.to_nat (current_step s)) = Some labels ->
  (forall label, In label labels -> loadable s label) ->
  exists s' e',
    update_exemplars s = Ok s'
    /\ exemplars s' = Some e'
    /\ Z.of_nat (length e') = n_known_classes s
    /\ Forall (fun l => (Z.of_nat (length l)
                         <= K s / n_known_classes s)%Z) e'
    /\ (total_exemplars e' <= K s)%Z.
Proof.
  intros Hinit Hex Hcap Hq Hgroups Hsample Hord Hrun Hlabels Hload.
  destruct (protocol_reaches_in_step _ _ _ _ _ _ _ _ _ _ _ Hinit Hex Hcap
              Hq Hgroups Hsample Hord Hrun Hlabels) as (e & Hin).
  destruct (update_exemplars_quota s e labels Hin Hsample Hload)
    as (s' & e' & E & Hst & Hcount & Hquota).
  pose proof (in_step_known_pos s e labels Hin) as Hpos.
  assert (Hm : (0 <= K s / n_known_classes s)%Z).
  { apply Z.div_pos; [apply (is_capacity _ _ _ Hin) | exact Hpos]. }
  exists s', e'. split; [exact E|]. split; [exact Hst|].
  split; [exact Hcount|]. split.
  - eapply Forall_impl; [|exact Hquota]. simpl. intros l Hl. lia.
  - unfold total_exemplars.
    pose proof (concat_length_le _ _ Hquota) as Hsum.
    pose proof (Z.mul_div_le (K s) (n_known_classes s) Hpos) as Hdiv.
    nia.
Qed.

(** C8, as amended: [update_exemplars] has no handling of its own for a
    quota of zero.  In a session built with exemplars, a call made in
    protocol order with [n_known_classes] above [K], for a group whose
    class data can be loaded, does not fail: it returns, and every
    class, old and new, is left with an empty list. *)
Theorem zero_quota_in_protocol_order
    nc ng seed ap tp g r s0 calls s labels :
  init nc ng seed ap tp g r = Ok s0 ->
  ap_use_exemplars ap = true ->
  (0 <= n_exemplars ap)%Z ->
  (0 < nc / ng)%Z ->
  (forall i group, nth_error (splitter s0) i = Some group ->
                   Z.of_nat (length group) = (nc / ng)%Z) ->
  sample_contract ->
  protocol_order false (calls ++ [CUpdateExemplars]) = true ->
  run calls s0 = Ok s ->
  nth_error (splitter s) (Z.to_nat (current_step s)) = Some labels ->
  (forall label, In label labels -> loadable s label) ->
  (K s < n_known_classes s)%Z ->
  exists s' e',
    update_exemplars s = Ok s'
    /\ exemplars s' = Some e'
    /\ Z.of_nat (length e') = n_known_classes s
    /\ Forall (fun l => l = []) e'.
Proof.
  intros Hinit Hex Hcap Hq Hgroups Hsample Hord Hrun Hlabels Hload Hover.
  destruct (protocol_reaches_in_step _ _ _ _ _ _ _ _ _ _ _ Hinit Hex Hcap
              Hq Hgroups Hsample Hord Hrun Hlabels) as (e & Hin).
  destruct (update_exemplars_quota s e labels Hin Hsample Hload)
    as (s' & e' & E & Hst & Hcount & Hquota).
  exists s', e'. split; [exact E|]. split; [exact Hst|].
  split; [exact Hcount|].
  rewrite (Z.div_small (K s) (n_known_classes s)) in Hquota
    by (split; [apply (is_capacity _ _ _ Hin) | exact Hover]).
  eapply Forall_impl; [|exact Hquota]. simpl.
  intros l Hl. destruct l; [reflexivity | simpl in Hl; lia].
Qed.

End ProtocolCalls.

(** ** A repeated exemplar update *)

(** C6 as stated fails: a second [update_exemplars] in the first step
    of a session with capacity four appends two more lists of two; four
    lists for two known classes, eight exemplars stored. *)
Lemma repeated_update_exceeds_capacity :
  init (C := Demo.collaborators) 6 3 tt DemoRuns.approach_random
       Demo.training 0%nat 0%nat = Ok DemoRuns.fresh_random
  /\ run [CStep; CUpdateExemplars] DemoRuns.fresh_random
     = Ok DemoRepeat.updated_once
  /\ use_exemplars DemoRepeat.updated_once = true
  /\ update_exemplars DemoRepeat.updated_once = Ok DemoRepeat.updated_twice
  /\ exemplars DemoRepeat.updated_twice = Some DemoRepeat.stored_twice
  /\ map (@length _) DemoRepeat.stored_twice = [2; 2; 2; 2]%nat
  /\ n_known_classes DemoRepeat.updated_twice = 2%Z
  /\ K DemoRepeat.updated_twice = 4%Z
  /\ ~ (total_exemplars DemoRepeat.stored_twice
        <= K DemoRepeat.updated_twice)%Z.
Proof.
  repeat split; try (vm_compute; reflexivity).
  vm_compute. intros H. apply H. reflexivity.
Qed.

(** C8 as stated fails: with capacity three and the update called twice
    in the first step, the call of the second step has a quota of zero,
    returns, and leaves two lists of one exemplar. *)
Lemma zero_quota_keeps_stray_lists :
  init (C := Demo.collaborators) 6 3 tt DemoRepeat.approach_three
       Demo.training 0%nat 0%nat = Ok DemoRepeat.fresh_three
  /\ run [CStep; CUpdateExemplars; CUpdateExemplars; CStep]
         DemoRepeat.fresh_three
     = Ok DemoRepeat.repeated_then_stepped
  /\ use_exemplars DemoRepeat.repeated_then_stepped = true
  /\ (K DemoRepeat.repeated_then_stepped
      < n_known_classes DemoRepeat.repeated_then_stepped)%Z
  /\ (K DemoRepeat.repeated_then_stepped
      / n_known_classes DemoRepeat.repeated_then_stepped = 0)%Z
  /\ update_exemplars DemoRepeat.repeated_then_stepped
     = Ok DemoRepeat.after_zero_quota
  /\ exemplars DemoRepeat.after_zero_quota
     = Some DemoRepeat.stored_zero_quota
  /\ map (@length _) DemoRepeat.stored_zero_quota
     = [0; 0; 1; 1; 0; 0]%nat
  /\ ~ Forall (fun l => l = []) DemoRepeat.stored_zero_quota.
Proof.
  repeat split; try (vm_compute; reflexivity).
  intros H. rewrite Forall_forall in H.
  assert (E : nth 2 DemoRepeat.stored_zero_quota [] = []).
  { apply H. vm_compute. right. right. left. reflexivity. }
  vm_compute in E. discriminate E.
Qed.

Lemma capacity_respected_in_protocol_order_witness :
  exists s' e',
    update_exemplars DemoRuns.entering_second = Ok s'
    /\ exemplars s' = Some e'
    /\ Z.of_nat (length e') = n_known_classes DemoRuns.entering_second
    /\ Forall (fun l => (Z.of_nat (length l)
                         <= K DemoRuns.entering_second
                            / n_known_classes DemoRuns.entering_second)%Z)
              e'
    /\ (total_exemplars e' <= K DemoRuns.entering_second)%Z.
Proof.
  apply (capacity_respected_in_protocol_order (C := Demo.collaborators)
           6 3 tt DemoRuns.approach_random Demo.training 0%nat 0%nat
           DemoRuns.fresh_random [CStep; CUpdateExemplars; CStep]
           DemoRuns.entering_second [2%Z; 3%Z]).
  - vm_compute. reflexivity.
  - reflexivity.
  - vm_compute. discriminate.
  - vm_compute. reflexivity.
  - exact demo_groups_of_two.
  - exact demo_sample_contract.
  - reflexivity.
  - vm_compute. reflexivity.
  - vm_compute. reflexivity.
  - intros label _. now apply demo_loadable.
Defined.

Lemma zero_quota_in_protocol_order_witness :
  exists s' e',
    update_exemplars DemoRuns.entering_third = Ok s'
    /\ exemplars s' = Some e'
    /\ Z.of_nat (length e') = n_known_classes DemoRuns.entering_third
    /\ Forall (fun l => l = []) e'.
Proof.
  apply (zero_quota_in_protocol_order (C := Demo.collaborators)
           6 3 tt DemoRuns.approach_random Demo.training 0%nat 0%nat
           DemoRuns.fresh_random
           [CStep; CUpdateExemplars; CStep; CUpdateExemplars; CStep]
           DemoRuns.entering_third [4%Z; 5%Z]).
  - vm_compute. reflexivity.
  - reflexivity.
  - vm_compute. discriminate.
  - vm_compute. reflexivity.
  - exact demo_groups_of_two.
  - exact demo_sample_contract.
  - reflexivity.
  - vm_compute. reflexivity.
  - vm_compute. reflexivity.
  - intros label _. now apply demo_loadable.
  - vm_compute. reflexivity.
Defined.
